(** * activities.py: validation of activities.json and the specification parsers

    A shallow embedding of [activities.py] (the script that validates
    activities.json and scrapes the metadata of a specification) and the
    properties of its URL canonicalisation, its validators, its uniqueness
    check and its W3C and IETF parsers.

    Conventions of the embedding:
    - a Python text string is a [string] (a sequence of 8-bit characters;
      the script decodes its command-line argument as ASCII), with
      [lower], [strip], [split] ... written out on it;
    - a call that can raise returns a [result]: [Ok v] or [Raise e], where
      [e : exn] names the Python exception class;
    - a value read from JSON is a [pyval]; a JSON object is a [gmap] from
      its keys to [pyval]s;
    - the functions of Python's standard library the script calls
      ([urlsplit], [urlunsplit], the [str] methods) are transcribed from
      CPython 2.7, the interpreter the script's main block is written for. *)

From Stdlib Require Import ZArith Ascii String List Lia SpecFloat.
From stdpp Require Import base option list strings gmap pretty.

Local Open Scope Z_scope.
Local Open Scope stdpp_scope.

(** ** Exceptions and results *)

Inductive exn : Type :=
| IndexError
| KeyError (key : string)
| AttributeError
| TypeError
| ValueError (arg : string + list string)
| NotImplementedError
| UnboundLocalError
| SystemExit (code : Z)
| BetterUrl (url : string)
| FetchError.

Inductive result (A : Type) : Type :=
| Ok (a : A)
| Raise (e : exn).

Arguments Ok {A} a.
Arguments Raise {A} e.

Definition bind {A B : Type} (r : result A) (k : A -> result B) : result B :=
  match r with
  | Ok a => k a
  | Raise e => Raise e
  end.

#[global] Instance result_bind : MBind result := fun _ _ k r => bind r k.
#[global] Instance result_ret : MRet result := fun _ a => Ok a.

(** ** Python's string methods *)

Module Str.

Definition is_upper (c : ascii) : bool :=
  let n := N_of_ascii c in ((65 <=? n) && (n <=? 90))%N.

Definition lower_char (c : ascii) : ascii :=
  if is_upper c then ascii_of_N (N_of_ascii c + 32) else c.

(** [s.lower()] *)
Fixpoint lower (s : string) : string :=
  match s with
  | EmptyString => EmptyString
  | String c s' => String (lower_char c) (lower s')
  end.

(** [c in s] for a one-character [c] *)
Fixpoint mem (c : ascii) (s : string) : bool :=
  match s with
  | EmptyString => false
  | String d s' => if Ascii.eqb c d then true else mem c s'
  end.

(** [s.find(c)], [None] standing for -1 *)
Fixpoint find (c : ascii) (s : string) : option nat :=
  match s with
  | EmptyString => None
  | String d s' => if Ascii.eqb c d then Some O else S <$> find c s'
  end.

(** [s[:n]] *)
Fixpoint take (n : nat) (s : string) : string :=
  match n, s with
  | S n', String c s' => String c (take n' s')
  | _, _ => EmptyString
  end.

(** [s[n:]] *)
Fixpoint drop (n : nat) (s : string) : string :=
  match n, s with
  | S n', String _ s' => drop n' s'
  | _, _ => s
  end.

(** [s.find(c, start)] *)
Definition find_from (c : ascii) (start : nat) (s : string) : option nat :=
  if (String.length s <? start)%nat then None
  else (fun i => (start + i)%nat) <$> find c (drop start s).

(** [s[i:j]] for non-negative [i], [j] *)
Definition slice (i j : nat) (s : string) : string :=
  take (j - i) (drop i s).

(** [s[-1]]: the last character, [IndexError] on the empty string *)
Fixpoint last (s : string) : result ascii :=
  match s with
  | EmptyString => Raise IndexError
  | String c EmptyString => Ok c
  | String _ s' => last s'
  end.

(** [s[:-1]] *)
Fixpoint drop_last (s : string) : string :=
  match s with
  | EmptyString => EmptyString
  | String _ EmptyString => EmptyString
  | String c s' => String c (drop_last s')
  end.

(** [s.startswith(p)] *)
Fixpoint startswith (p s : string) : bool :=
  match p, s with
  | EmptyString, _ => true
  | String a p', String b s' => if Ascii.eqb a b then startswith p' s' else false
  | String _ _, EmptyString => false
  end.

(** [s.split(c, 1)] when [c in s]: the text before the first [c] and the
    text after it; [None] when [c] does not occur. *)
Fixpoint split1 (c : ascii) (s : string) : option (string * string) :=
  match s with
  | EmptyString => None
  | String d s' =>
      if Ascii.eqb c d then Some (EmptyString, s')
      else match split1 c s' with
           | Some (a, b) => Some (String d a, b)
           | None => None
           end
  end.

(** [s.rsplit(c, 1)] when [c in s]: the text before the last [c] and the
    text after it; [None] when [c] does not occur (Python then returns
    the one-element list [[s]]). *)
Fixpoint rsplit1 (c : ascii) (s : string) : option (string * string) :=
  match s with
  | EmptyString => None
  | String d s' =>
      match rsplit1 c s' with
      | Some (a, b) => Some (String d a, b)
      | None => if Ascii.eqb c d then Some (EmptyString, s') else None
      end
  end.

(** [s.split(c)]: always at least one piece *)
Fixpoint split (c : ascii) (s : string) : list string :=
  match s with
  | EmptyString => [EmptyString]
  | String d s' =>
      if Ascii.eqb c d then EmptyString :: split c s'
      else match split c s' with
           | piece :: rest => String d piece :: rest
           | [] => [String d EmptyString]
           end
  end.

(** [s.replace(a, b)] for one-character [a] and [b] *)
Fixpoint replace (a b : ascii) (s : string) : string :=
  match s with
  | EmptyString => EmptyString
  | String d s' => String (if Ascii.eqb d a then b else d) (replace a b s')
  end.

(** [sep.join(l)] *)
Fixpoint join (sep : string) (l : list string) : string :=
  match l with
  | [] => EmptyString
  | [s] => s
  | s :: l' => s +:+ sep +:+ join sep l'
  end.

(** The characters [unicode.isspace] accepts in the ASCII range. *)
Definition is_space (c : ascii) : bool :=
  let n := N_of_ascii c in
  (((9 <=? n) && (n <=? 13)) || ((28 <=? n) && (n <=? 32)))%N.

Fixpoint lstrip (s : string) : string :=
  match s with
  | String c s' => if is_space c then lstrip s' else s
  | EmptyString => EmptyString
  end.

Fixpoint rstrip (s : string) : string :=
  match s with
  | EmptyString => EmptyString
  | String c s' =>
      match rstrip s' with
      | EmptyString => if is_space c then EmptyString else String c EmptyString
      | t => String c t
      end
  end.

(** [s.strip()] *)
Definition strip (s : string) : string := rstrip (lstrip s).

Definition is_digit (c : ascii) : bool :=
  let n := N_of_ascii c in ((48 <=? n) && (n <=? 57))%N.

Fixpoint all (p : ascii -> bool) (s : string) : bool :=
  match s with
  | EmptyString => true
  | String c s' => p c && all p s'
  end.

(** [s.endswith(suffix)] *)
Definition endswith (suffix s : string) : bool :=
  (String.length suffix <=? String.length s)%nat
  && String.eqb (drop (String.length s - String.length suffix) s) suffix.

(** [s.isdigit()]: non-empty and made of digits *)
Definition isdigit (s : string) : bool :=
  match s with
  | EmptyString => false
  | _ => all is_digit s
  end.

End Str.

(** ** [urlsplit] and [urlunsplit] (CPython 2.7, module urlparse) *)

Record SplitResult : Type := mkSplit {
  scheme : string;
  netloc : string;
  path : string;
  query : string;
  fragment : string
}.

Definition scheme_chars : string :=
  "abcdefghijklmnopqrstuvwxyzABCDEFGHIJKLMNOPQRSTUVWXYZ0123456789+-.".

(** [_splitnetloc(url, start)]: the earliest of the delimiters "/", "?"
    and "#" at or after [start] ends the network location. *)
Definition _splitnetloc (url : string) (start : nat) : string * string :=
  let delim :=
    fold_left
      (fun delim c =>
         match Str.find_from c start url with
         | Some wdelim => Nat.min delim wdelim
         | None => delim
         end)
      ["/"; "?"; "#"]%char (String.length url) in
  (Str.slice start delim url, Str.drop delim url).

(** The part of [urlsplit] that follows the detection of the scheme:
    network location, then fragment, then query. *)
Definition split_after_scheme (scheme url : string) : result SplitResult :=
  '(netloc, url) ←
     (if String.eqb (Str.take 2 url) "//" then
        let '(netloc, url) := _splitnetloc url 2 in
        if (Str.mem "[" netloc && negb (Str.mem "]" netloc))
           || (Str.mem "]" netloc && negb (Str.mem "[" netloc))
        then Raise (ValueError (inl "Invalid IPv6 URL"))
        else Ok (netloc, url)
      else Ok (EmptyString, url));
  let '(url, fragment) :=
    match Str.split1 "#" url with
    | Some (u, f) => (u, f)
    | None => (url, EmptyString)
    end in
  let '(url, query) :=
    match Str.split1 "?" url with
    | Some (u, q) => (u, q)
    | None => (url, EmptyString)
    end in
  Ok (mkSplit scheme netloc url query fragment).

Definition urlsplit (url : string) : result SplitResult :=
  match Str.find ":" url with
  | Some (S i') =>
      let i := S i' in
      if String.eqb (Str.take i url) "http" then
        split_after_scheme (Str.lower (Str.take i url)) (Str.drop (i + 1) url)
      else if Str.all (fun c => Str.mem c scheme_chars) (Str.take i url) then
        let rest := Str.drop (i + 1) url in
        if String.eqb rest "" || negb (Str.all Str.is_digit rest) then
          split_after_scheme (Str.lower (Str.take i url)) rest
        else split_after_scheme "" url
      else split_after_scheme "" url
  | _ => split_after_scheme "" url
  end.

Definition uses_netloc : list string :=
  ["ftp"; "http"; "gopher"; "nntp"; "telnet"; "imap"; "wais"; "file"; "mms";
   "https"; "shttp"; "snews"; "prospero"; "rtsp"; "rtspu"; "rsync"; "";
   "svn"; "svn+ssh"; "sftp"; "nfs"; "git"; "git+ssh"].

Definition urlunsplit (data : SplitResult) : string :=
  let url := path data in
  let url :=
    if negb (String.eqb (netloc data) "")
       || (negb (String.eqb (scheme data) "")
           && bool_decide (scheme data ∈ uses_netloc)
           && negb (String.eqb (Str.take 2 url) "//"))
    then
      let url :=
        if negb (String.eqb url "") && negb (String.eqb (Str.take 1 url) "/")
        then "/" +:+ url else url in
      "//" +:+ netloc data +:+ url
    else url in
  let url := if negb (String.eqb (scheme data) "") then scheme data +:+ ":" +:+ url else url in
  let url := if negb (String.eqb (query data) "") then url +:+ "?" +:+ query data else url in
  let url := if negb (String.eqb (fragment data) "") then url +:+ "#" +:+ fragment data else url in
  url.

(** ** SpecParser.clean_url *)

Definition clean_url (url : string) : result string :=
  link ← urlsplit url;
  let path := path link in
  c ← Str.last path;
  let path := if Ascii.eqb c "/" then Str.drop_last path else path in
  Ok (scheme link +:+ "://" +:+ Str.lower (netloc link) +:+ path).

(** ** Values read from JSON

    [json.load] of CPython 2.7 yields [None], [bool], [int] (or [long] when
    the number does not fit a machine word), [float], [unicode], [list] and
    [dict] with [unicode] keys. *)

#[warnings="-register-all"]
Inductive pyval : Type :=
| PyNone
| PyBool (b : bool)
| PyInt (n : Z)
| PyLong (n : Z)
| PyFloat (x : spec_float)
| PyUnicode (s : string)
| PyList (l : list pyval)
| PyDict (d : gmap string pyval).

(** Truth value of an object, as [if v:] and [not v] test it. *)
Definition truthy (v : pyval) : bool :=
  match v with
  | PyNone => false
  | PyBool b => b
  | PyInt n | PyLong n => negb (n =? 0)
  | PyFloat x => match x with S754_zero _ => false | _ => true end
  | PyUnicode s => negb (String.eqb s "")
  | PyList l => match l with [] => false | _ => true end
  | PyDict d => negb (bool_decide (d = ∅))
  end.

Definition float_eq_Z (x : spec_float) (z : Z) : bool :=
  match x with
  | S754_zero _ => z =? 0
  | S754_finite s m e =>
      let mz := if s then Z.neg m else Z.pos m in
      if 0 <=? e then z =? mz * 2 ^ e else mz =? z * 2 ^ (- e)
  | _ => false
  end.

(** [v is None] *)
Definition is_none (v : pyval) : bool :=
  match v with
  | PyNone => true
  | _ => false
  end.

(** [a == b] *)
Fixpoint py_eq (a b : pyval) {struct a} : bool :=
  match a, b with
  | PyNone, PyNone => true
  | PyBool x, PyBool y => Bool.eqb x y
  | PyBool x, (PyInt n | PyLong n) | (PyInt n | PyLong n), PyBool x =>
      n =? (if x then 1 else 0)
  | PyBool x, PyFloat f | PyFloat f, PyBool x => float_eq_Z f (if x then 1 else 0)
  | (PyInt n | PyLong n), (PyInt m | PyLong m) => n =? m
  | (PyInt n | PyLong n), PyFloat f | PyFloat f, (PyInt n | PyLong n) => float_eq_Z f n
  | PyFloat f, PyFloat g => SFeqb f g
  | PyUnicode s, PyUnicode t => String.eqb s t
  | PyList l1, PyList l2 =>
      (fix go (l1 l2 : list pyval) {struct l1} : bool :=
         match l1, l2 with
         | [], [] => true
         | x :: l1', y :: l2' => py_eq x y && go l1' l2'
         | _, _ => false
         end) l1 l2
  | PyDict d1, PyDict d2 =>
      bool_decide (dom d1 = dom d2)
      && map_fold (fun k v acc =>
                     acc && match d2 !! k with
                            | Some w => py_eq v w
                            | None => false
                            end) true d1
  | _, _ => false
  end.

(** [v in l] for a list [l] of objects read from JSON (distinct objects,
    so that membership is decided by [==]). *)
Definition py_in (v : pyval) (l : list pyval) : bool := existsb (py_eq v) l.

(** [v.lower()]: only text has the method. *)
Definition py_lower (v : pyval) : result string :=
  match v with
  | PyUnicode s => Ok (Str.lower s)
  | _ => Raise AttributeError
  end.

(** [e[key]]: a [dict] is looked up, any other JSON value cannot be
    indexed by a string. *)
Definition py_getitem (e : pyval) (key : string) : result pyval :=
  match e with
  | PyDict d => match d !! key with
                | Some v => Ok v
                | None => Raise (KeyError key)
                end
  | _ => Raise TypeError
  end.

(** [for e in v]: the objects an iteration yields. *)
Definition py_iter (v : pyval) : result (list pyval) :=
  match v with
  | PyList l => Ok l
  | PyDict d => Ok (PyUnicode <$> elements (dom d))
  | PyUnicode s => Ok ((fun c => PyUnicode (String c "")) <$> list_ascii_of_string s)
  | _ => Raise TypeError
  end.

(** [[f(e) for e in l]], stopping at the first exception *)
Fixpoint comprehension {A B : Type} (f : A -> result B) (l : list A) : result (list B) :=
  match l with
  | [] => Ok []
  | e :: l' => x ← f e; xs ← comprehension f l'; Ok (x :: xs)
  end.

(** ** ActivitiesJson *)

Inductive value_type : Type :=
| StringType
| UrlType
| IntType
| OneOf (values : list string).

Definition expected_entry_items : list (string * bool * value_type) :=
  [ ("cui_name", false, StringType);
    ("title", true, StringType);
    ("description", true, StringType);
    ("ciuName", false, StringType);
    ("org", true, OneOf ["W3C"; "IETF"; "Ecma"; "Other"]);
    ("group", false, StringType);
    ("url", true, UrlType);
    ("mozBugUrl", false, UrlType);
    ("mozPositionIssue", false, IntType);
    ("mozPosition", true,
       OneOf ["under consideration"; "participating"; "defer"; "harmful"]);
    ("mozPositionDetail", false, StringType) ].

Definition item_name (item : string * bool * value_type) : string := item.1.1.

(** [isinstance(v, t)] for the two types of the table: [unicode] and [int]
    ([bool] is a subclass of [int], [long] is not). *)
Definition isinstance (v : pyval) (t : value_type) : bool :=
  match t, v with
  | StringType, PyUnicode _ => true
  | IntType, (PyInt _ | PyBool _) => true
  | _, _ => false
  end.

(** [str(t)] of the two types *)
Definition type_str (t : value_type) : string :=
  match t with
  | IntType => "<type 'int'>"
  | _ => "<type 'unicode'>"
  end.

(** [d.get(key, default)] *)
Definition dict_get (d : gmap string pyval) (key : string) (default : pyval) : pyval :=
  match d !! key with
  | Some v => v
  | None => default
  end.

Record ActivitiesJson : Type := mkActivities {
  filename : string;
  data : pyval
}.

Section Validation.

(** [str(v)] of an object that is not a text string (the text of a number,
    of a list, of a dictionary): what "%s" substitutes for it. *)
Variable py_str : pyval -> string.

Definition format_s (v : pyval) : string :=
  match v with
  | PyUnicode s => s
  | _ => py_str v
  end.

(** The body of the loop of [validate_entry] for one row of the table.
    The row's [else: raise ValueError] is not reachable: [value_type]
    has the four kinds of the table only. *)
Definition validate_item (entry : gmap string pyval) (title : pyval)
    (errors : list string) (item : string * bool * value_type) : list string :=
  let '(name, required, value_type) := item in
  let entry_value := dict_get entry name PyNone in
  let errors :=
    if required && is_none entry_value
    then errors ++ [format_s title +:+ " doesn't have required member " +:+ name]
    else if is_none entry_value then errors
    else
      match value_type with
      | UrlType =>
          if negb (isinstance entry_value StringType)
          then errors ++ [format_s title +:+ "'s " +:+ name +:+ " isn't a URL string."]
          else errors
      | StringType | IntType =>
          if negb (isinstance entry_value value_type)
          then errors ++ [format_s title +:+ "'s " +:+ name +:+ " isn't a "
                            +:+ type_str value_type]
          else errors
      | OneOf values =>
          if negb (py_in entry_value (PyUnicode <$> values))
          then errors ++ [format_s title +:+ "'s " +:+ name +:+ " isn't one of ["
                            +:+ Str.join ", " values +:+ "]"]
          else errors
      end in
  let extra_items : gset string :=
    dom entry ∖ list_to_set (item_name <$> expected_entry_items) in
  if bool_decide (extra_items ≠ ∅)
  then errors ++ [format_s title +:+ " includes unrecoginsed members: "
                    +:+ Str.join " " (elements extra_items)]
  else errors.

Definition validate_entry (entry : gmap string pyval) (title : pyval) : list string :=
  let title := if truthy title then title else PyUnicode "Entry" in
  fold_left (validate_item entry title) expected_entry_items [].

(** The loop of [validate]; [i] counts the entries seen so far. *)
Fixpoint validate_entries (entries : list pyval) (i : Z) (errors : list string)
    : result (list string) :=
  match entries with
  | [] => Ok errors
  | entry :: rest =>
      let i := i + 1 in
      let errors :=
        match entry with
        | PyDict _ => errors
        | _ => errors ++ ["Entry " +:+ pretty i +:+ " is not a dictionary."]
        end in
      match entry with
      | PyDict d =>
          let title := dict_get d "title" (PyUnicode ("entry " +:+ pretty i)) in
          validate_entries rest i (errors ++ validate_entry d title)
      | _ => Raise AttributeError   (* entry.get on an object that is not a dict *)
      end
  end.

Definition validate (self : ActivitiesJson) : result (list string) :=
  match data self with
  | PyList entries => validate_entries entries 0 []
  | _ => Ok ["Top-level data structure is not a list."]
  end.

(** [append]: the new state of the store, or the exception. *)
Definition append (self : ActivitiesJson) (spec_entry : gmap string pyval)
    : result ActivitiesJson :=
  match validate_entry spec_entry PyNone with
  | [] =>
      match data self with
      | PyList l => Ok (mkActivities (filename self) (PyList (l ++ [PyDict spec_entry])))
      | _ => Raise AttributeError
      end
  | errors => Raise (ValueError (inr errors))
  end.

(** [entry_unique] returns nothing and leaves the store as it is; the
    result holds the store after the call. *)
Definition entry_unique (self : ActivitiesJson) (spec_entry : gmap string pyval)
    : result ActivitiesJson :=
  let entry := PyDict spec_entry in
  title ← py_getitem entry "title";
  t ← py_lower title;
  entries ← py_iter (data self);
  titles ← comprehension
              (fun e => v ← py_getitem e "title"; l ← py_lower v; Ok (Str.strip l))
              entries;
  if bool_decide (Str.strip t ∈ titles)
  then Raise (ValueError (inr [filename self +:+ " already contains " +:+ format_s title]))
  else
    url ← py_getitem entry "url";
    urls ← comprehension (fun e => py_getitem e "url") entries;
    if py_in url urls
    then Raise (ValueError (inr [filename self +:+ " already contains " +:+ format_s url]))
    else Ok self.

End Validation.

(** ** The parsed document

    BeautifulSoup's tree: a text node, or a tag with its attributes and its
    children in document order.  The document itself is the root tag. *)

#[warnings="-register-all"]
Inductive node : Type :=
| Text (s : string)
| Elem (name : string) (attrs : gmap string string) (children : list node).

Module Soup.

Definition is_tag (name : string) (n : node) : bool :=
  match n with
  | Elem m _ _ => String.eqb m name
  | Text _ => false
  end.

Definition attr (key : string) (n : node) : option string :=
  match n with
  | Elem _ attrs _ => attrs !! key
  | Text _ => None
  end.

Definition has_attr (key value : string) (n : node) : bool :=
  bool_decide (attr key n = Some value).

(** The first node below [n], in document order, that satisfies [p],
    together with the siblings that follow it. *)
Fixpoint find_ctx (p : node -> bool) (n : node) {struct n} : option (node * list node) :=
  match n with
  | Text _ => None
  | Elem _ _ children =>
      (fix go (cs : list node) : option (node * list node) :=
         match cs with
         | [] => None
         | c :: rest =>
             if p c then Some (c, rest)
             else match find_ctx p c with
                  | Some r => Some r
                  | None => go rest
                  end
         end) children
  end.

(** [n.find(...)]: the first matching tag below [n], or [None] *)
Definition find (p : node -> bool) (n : node) : option node :=
  fst <$> find_ctx p n.

(** Every node below [n], in document order *)
Fixpoint descendants (n : node) : list node :=
  match n with
  | Text _ => []
  | Elem _ _ children => flat_map (fun c => c :: descendants c) children
  end.

(** [n.select(...)] for a selector that tests one tag at a time *)
Definition select (p : node -> bool) (n : node) : list node :=
  List.filter p (descendants n).

(** [n.string]: the text of a node whose only content is one text,
    possibly wrapped in tags with a single child. *)
Fixpoint string_of (n : node) : option string :=
  match n with
  | Text s => Some s
  | Elem _ _ [c] => string_of c
  | Elem _ _ _ => None
  end.

(** [find_next_sibling(names)] among the siblings [sibs] that follow a tag *)
Definition find_next_sibling (names : list string) (sibs : list node) : option node :=
  List.find (fun n => existsb (fun name => is_tag name n) names) sibs.

(** [n.stripped_strings]: the texts below [n], stripped, the empty ones
    left out. *)
Definition stripped_strings (n : node) : list string :=
  List.filter (fun s => negb (String.eqb s ""))
    (flat_map (fun d => match d with
                        | Text s => [Str.strip s]
                        | Elem _ _ _ => []
                        end) (descendants n)).

(** [needle in s] for texts *)
Fixpoint contains (needle s : string) : bool :=
  Str.startswith needle s
  || match s with
     | String _ s' => contains needle s'
     | EmptyString => false
     end.

(** [re.compile(pattern, re.IGNORECASE).search(s)] for a pattern that is
    literal text, with or without a "^" in front: the three patterns of
    the script are a "^" followed by words. *)
Definition re_search_ignorecase (pattern s : string) : bool :=
  match pattern with
  | String "^" literal => Str.startswith (Str.lower literal) (Str.lower s)
  | _ => contains (Str.lower pattern) (Str.lower s)
  end.

End Soup.

(** [x.attribute] and [x[...]] on the [None] that a failed search returns *)
Definition attribute_of {A : Type} (o : option A) : result A :=
  match o with
  | Some a => Ok a
  | None => Raise AttributeError
  end.

Definition subscript_of {A : Type} (o : option A) : result A :=
  match o with
  | Some a => Ok a
  | None => Raise TypeError
  end.

(** [l[i]] of a list *)
Definition index {A : Type} (l : list A) (i : nat) : result A :=
  match l !! i with
  | Some a => Ok a
  | None => Raise IndexError
  end.

(** ** SpecParser *)

(** [clean_tag(tag)]; a [None] argument has no [stripped_strings]. *)
Definition clean_tag (tag : option node) : result string :=
  t ← attribute_of tag;
  Ok (Str.replace "010" " " (Str.join "" (Soup.stripped_strings t))).

(** ** W3CParser *)

Definition get_link (spec : node) (title : string) : result (option string) :=
  let link : result (option string) :=
    metadata ← attribute_of (Soup.find (Soup.is_tag "dl") spec);
    '(_, siblings) ← attribute_of
       (Soup.find_ctx
          (fun n => Soup.is_tag "dt" n
                    && match Soup.string_of n with
                       | Some s => Soup.re_search_ignorecase title s
                       | None => false
                       end) metadata);
    dd ← attribute_of (Soup.find_next_sibling ["dd"] siblings);
    a ← attribute_of (Soup.find (Soup.is_tag "a") dd);
    Ok (Soup.string_of a) in
  match link with
  | Raise TypeError | Raise AttributeError => Ok None
  | Raise e => Raise e
  | Ok None => Raise AttributeError          (* urlsplit(None) *)
  | Ok (Some link) => url ← clean_url link; Ok (Some url)
  end.

(** A link that [get_link] found and that is not the empty text *)
Definition present (url : option string) : bool :=
  match url with
  | Some u => negb (String.eqb u "")
  | None => false
  end.

Definition is_Some_bool {A : Type} (o : option A) : bool :=
  match o with
  | Some _ => true
  | None => false
  end.

Definition py_of_option (o : option string) : pyval :=
  match o with
  | Some s => PyUnicode s
  | None => PyNone
  end.

Definition exit_on_AttributeError {A : Type} (r : result A) : result A :=
  match r with
  | Raise AttributeError => Raise (SystemExit 1)
  | _ => r
  end.

(** [data['title'] = spec.h1.string], the script exiting when there is no
    [h1] *)
Definition W3C_title (spec : node) : result (option string) :=
  exit_on_AttributeError
    (h1 ← attribute_of (Soup.find (Soup.is_tag "h1") spec);
     Ok (Soup.string_of h1)).

(** [data['description'] = clean_tag(...)], the script exiting when there
    is no abstract or nothing after it *)
Definition W3C_description (spec : node) : result string :=
  exit_on_AttributeError
    (abstract ← attribute_of (Soup.find_ctx (Soup.has_attr "id" "abstract") spec);
     clean_tag (Soup.find_next_sibling ["p"; "div"] abstract.2)).

Definition W3C_data (url org : string) (title : option string) (description : string)
    : gmap string pyval :=
  <["description" := PyUnicode description]>
    (<["title" := py_of_option title]>
       (<["org" := PyUnicode org]>
          (<["url" := PyUnicode url]> ∅))).

(** The test of the selector [meta[http-equiv="Refresh"]] *)
Definition refresh_meta (n : node) : bool :=
  Soup.is_tag "meta" n && Soup.has_attr "http-equiv" "Refresh" n.

Definition W3C_parse (org : string) (spec : node) (url_string : string)
    : result (gmap string pyval) :=
  let refresh := Soup.select refresh_meta spec in
  match refresh with
  | r :: _ =>
      content ← attribute_of (Soup.attr "content" r);
      after ← index (match Str.split1 ";" content with
                     | Some (a, b) => [a; b]
                     | None => [content]
                     end) 1;
      target ← index (match Str.split1 "=" after with
                      | Some (a, b) => [a; b]
                      | None => [after]
                      end) 1;
      Raise (BetterUrl (Str.strip target))
  | [] =>
      this_url ← get_link spec "^This version";
      latest_url ← get_link spec "^Latest version";
      ed_url ← get_link spec "^Editor's draft";
      url ←
        (if present ed_url && negb (bool_decide (ed_url = this_url))
         then Raise (BetterUrl (default "" ed_url))
         else if present latest_url && negb (bool_decide (latest_url = this_url))
         then Raise (BetterUrl (default "" latest_url))
         else if present this_url then Ok (default "" this_url)
         else clean_url url_string);
      title ← W3C_title spec;
      description ← W3C_description spec;
      Ok (W3C_data url org title description)
  end.

(** ** IETFParser *)

(** The test of [find("meta", attrs={"name": name})] *)
Definition named_meta (name : string) (n : node) : bool :=
  Soup.is_tag "meta" n && Soup.has_attr "name" name n.

(** [spec.head.find("meta", attrs={"name": name})['content'].replace("\n", " ")] *)
Definition meta_content (spec : node) (name : string) : result string :=
  head ← attribute_of (Soup.find (Soup.is_tag "head") spec);
  meta ← subscript_of (Soup.find (named_meta name) head);
  match Soup.attr "content" meta with
  | Some c => Ok (Str.replace "010" " " c)
  | None => Raise (KeyError "content")
  end.

Fixpoint get_meta (spec : node) (names : list string) : result (option string) :=
  match names with
  | [] => Ok None
  | name :: names =>
      match meta_content spec name with
      | Ok c => Ok (Some c)
      | Raise TypeError | Raise AttributeError => get_meta spec names
      | Raise e => Raise e
      end
  end.

Definition parse_draft_name (instr : string) : string * option string :=
  match Str.rsplit1 "-" instr with
  | None => (instr, None)
  | Some (draft_name, last_symbol) =>
      if Str.isdigit last_symbol && (String.length last_symbol =? 2)%nat
      then (draft_name, Some last_symbol)
      else (instr, None)
  end.

Definition html_url (doc_name : string) : string :=
  let path := Str.join "/" ["html"; doc_name] in
  urlunsplit (mkSplit "https" "tools.ietf.org" path "" "").

(** [l[-1]] and [l.pop()] *)
Definition pop_if_last_empty (l : list string) : list string :=
  match List.last l "x" with
  | "" => removelast l
  | _ => l
  end.

Definition path_components_of (url : SplitResult) : list string :=
  pop_if_last_empty (Str.split "/" (path url)).

(** The test of the identifier of an RFC, in the "html" branch of [parse] *)
Definition rfc_redirect (url_string identifier : string) : result () :=
  if Str.startswith "urn:ietf:rfc" (Str.lower identifier) then
    number ← index (match Str.rsplit1 ":" identifier with
                    | Some (a, b) => [a; b]
                    | None => [identifier]
                    end) 1;
    let new_url := html_url ("rfc" +:+ number) in
    here ← clean_url url_string;
    there ← clean_url new_url;
    if negb (String.eqb here there)
    then Raise (BetterUrl (html_url ("rfc" +:+ number)))
    else Ok ()
  else Ok ().

(** The first part of [parse]: the chain of tests on the host and the path,
    which ends in a [BetterUrl], a [FetchError], or lets the parser go on. *)
Definition IETF_redirect (spec : node) (url_string : string) (url : SplitResult)
    : result () :=
  let path_components := path_components_of url in
  if String.eqb (Str.lower (netloc url)) "tools.ietf.org" then
     first ← index path_components 1;
     if bool_decide (first ∈ ["html"]) then
       identifier ← get_meta spec ["DC.Identifier"];
       identifier ← attribute_of identifier;
       _ ← rfc_redirect url_string identifier;
       last ← index path_components (length path_components - 1);
       let '(draft_name, draft_number) := parse_draft_name last in
       if present draft_number then Raise (BetterUrl (html_url draft_name)) else Ok ()
     else if bool_decide (first ∈ ["id"; "pdf"]) then
       doc ← index path_components 2;
       Raise (BetterUrl (html_url doc))
     else Raise FetchError
   else
     www_id ← (if String.eqb (Str.lower (netloc url)) "www.ietf.org"
               then first ← index path_components 1; Ok (String.eqb first "id")
               else Ok false);
     if www_id : bool then
       first ← index path_components 1;
       if bool_decide (first ∈ ["id"; "pdf"]) then
         doc ← index path_components 2;
         let draft_name := match Str.rsplit1 "." doc with
                           | Some (a, _) => a
                           | None => doc
                           end in
         let draft_name := (parse_draft_name draft_name).1 in
         Raise (BetterUrl (html_url draft_name))
       else Raise FetchError
     else if String.eqb (Str.lower (netloc url)) "datatracker.ietf.org" then
       first ← index path_components 1;
       if String.eqb first "doc" then
         doc ← index path_components 2;
         Raise (BetterUrl (html_url doc))
       else Raise FetchError
     else Ok ().

(** The second part of [parse]: the record *)
Definition IETF_data (spec : node) (url_string : string) : result (gmap string pyval) :=
  dc_title ← get_meta spec ["DC.Title"];
  title ←
    (if present dc_title then Ok dc_title
     else
       head ← attribute_of (Soup.find (Soup.is_tag "head") spec);
       t ← attribute_of (Soup.find (Soup.is_tag "title") head);
       Ok (Soup.string_of t));
  description ← get_meta spec ["description"; "dcterms.abstract"; "DC.Description.Abstract"];
  let description := if present description then default "" description else "" in
  url ← clean_url url_string;
  Ok (<["url" := PyUnicode url]>
        (<["org" := PyUnicode "IETF"]>
           (<["description" := PyUnicode description]>
              (<["title" := py_of_option title]> ∅)))).

Definition IETF_parse (spec : node) (url_string : string) : result (gmap string pyval) :=
  url ← urlsplit url_string;
  _ ← IETF_redirect spec url_string url;
  IETF_data spec url_string.

(** ** SpecEntry: the choice of the parser and the fetch loop *)

Inductive parser : Type :=
| W3CParser
| WHATWGParser
| IETFParser.

Definition parse (p : parser) (spec : node) (url_string : string)
    : result (gmap string pyval) :=
  match p with
  | W3CParser => W3C_parse "W3C" spec url_string
  | WHATWGParser => W3C_parse "WHATWG" spec url_string
  | IETFParser => IETF_parse spec url_string
  end.

Definition URL2ORG : gmap string parser :=
  list_to_map
    [ ("www.w3.org", W3CParser); ("w3c.github.io", W3CParser);
      ("wicg.github.io", W3CParser); ("dev.w3.org", W3CParser);
      ("dvcs.w3.org", W3CParser); ("drafts.csswg.org", W3CParser);
      ("w3ctag.github.io", W3CParser); ("datatracker.ietf.org", IETFParser);
      ("www.ietf.org", IETFParser); ("tools.ietf.org", IETFParser);
      ("http2.github.io", IETFParser); ("httpwg.github.io", IETFParser);
      ("httpwg.org", IETFParser) ].

Definition figure_out_org (orig_url : string) : result parser :=
  link ← urlsplit orig_url;
  let host := Str.lower (netloc link) in
  match URL2ORG !! host with
  | Some p => Ok p
  | None =>
      if Str.endswith ".spec.whatwg.org" host then Ok WHATWGParser
      else Raise (SystemExit 1)
  end.

Section Fetch.

(** The web: what [requests.get] answers for a URL, as the status code
    and the document BeautifulSoup builds from the body. *)
Variable requests_get : string -> Z * node.

(** [fetch_spec_data] calls itself once per [BetterUrl], without a bound;
    [fuel] bounds the number of fetches, and [None] is the answer of a
    run that needs more. *)
Fixpoint fetch_spec_data (fuel : nat) (p : parser) (url : string)
    : option (result (gmap string pyval)) :=
  match fuel with
  | O => None
  | S fuel =>
      let '(status_code, soup) := requests_get url in
      if negb (status_code =? 200) then Some (Raise FetchError)
      else
        match parse p soup url with
        | Raise (BetterUrl new_url) => fetch_spec_data fuel p new_url
        | Raise FetchError => Some (Raise UnboundLocalError)
        | r => Some r
        end
  end.

Definition SpecEntry_data : gmap string pyval :=
  list_to_map
    [ ("title", PyNone); ("description", PyNone); ("ciuName", PyNone);
      ("org", PyNone); ("url", PyNone); ("mozBugUrl", PyNone);
      ("mozPositionIssue", PyNone);
      ("mozPosition", PyUnicode "under consideration");
      ("mozPositionDetail", PyNone) ].

(** [SpecEntry(spec_url)]: the [data] of the new entry *)
Definition SpecEntry (fuel : nat) (spec_url : string)
    : option (result (gmap string pyval)) :=
  match figure_out_org spec_url with
  | Raise e => Some (Raise e)
  | Ok p =>
      match fetch_spec_data fuel p spec_url with
      | None => None
      | Some (Raise FetchError) => Some (Raise (SystemExit 1))
      | Some (Raise e) => Some (Raise e)
      | Some (Ok new_entry) => Some (Ok (new_entry ∪ SpecEntry_data))
      end
  end.

End Fetch.

(** ** SpecEntry.create_issue, load, save and the main program *)

(** What the script does to the world outside: a POST to the issues of the
    repository, with the two parts of its basic authentication and the
    issue that [json.dumps] writes into its body; a [json.dump] of the data
    into a file; a [print] of an entry.  The lines written to the standard
    error are left out. *)
Inductive event : Type :=
| Posted (auth : string * string) (issue : gmap string pyval)
| Saved (filename : string) (data : pyval)
| Printed (data : gmap string pyval).

(** [not v] of what [os.environ.get] returns *)
Definition env_missing (v : option string) : bool :=
  match v with
  | Some (String _ _) => false
  | _ => true
  end.

Section Issue.

Variable py_str : pyval -> string.

(** The environment, and GitHub: what [requests.post] answers to an
    authenticated issue, as the status code and what [res.json()] gives. *)
Variable environ : gmap string string.
Variable requests_post : string * string -> gmap string pyval -> Z * result pyval.

(** The dictionary [issue]: the title, and the body that [format] fills in
    from the members of [self.data] *)
Definition issue_of (data : gmap string pyval) : result (gmap string pyval) :=
  issue_title ← py_getitem (PyDict data) "title";
  title ← py_getitem (PyDict data) "title";
  url ← py_getitem (PyDict data) "url";
  ciuName ← py_getitem (PyDict data) "ciuName";
  mozBugUrl ← py_getitem (PyDict data) "mozBugUrl";
  Ok (<["title" := issue_title]>
        (<["body" :=
             PyUnicode
               ("* Specification Title: " +:+ format_s py_str title +:+ String "010"
                ("* Specification URL: " +:+ format_s py_str url +:+ String "010"
                 ("* Caniuse.com URL (optional): " +:+ format_s py_str ciuName +:+ String "010"
                  ("* Bugzilla URL (optional): " +:+ format_s py_str mozBugUrl
                   +:+ String "010" ""))))]> ∅)).

(** [create_issue]: the [data] of the entry after the call, or the
    exception, and what was sent. *)
Definition create_issue (data : gmap string pyval)
    : result (gmap string pyval) * list event :=
  match issue_of data with
  | Raise e => (Raise e, [])
  | Ok issue =>
      let gh_user := environ !! "GH_USER" in
      let gh_token := environ !! "GH_TOKEN" in
      if env_missing gh_user || env_missing gh_token then (Ok data, [])
      else
        let auth := (default "" gh_token, default "" gh_token) in
        let '(status_code, json) := requests_post auth issue in
        if negb (status_code =? 201) then (Raise (SystemExit 1), [Posted auth issue])
        else
          match j ← json; py_getitem j "number" with
          | Ok issue_num => (Ok (<["mozPositionIssue" := issue_num]> data), [Posted auth issue])
          | Raise e => (Raise e, [Posted auth issue])
          end
  end.

End Issue.

(** [ActivitiesJson(filename)] with a file name: [load], where [file] is
    what [json.load] reads, or [None] when the file cannot be opened or
    does not hold JSON. *)
Definition load (filename : string) (file : option pyval) : result ActivitiesJson :=
  match file with
  | Some data => Ok (mkActivities filename data)
  | None => Raise (SystemExit 1)
  end.

(** [save], where [writable] tells whether the file can be written *)
Definition save (writable : bool) (self : ActivitiesJson) : result () * list event :=
  if writable then (Ok (), [Saved (filename self) (data self)])
  else (Raise (SystemExit 1), []).

Definition usage {A : Type} : result A := Raise (SystemExit 1).

(** The world of a run of the script *)
Record world : Type := mkWorld {
  argv : list string;
  activities_json : option pyval;
  writable : bool;
  environ : gmap string string;
  requests_get : string -> Z * node;
  requests_post : string * string -> gmap string pyval -> Z * result pyval
}.

(** How a run ends: [sys.argv[2].decode('ascii')] raises
    [UnicodeDecodeError] on a byte outside ASCII. *)
Inductive ending : Type :=
| Returned
| Raised (e : exn)
| RaisedUnicodeDecodeError.

Definition is_ascii (s : string) : bool :=
  Str.all (fun c => (N_of_ascii c <? 128)%N) s.

Section Main.

Variable py_str : pyval -> string.

(** The block of the verbs 'validate' and 'add' *)
Definition checked_activities (w : world) : result ActivitiesJson :=
  ACTIVITIES ← load "activities.json" (activities_json w);
  ERRORS ← validate py_str ACTIVITIES;
  match ERRORS with
  | [] => Ok ACTIVITIES
  | _ => Raise (SystemExit 1)
  end.

(** The end of the block of the verb 'add', from [entry_unique] on;
    [except ValueError] reads [unique_errors[0][0]]. *)
Definition add_entry (w : world) (ACTIVITIES : ActivitiesJson) (ENTRY : gmap string pyval)
    : ending * list event :=
  match entry_unique py_str ACTIVITIES ENTRY with
  | Raise (ValueError (inr (_ :: _))) | Raise (ValueError (inl (String _ _))) =>
      (Raised (SystemExit 1), [])
  | Raise (ValueError _) => (Raised IndexError, [])
  | Raise e => (Raised e, [])
  | Ok ACTIVITIES =>
      match create_issue py_str (environ w) (requests_post w) ENTRY with
      | (Raise e, events) => (Raised e, events)
      | (Ok ENTRY, events) =>
          match append py_str ACTIVITIES ENTRY with
          | Raise e => (Raised e, events)
          | Ok ACTIVITIES =>
              match save (writable w) ACTIVITIES with
              | (Raise e, saved) => (Raised e, events ++ saved)
              | (Ok _, saved) => (Returned, events ++ saved)
              end
          end
      end
  end.

(** The block of the verbs 'format' and 'add' up to the entry, followed by
    what the verb does with it *)
Definition with_entry (fuel : nat) (w : world)
    (k : gmap string pyval -> ending * list event) : option (ending * list event) :=
  match argv w !! 2%nat with
  | None => Some (Raised (SystemExit 1), [])
  | Some arg =>
      if negb (is_ascii arg) then Some (RaisedUnicodeDecodeError, [])
      else
        match SpecEntry (requests_get w) fuel arg with
        | None => None
        | Some (Raise e) => Some (Raised e, [])
        | Some (Ok ENTRY) => Some (k ENTRY)
        end
  end.

(** The main program, its two blocks written out for each of the three
    verbs; [None] is the answer of a run whose fetches need more [fuel]. *)
Definition main (fuel : nat) (w : world) : option (ending * list event) :=
  match argv w !! 1%nat with
  | None => Some (Raised (SystemExit 1), [])
  | Some VERB =>
      if String.eqb VERB "validate" then
        match checked_activities w with
        | Raise e => Some (Raised e, [])
        | Ok _ => Some (Returned, [])
        end
      else if String.eqb VERB "format" then
        with_entry fuel w (fun ENTRY => (Returned, [Printed ENTRY]))
      else if String.eqb VERB "add" then
        match checked_activities w with
        | Raise e => Some (Raised e, [])
        | Ok ACTIVITIES => with_entry fuel w (add_entry w ACTIVITIES)
        end
      else Some (Raised (SystemExit 1), [])
  end.

End Main.

(** * Properties *)

Lemma bind_Ok_inv {A B : Type} (r : result A) (k : A -> result B) (b : B) :
  r ≫= k = Ok b -> exists a, r = Ok a /\ k a = Ok b.
Proof. destruct r as [a|e]; [|discriminate]. intros H. now exists a. Qed.

(** ** Strings *)

#[local] Arguments String.append : simpl nomatch.

Module StrFacts.
Import Str.

Ltac each_char c := destruct c as [[] [] [] [] [] [] [] []]; try reflexivity.

Lemma app_nil_r (s : string) : s +:+ "" = s.
Proof. induction s as [|c s IH]; simpl; [reflexivity | now rewrite IH]. Qed.

Lemma app_assoc (a b c : string) : (a +:+ b) +:+ c = a +:+ (b +:+ c).
Proof. induction a as [|x a IH]; simpl; [reflexivity | now rewrite IH]. Qed.

Lemma length_app (a b : string) :
  String.length (a +:+ b) = (String.length a + String.length b)%nat.
Proof. induction a as [|x a IH]; simpl; [reflexivity | now rewrite IH]. Qed.

(** *** lower *)

Lemma lower_char_idem (c : ascii) : lower_char (lower_char c) = lower_char c.
Proof. each_char c. Qed.

Lemma lower_idem (s : string) : lower (lower s) = lower s.
Proof.
  induction s as [|c s IH]; simpl; [reflexivity|].
  now rewrite lower_char_idem, IH.
Qed.

(** A character that is not a letter is met in [lower s] where it is
    met in [s]. *)
Definition caseless (d : ascii) : Prop :=
  forall c, Ascii.eqb d (lower_char c) = Ascii.eqb d c.

Lemma caseless_colon : caseless ":".
Proof. intros c. each_char c. Qed.
Lemma caseless_slash : caseless "/".
Proof. intros c. each_char c. Qed.
Lemma caseless_question : caseless "?".
Proof. intros c. each_char c. Qed.
Lemma caseless_hash : caseless "#".
Proof. intros c. each_char c. Qed.
Lemma caseless_open : caseless "[".
Proof. intros c. each_char c. Qed.
Lemma caseless_close : caseless "]".
Proof. intros c. each_char c. Qed.

Lemma mem_lower (d : ascii) (s : string) : caseless d -> mem d (lower s) = mem d s.
Proof.
  intros Hd. induction s as [|c s IH]; simpl; [reflexivity|].
  now rewrite Hd, IH.
Qed.

Lemma length_lower (s : string) : String.length (lower s) = String.length s.
Proof. induction s as [|c s IH]; simpl; [reflexivity | now rewrite IH]. Qed.

(** *** find, take and drop *)

Lemma find_None_mem (c : ascii) (s : string) : find c s = None <-> mem c s = false.
Proof.
  induction s as [|d s IH]; simpl; [tauto|].
  destruct (Ascii.eqb c d); [split; discriminate|].
  destruct (find c s); simpl in *; [split; [discriminate|]|tauto].
  intros H. apply IH in H. discriminate.
Qed.

Lemma find_app_fresh (c : ascii) (a b : string) :
  mem c a = false -> find c (a +:+ String c b) = Some (String.length a).
Proof.
  induction a as [|d a IH]; simpl.
  - intros _. now rewrite Ascii.eqb_refl.
  - destruct (Ascii.eqb c d); [discriminate|].
    intros H. now rewrite IH.
Qed.

Lemma take_app_length (a b : string) : take (String.length a) (a +:+ b) = a.
Proof. induction a as [|d a IH]; simpl; [now destruct b | now rewrite IH]. Qed.

Lemma drop_app_length (a b : string) : drop (String.length a) (a +:+ b) = b.
Proof. induction a as [|d a IH]; simpl; [now destruct b | exact IH]. Qed.

Lemma take_drop (n : nat) (s : string) : take n s +:+ drop n s = s.
Proof.
  revert s; induction n as [|n IH]; intros [|c s]; simpl; try reflexivity.
  now rewrite IH.
Qed.

Lemma drop_drop (n m : nat) (s : string) : drop n (drop m s) = drop (m + n) s.
Proof.
  revert s; induction m as [|m IH]; intros s; simpl; [reflexivity|].
  destruct s as [|c s]; [now destruct n | apply IH].
Qed.

Lemma length_drop (n : nat) (s : string) :
  String.length (drop n s) = (String.length s - n)%nat.
Proof.
  revert s; induction n as [|n IH]; intros [|c s]; simpl; try reflexivity.
  apply IH.
Qed.

Lemma find_take_fresh (c : ascii) (s : string) (i : nat) :
  find c s = Some i -> mem c (take i s) = false.
Proof.
  revert i; induction s as [|d s IH]; simpl; intros i; [discriminate|].
  destruct (Ascii.eqb c d) eqn:E.
  - intros [= <-]. reflexivity.
  - destruct (find c s) as [j|]; simpl; [|discriminate].
    intros [= <-]. simpl. rewrite E. now apply IH.
Qed.

(** *** all *)

Lemma all_impl (p q : ascii -> bool) (s : string) :
  (forall c, p c = true -> q c = true) -> all p s = true -> all q s = true.
Proof.
  intros Hpq. induction s as [|c s IH]; simpl; [reflexivity|].
  intros [Hc Hs]%andb_prop. rewrite (Hpq _ Hc). now apply IH.
Qed.

Lemma all_app (p : ascii -> bool) (a b : string) :
  all p (a +:+ b) = all p a && all p b.
Proof.
  induction a as [|c a IH]; simpl; [reflexivity|].
  now rewrite IH, andb_assoc.
Qed.

(** *** split1 *)

Lemma split1_None_mem (c : ascii) (s : string) : split1 c s = None <-> mem c s = false.
Proof.
  induction s as [|d s IH]; simpl; [tauto|].
  destruct (Ascii.eqb c d); [split; discriminate|].
  destruct (split1 c s) as [[a b]|]; [split; [discriminate|]|tauto].
  intros H. apply IH in H. discriminate.
Qed.

Lemma split1_Some (c : ascii) (s a b : string) :
  split1 c s = Some (a, b) -> s = a +:+ String c b /\ mem c a = false.
Proof.
  revert a; induction s as [|d s IH]; simpl; intros a; [discriminate|].
  destruct (Ascii.eqb_spec c d) as [->|Hne].
  - intros [= <- <-]. now split.
  - destruct (split1 c s) as [[a' b']|]; [|discriminate].
    intros [= <- <-]. destruct (IH a' eq_refl) as [-> Hm]. split; [reflexivity|].
    simpl. destruct (Ascii.eqb_spec c d); [contradiction | exact Hm].
Qed.

(** *** last and drop_last *)

Lemma last_empty (s : string) : last s = Raise IndexError <-> s = "".
Proof.
  induction s as [|c s IH]; simpl; [tauto|].
  destruct s as [|d s]; [split; discriminate|].
  rewrite IH. split; discriminate.
Qed.

Lemma last_defined (s : string) : s <> "" -> exists c, last s = Ok c.
Proof.
  induction s as [|c s IH]; [contradiction|]. intros _.
  destruct s as [|d s]; [now exists c|].
  destruct IH as [x Hx]; [discriminate|]. exists x. exact Hx.
Qed.

Lemma last_snoc (s : string) (c : ascii) : last (s +:+ String c "") = Ok c.
Proof.
  induction s as [|d s IH]; simpl; [reflexivity|].
  destruct (s +:+ String c "") eqn:E; [|exact IH].
  destruct s; discriminate.
Qed.

Lemma drop_last_snoc (s : string) (c : ascii) : drop_last (s +:+ String c "") = s.
Proof.
  induction s as [|d s IH]; simpl; [reflexivity|].
  destruct (s +:+ String c "") eqn:E; [destruct s; discriminate|].
  now rewrite IH.
Qed.

Lemma last_drop_last (s : string) (c : ascii) :
  last s = Ok c -> s = drop_last s +:+ String c "".
Proof.
  induction s as [|d s IH]; simpl; [discriminate|].
  destruct s as [|e s]; [now intros [= ->]|].
  intros H. simpl. f_equal. now apply IH.
Qed.

Lemma mem_app (c : ascii) (a b : string) : mem c (a +:+ b) = mem c a || mem c b.
Proof.
  induction a as [|d a IH]; simpl; [reflexivity|].
  destruct (Ascii.eqb c d); [reflexivity | exact IH].
Qed.

End StrFacts.

(** ** urlsplit *)

Module UrlFacts.
Import Str StrFacts.

Definition is_delim (c : ascii) : bool :=
  Ascii.eqb "/" c || Ascii.eqb "?" c || Ascii.eqb "#" c.

(** The text before the first delimiter, and the text from it on. *)
Fixpoint break_at_delim (s : string) : string * string :=
  match s with
  | EmptyString => (EmptyString, EmptyString)
  | String c s' =>
      if is_delim c then (EmptyString, s)
      else let '(a, b) := break_at_delim s' in (String c a, b)
  end.

Definition pick (t : string) (delim : nat) (c : ascii) : nat :=
  match find c t with
  | Some w => Nat.min delim w
  | None => delim
  end.

Definition first_delim (t : string) : nat :=
  pick t (pick t (pick t (String.length t) "/") "?") "#".

Lemma pick_hit (c d : ascii) (t : string) (x : nat) :
  Ascii.eqb c d = true -> pick (String d t) x c = O.
Proof. intros E. unfold pick. simpl. rewrite E. apply Nat.min_0_r. Qed.

Lemma pick_miss (c d : ascii) (t : string) (x : nat) :
  Ascii.eqb c d = false -> pick (String d t) (S x) c = S (pick t x c).
Proof. intros E. unfold pick. simpl. rewrite E. now destruct (find c t). Qed.

Lemma pick_zero (c : ascii) (t : string) : pick t O c = O.
Proof. unfold pick. now destruct (find c t). Qed.

Lemma first_delim_break (t : string) :
  (take (first_delim t) t, drop (first_delim t) t) = break_at_delim t.
Proof.
  induction t as [|c t IH]; [reflexivity|].
  unfold first_delim in *. simpl break_at_delim. unfold is_delim.
  destruct (Ascii.eqb "/" c) eqn:E1.
  { now rewrite (pick_hit _ _ _ _ E1), !pick_zero. }
  simpl String.length. rewrite (pick_miss _ _ _ _ E1).
  destruct (Ascii.eqb "?" c) eqn:E2.
  { now rewrite (pick_hit _ _ _ _ E2), !pick_zero. }
  rewrite (pick_miss _ _ _ _ E2).
  destruct (Ascii.eqb "#" c) eqn:E3.
  { now rewrite (pick_hit _ _ _ _ E3). }
  rewrite (pick_miss _ _ _ _ E3). simpl.
  destruct (break_at_delim t) as [a b]. now injection IH as -> ->.
Qed.

Lemma pick_from (url : string) (start x : nat) (c : ascii) :
  (start <= String.length url)%nat ->
  match find_from c start url with
  | Some wdelim => Nat.min (start + x) wdelim
  | None => (start + x)%nat
  end = (start + pick (drop start url) x c)%nat.
Proof.
  intros Hle. unfold find_from, pick.
  destruct (Nat.ltb_spec (String.length url) start) as [?|_]; [lia|].
  destruct (find c (drop start url)); simpl; [apply Nat.add_min_distr_l | reflexivity].
Qed.

Lemma splitnetloc_break (url : string) (start : nat) :
  (start <= String.length url)%nat ->
  _splitnetloc url start = break_at_delim (drop start url).
Proof.
  intros Hle. rewrite <- first_delim_break.
  unfold _splitnetloc, first_delim, slice. simpl fold_left.
  replace (String.length url) with (start + String.length (drop start url))%nat
    by (rewrite length_drop; lia).
  rewrite !(pick_from _ _ _ _ Hle).
  set (d := pick _ _ "#").
  replace (start + d - start)%nat with d by lia.
  now rewrite <- drop_drop.
Qed.

Lemma break_at_delim_spec (s a b : string) :
  break_at_delim s = (a, b) ->
  s = a +:+ b /\ all (fun c => negb (is_delim c)) a = true.
Proof.
  revert a; induction s as [|c s IH]; simpl; intros a.
  - now intros [= <- <-].
  - destruct (is_delim c) eqn:E.
    + now intros [= <- <-].
    + destruct (break_at_delim s) as [a' b'].
      intros [= <- <-]. destruct (IH a' eq_refl) as [-> Ha].
      simpl. now rewrite E, Ha.
Qed.

Lemma break_at_delim_app (n p : string) :
  all (fun c => negb (is_delim c)) n = true ->
  startswith "/" p = true ->
  break_at_delim (n +:+ p) = (n, p).
Proof.
  intros Hn Hp. induction n as [|c n IH]; simpl.
  - destruct p as [|d p]; [discriminate|]. cbn [startswith] in Hp.
    destruct (Ascii.eqb_spec "/" d) as [<-|]; [reflexivity | discriminate].
  - simpl in Hn. apply andb_prop in Hn as [Hc Hn].
    apply negb_true_iff in Hc. rewrite Hc, (IH Hn). reflexivity.
Qed.

(** *** What [urlsplit] returns *)

Definition valid_scheme (s : string) : bool :=
  all (fun c => mem c scheme_chars && negb (is_upper c)) s.

Definition unbalanced (n : string) : bool :=
  (mem "[" n && negb (mem "]" n)) || (mem "]" n && negb (mem "[" n)).

Definition valid_netloc (n : string) : bool :=
  all (fun c => negb (is_delim c)) n && negb (unbalanced n).

Definition valid_path (p : string) : bool :=
  negb (mem "#" p) && negb (mem "?" p).

Lemma lower_scheme_char (c : ascii) :
  mem c scheme_chars = true ->
  mem (lower_char c) scheme_chars && negb (is_upper (lower_char c)) = true.
Proof. destruct c as [[] [] [] [] [] [] [] []]; intros H; try reflexivity; discriminate H. Qed.

Lemma valid_scheme_lower (s : string) :
  all (fun c => mem c scheme_chars) s = true -> valid_scheme (lower s) = true.
Proof.
  unfold valid_scheme. induction s as [|c s IH]; cbn [all lower]; [reflexivity|].
  intros [Hc Hs]%andb_prop. rewrite (lower_scheme_char _ Hc). now apply IH.
Qed.

Lemma valid_scheme_fixed (s : string) : valid_scheme s = true -> lower s = s.
Proof.
  unfold valid_scheme. induction s as [|c s IH]; cbn [all lower]; [reflexivity|].
  intros [[_ Hc]%andb_prop Hs]%andb_prop. apply negb_true_iff in Hc.
  unfold lower_char. rewrite Hc. now rewrite (IH Hs).
Qed.

Lemma scheme_char_not_colon (c : ascii) :
  mem c scheme_chars = true -> Ascii.eqb ":" c = false.
Proof. destruct c as [[] [] [] [] [] [] [] []]; intros H; try reflexivity; discriminate H. Qed.

Lemma valid_scheme_colon (s : string) : valid_scheme s = true -> mem ":" s = false.
Proof.
  unfold valid_scheme. induction s as [|c s IH]; cbn [all mem]; [reflexivity|].
  intros [[Hc _]%andb_prop Hs]%andb_prop.
  rewrite (scheme_char_not_colon _ Hc). now apply IH.
Qed.

Lemma valid_scheme_chars (s : string) :
  valid_scheme s = true -> all (fun c => mem c scheme_chars) s = true.
Proof. apply all_impl. now intros c [H _]%andb_prop. Qed.

Lemma valid_netloc_lower (n : string) :
  valid_netloc n = true -> valid_netloc (lower n) = true.
Proof.
  unfold valid_netloc, unbalanced.
  rewrite !(mem_lower "[" n caseless_open), !(mem_lower "]" n caseless_close).
  intros [Hn ->]%andb_prop. rewrite andb_true_r.
  clear -Hn. induction n as [|c n IH]; cbn [all lower] in *; [reflexivity|].
  apply andb_prop in Hn as [Hc Hn]. rewrite (IH Hn), andb_true_r.
  unfold is_delim in *.
  now rewrite caseless_slash, caseless_question, caseless_hash.
Qed.

Lemma split_after_scheme_wf (s url : string) (link : SplitResult) :
  split_after_scheme s url = Ok link ->
  scheme link = s /\ valid_netloc (netloc link) = true /\ valid_path (path link) = true.
Proof.
  unfold split_after_scheme.
  set (first := if String.eqb (take 2 url) "//" then _ else _).
  assert (Hfirst : forall n rest, first = Ok (n, rest) -> valid_netloc n = true).
  { subst first. intros n rest.
    destruct (String.eqb (take 2 url) "//") eqn:E2; [|now intros [= <- <-]].
    assert (Hlen : (2 <= String.length url)%nat).
    { destruct url as [|? [|? ?]]; cbn in E2 |- *; try discriminate; [|lia].
      now destruct (Ascii.eqb _ _). }
    rewrite (splitnetloc_break _ _ Hlen).
    destruct (break_at_delim (drop 2 url)) as [a b] eqn:Eb.
    apply break_at_delim_spec in Eb as [_ Ha].
    fold (unbalanced a). destruct (unbalanced a) eqn:Eu; [discriminate|].
    intros [= <- <-]. unfold valid_netloc. now rewrite Ha, Eu. }
  destruct first as [[n rest]|e]; [|discriminate]. simpl.
  specialize (Hfirst n rest eq_refl).
  assert (Hpath : valid_path
            (match split1 "?" (match split1 "#" rest with
                               | Some (u, _) => u
                               | None => rest
                               end) with
             | Some (u, _) => u
             | None => match split1 "#" rest with
                       | Some (u, _) => u
                       | None => rest
                       end
             end) = true).
  { set (u1 := match split1 "#" rest with Some (u, _) => u | None => rest end).
    assert (H1 : mem "#" u1 = false).
    { subst u1. destruct (split1 "#" rest) as [[u f]|] eqn:E.
      - now apply split1_Some in E.
      - now apply split1_None_mem. }
    unfold valid_path.
    destruct (split1 "?" u1) as [[u q]|] eqn:E.
    - apply split1_Some in E as [-> Hq].
      rewrite mem_app in H1. apply orb_false_elim in H1 as [-> _]. now rewrite Hq.
    - apply split1_None_mem in E. now rewrite H1, E. }
  destruct (split1 "#" rest) as [[u f]|]; destruct (split1 "?" _) as [[u' q]|];
    intros [= <-]; simpl; auto.
Qed.

Lemma urlsplit_wf (url : string) (link : SplitResult) :
  urlsplit url = Ok link ->
  valid_scheme (scheme link) = true
  /\ valid_netloc (netloc link) = true
  /\ valid_path (path link) = true.
Proof.
  unfold urlsplit. intros H.
  assert (Hgo : forall s rest, valid_scheme s = true ->
             split_after_scheme s rest = Ok link ->
             valid_scheme (scheme link) = true
             /\ valid_netloc (netloc link) = true
             /\ valid_path (path link) = true).
  { intros s rest Hs [-> ?]%split_after_scheme_wf. auto. }
  destruct (find ":" url) as [[|i]|]; try (now apply (Hgo "" url)).
  destruct (String.eqb_spec (take (S i) url) "http") as [->|_];
    [now apply (Hgo (lower "http") _ eq_refl H)|].
  destruct (all _ (take (S i) url)) eqn:Ea; [|now apply (Hgo "" url)].
  destruct (_ || _); [|now apply (Hgo "" url)].
  eapply Hgo; [|exact H]. now apply valid_scheme_lower.
Qed.

(** *** Splitting what [clean_url] builds *)

Lemma urlsplit_rebuilt (s n p : string) :
  s <> "" ->
  valid_scheme s = true -> valid_netloc n = true -> valid_path p = true ->
  startswith "/" p = true ->
  urlsplit (s +:+ "://" +:+ n +:+ p) = Ok (mkSplit s n p "" "").
Proof.
  intros Hne Hs Hn Hp Hslash.
  assert (Hafter : split_after_scheme s ("//" +:+ n +:+ p) = Ok (mkSplit s n p "" "")).
  { unfold split_after_scheme. simpl (take 2 _). simpl (String.eqb _ _).
    rewrite splitnetloc_break by (simpl; lia). simpl (drop 2 _).
    apply andb_prop in Hn as [Hn Hu]. apply negb_true_iff in Hu.
    rewrite (break_at_delim_app _ _ Hn Hslash).
    fold (unbalanced n). rewrite Hu. simpl.
    apply andb_prop in Hp as [Hf Hq].
    apply negb_true_iff, split1_None_mem in Hf.
    apply negb_true_iff, split1_None_mem in Hq.
    now rewrite Hf, Hq. }
  unfold urlsplit.
  change (s +:+ "://" +:+ n +:+ p) with (s +:+ String ":" ("//" +:+ n +:+ p)).
  rewrite (find_app_fresh _ _ _ (valid_scheme_colon _ Hs)).
  destruct (String.length s) as [|i] eqn:El; [destruct s; [contradiction | discriminate]|].
  rewrite <- El. rewrite take_app_length.
  replace (drop (String.length s + 1) (s +:+ String ":" ("//" +:+ n +:+ p)))
    with ("//" +:+ n +:+ p)
    by (rewrite <- drop_drop, drop_app_length; reflexivity).
  rewrite (valid_scheme_fixed _ Hs), (valid_scheme_chars _ Hs).
  destruct (String.eqb s "http"); exact Hafter.
Qed.

End UrlFacts.

(** ** clean_url *)

Module CleanUrlFacts.
Import Str StrFacts UrlFacts.

Lemma endswith_slash_last (s : string) (c : ascii) :
  last s = Ok c -> endswith "/" s = Ascii.eqb c "/".
Proof.
  intros H. apply last_drop_last in H. unfold endswith. rewrite H at 1 2 3.
  rewrite length_app. cbn [String.length].
  replace (String.length (drop_last s) + 1 - 1)%nat with (String.length (drop_last s)) by lia.
  rewrite drop_app_length.
  destruct (Nat.leb_spec 1 (String.length (drop_last s) + 1)) as [_|?]; [|lia].
  cbn [String.eqb andb]. now destruct (Ascii.eqb c "/").
Qed.

Lemma startswith_nonempty (p s : string) : p <> "" -> startswith p s = true -> s <> "".
Proof. intros Hp H ->. destruct p; [contradiction | discriminate]. Qed.

Lemma valid_path_drop_last (p : string) :
  valid_path p = true -> valid_path (drop_last p) = true.
Proof.
  unfold valid_path. destruct (last p) as [c|e] eqn:E.
  - apply last_drop_last in E. rewrite E at 1 2. rewrite !mem_app, !negb_orb.
    intros [[-> _]%andb_prop [-> _]%andb_prop]%andb_prop. reflexivity.
  - destruct p as [|c p]; [reflexivity|].
    destruct (last_defined (String c p)) as [x Hx]; [discriminate | congruence].
Qed.

(** [clean_url] leaves alone a URL it has built from a scheme and a
    path that begins, and does not end, with a slash. *)
Lemma clean_url_rebuilt (s n p : string) :
  s <> "" ->
  valid_scheme s = true -> valid_netloc n = true -> valid_path p = true ->
  startswith "/" p = true -> endswith "/" p = false ->
  clean_url (s +:+ "://" +:+ lower n +:+ p) = Ok (s +:+ "://" +:+ lower n +:+ p).
Proof.
  intros Hne Hs Hn Hp Hstart Hend. unfold clean_url.
  rewrite (urlsplit_rebuilt s (lower n) p Hne Hs (valid_netloc_lower _ Hn) Hp Hstart).
  cbn [mbind result_bind bind path scheme netloc].
  destruct (last_defined p) as [c Hc].
  { apply (startswith_nonempty "/"); [discriminate | exact Hstart]. }
  rewrite Hc. cbn [mbind result_bind bind].
  rewrite (endswith_slash_last _ _ Hc) in Hend.
  now rewrite Hend, lower_idem.
Qed.

End CleanUrlFacts.

(** C1 (as amended).  For a URL that [urlsplit] splits with a non-empty
    path, [clean_url] returns the scheme, "://", the network location in
    lower case and a path [p'], where the scheme, the location and the path
    are the components [urlsplit] reports (query and fragment are left out)
    and [p'] is the path without its last character when that character is
    a slash, and the path itself otherwise: one slash at most is removed.
    Canonicalising the result again gives the same URL whenever the scheme
    is not empty and [p'] begins with a slash and does not end with one. *)
Theorem clean_url_canonical (u : string) (link : SplitResult) :
  urlsplit u = Ok link ->
  path link <> "" ->
  exists p' : string,
    clean_url u = Ok (scheme link +:+ "://" +:+ Str.lower (netloc link) +:+ p')
    /\ (path link = p' +:+ "/" \/ (path link = p' /\ Str.endswith "/" p' = false))
    /\ (scheme link <> "" ->
        Str.startswith "/" p' = true ->
        Str.endswith "/" p' = false ->
        clean_url u ≫= clean_url = clean_url u).
Proof.
  intros Hsplit Hpath.
  destruct (UrlFacts.urlsplit_wf _ _ Hsplit) as (Hs & Hn & Hp).
  destruct (StrFacts.last_defined _ Hpath) as [c Hc].
  assert (Hclean : clean_url u
            = Ok (scheme link +:+ "://" +:+ Str.lower (netloc link)
                    +:+ (if Ascii.eqb c "/" then Str.drop_last (path link) else path link))).
  { unfold clean_url. rewrite Hsplit. cbn [mbind result_bind bind]. rewrite Hc. reflexivity. }
  exists (if Ascii.eqb c "/" then Str.drop_last (path link) else path link).
  split; [exact Hclean|]. split.
  - destruct (Ascii.eqb_spec c "/") as [->|Hne].
    + left. now apply StrFacts.last_drop_last.
    + right. split; [reflexivity|].
      rewrite (CleanUrlFacts.endswith_slash_last _ _ Hc).
      now apply Ascii.eqb_neq.
  - intros Hscheme Hstart Hend. rewrite Hclean. cbn [mbind result_bind bind].
    apply CleanUrlFacts.clean_url_rebuilt; auto.
    destruct (Ascii.eqb c "/"); [now apply CleanUrlFacts.valid_path_drop_last | exact Hp].
Qed.

Lemma clean_url_canonical_witness :
  exists p' : string,
    clean_url "https://Example.COM/TR/foo/" = Ok ("https" +:+ "://" +:+ "example.com" +:+ p')
    /\ ("/TR/foo/" = p' +:+ "/" \/ ("/TR/foo/" = p' /\ Str.endswith "/" p' = false))
    /\ ("https" <> "" ->
        Str.startswith "/" p' = true ->
        Str.endswith "/" p' = false ->
        clean_url "https://Example.COM/TR/foo/" ≫= clean_url
        = clean_url "https://Example.COM/TR/foo/").
Proof.
  apply (clean_url_canonical "https://Example.COM/TR/foo/"
           (mkSplit "https" "Example.COM" "/TR/foo/" "" "")).
  - reflexivity.
  - discriminate.
Defined.

(** C1 as stated does not hold: a second canonicalisation raises when the
    first one has emptied the path, removes a further slash when the path
    ended with two, and does not split what was built from a URL without a
    scheme, or with a path that does not begin with a slash, as the first
    one did.  The scheme is the one [urlsplit] reports, which is in lower
    case whatever the URL has. *)
Lemma clean_url_not_idempotent :
  ~ (forall (u : string) (link : SplitResult),
       urlsplit u = Ok link -> path link <> "" ->
       clean_url u ≫= clean_url = clean_url u)
  /\ urlsplit "https://example.com/" = Ok (mkSplit "https" "example.com" "/" "" "")
  /\ clean_url "https://example.com/" = Ok "https://example.com"
  /\ clean_url "https://example.com" = Raise IndexError
  /\ clean_url "https://example.com/a//" = Ok "https://example.com/a/"
  /\ clean_url "https://example.com/a/" = Ok "https://example.com/a"
  /\ clean_url "TR/foo" = Ok "://TR/foo"
  /\ clean_url "://TR/foo" = Ok "://://TR/foo"
  /\ clean_url "mailto:A/b" = Ok "mailto://A/b"
  /\ clean_url "mailto://A/b" = Ok "mailto://a/b"
  /\ clean_url "HTTPS://example.com/a" = Ok "https://example.com/a".
Proof.
  split; [|repeat split; reflexivity].
  intros H.
  specialize (H "https://example.com/" (mkSplit "https" "example.com" "/" "" "") eq_refl).
  discriminate H. discriminate.
Qed.

(** C9.  A URL whose path is empty has no canonical form: [clean_url]
    reads the last character of the path, which raises [IndexError]. *)
Theorem clean_url_empty_path (u : string) (link : SplitResult) :
  urlsplit u = Ok link ->
  path link = "" ->
  clean_url u = Raise IndexError.
Proof.
  intros Hsplit Hpath. unfold clean_url. rewrite Hsplit.
  cbn [mbind result_bind bind]. now rewrite Hpath.
Qed.

Lemma clean_url_empty_path_witness :
  clean_url "https://example.com" = Raise IndexError.
Proof.
  apply (clean_url_empty_path "https://example.com"
           (mkSplit "https" "example.com" "" "" "")); reflexivity.
Defined.

(** ** parse_draft_name *)

(** A text of exactly two decimal digits *)
Definition two_digits (s : string) : bool :=
  match s with
  | String a (String b EmptyString) => Str.is_digit a && Str.is_digit b
  | _ => false
  end.

Module DraftFacts.
Import Str StrFacts.

Lemma rsplit1_None_mem (c : ascii) (s : string) : rsplit1 c s = None <-> mem c s = false.
Proof.
  induction s as [|d s IH]; cbn [rsplit1 mem]; [tauto|].
  destruct (rsplit1 c s) as [[a b]|].
  - split; [discriminate|]. destruct (Ascii.eqb c d); [discriminate|].
    intros H. apply IH in H. discriminate.
  - destruct (Ascii.eqb c d); [split; discriminate | tauto].
Qed.

Lemma rsplit1_Some (c : ascii) (s a b : string) :
  rsplit1 c s = Some (a, b) -> s = a +:+ String c b /\ mem c b = false.
Proof.
  revert a; induction s as [|d s IH]; cbn [rsplit1]; intros a; [discriminate|].
  destruct (rsplit1 c s) as [[a' b']|] eqn:E.
  - intros [= <- <-]. destruct (IH a' eq_refl) as [-> Hb]. now split.
  - destruct (Ascii.eqb_spec c d) as [->|_]; [|discriminate].
    intros [= <- <-]. split; [reflexivity|]. now apply rsplit1_None_mem.
Qed.

Lemma rsplit1_app (c : ascii) (a b : string) :
  mem c b = false -> rsplit1 c (a +:+ String c b) = Some (a, b).
Proof.
  intros Hb. induction a as [|d a IH]; cbn [String.append rsplit1].
  - apply rsplit1_None_mem in Hb. now rewrite Hb, Ascii.eqb_refl.
  - now rewrite IH.
Qed.

Lemma two_digits_spec (s : string) :
  two_digits s = isdigit s && (String.length s =? 2)%nat.
Proof.
  destruct s as [|a [|b [|c s]]]; cbn [two_digits isdigit all String.length];
    rewrite ?andb_true_r, ?andb_false_r; reflexivity.
Qed.

Lemma digit_not_hyphen (c : ascii) : is_digit c = true -> Ascii.eqb "-" c = false.
Proof. destruct c as [[] [] [] [] [] [] [] []]; intros H; try reflexivity; discriminate H. Qed.

Lemma two_digits_no_hyphen (s : string) : two_digits s = true -> mem "-" s = false.
Proof.
  destruct s as [|a [|b [|c s]]]; try discriminate. cbn [two_digits mem].
  intros [Ha Hb]%andb_prop.
  now rewrite (digit_not_hyphen _ Ha), (digit_not_hyphen _ Hb).
Qed.

Lemma parse_revision (d n : string) :
  two_digits n = true -> parse_draft_name (d +:+ "-" +:+ n) = (d, Some n).
Proof.
  intros Hn. unfold parse_draft_name.
  change (d +:+ "-" +:+ n) with (d +:+ String "-" n).
  rewrite (rsplit1_app _ _ _ (two_digits_no_hyphen _ Hn)).
  now rewrite <- two_digits_spec, Hn.
Qed.

End DraftFacts.

(** C8.  [parse_draft_name] splits the name at its last hyphen and takes
    what follows for a revision exactly when that is two digits: the three
    examples, and in general a revision [n] is returned with the name [d]
    exactly for the text [d-n] with two digits [n], and a text is returned
    whole whenever no revision is. *)
Theorem parse_draft_name_correct :
  parse_draft_name "draft-foo-07" = ("draft-foo", Some "07")
  /\ parse_draft_name "draft-foo" = ("draft-foo", None)
  /\ parse_draft_name "draft-foo-7" = ("draft-foo-7", None)
  /\ (forall instr d n : string,
        parse_draft_name instr = (d, Some n)
        <-> instr = d +:+ "-" +:+ n /\ two_digits n = true)
  /\ (forall instr : string,
        (parse_draft_name instr).2 = None <-> (parse_draft_name instr).1 = instr).
Proof.
  split; [reflexivity|]. split; [reflexivity|]. split; [reflexivity|].
  assert (Hrev : forall instr d n : string,
             parse_draft_name instr = (d, Some n)
             <-> instr = d +:+ "-" +:+ n /\ two_digits n = true).
  { intros instr d n. split.
    - unfold parse_draft_name.
      destruct (Str.rsplit1 "-" instr) as [[a b]|] eqn:E; [|discriminate].
      rewrite <- DraftFacts.two_digits_spec.
      destruct (two_digits b) eqn:Hb; [|discriminate].
      intros [= <- <-]. apply DraftFacts.rsplit1_Some in E as [-> _]. now split.
    - intros [-> Hn]. now apply DraftFacts.parse_revision. }
  split; [exact Hrev|].
  intros instr. destruct (parse_draft_name instr) as [d [n|]] eqn:E; cbn [fst snd].
  - split; [discriminate|]. intros ->.
    apply Hrev in E as [E _]. exfalso.
    apply (f_equal String.length) in E.
    rewrite StrFacts.length_app in E. cbn in E. lia.
  - split; [|reflexivity]. intros _. unfold parse_draft_name in E.
    destruct (Str.rsplit1 "-" instr) as [[a b]|]; [|congruence].
    destruct (_ && _); congruence.
Qed.

(** ** get_meta *)

(** The first meta tag of the head that carries the name, if there is one:
    what [spec.head.find("meta", attrs={"name": name})] looks for. *)
Definition head_meta (spec : node) (name : string) : option node :=
  match Soup.find (Soup.is_tag "head") spec with
  | Some head => Soup.find (named_meta name) head
  | None => None
  end.

(** A text in which every white space is one space, with no two in a row *)
Fixpoint collapsed (s : string) : bool :=
  match s with
  | EmptyString => true
  | String c s' =>
      (negb (Str.is_space c) || Ascii.eqb c " ")
      && match s' with
         | String d _ => negb (Str.is_space c && Str.is_space d)
         | EmptyString => true
         end
      && collapsed s'
  end.

Definition newline : ascii := "010".
Definition tab : ascii := "009".

Module MetaFacts.

Lemma meta_content_absent (spec : node) (name : string) :
  head_meta spec name = None ->
  meta_content spec name = Raise AttributeError
  \/ meta_content spec name = Raise TypeError.
Proof.
  unfold head_meta, meta_content.
  destruct (Soup.find (Soup.is_tag "head") spec) as [head|]; [|now left].
  cbn [attribute_of mbind result_bind bind]. intros ->. now right.
Qed.

Lemma meta_content_present (spec : node) (name : string) (tag : node) :
  head_meta spec name = Some tag ->
  meta_content spec name
  = match Soup.attr "content" tag with
    | Some c => Ok (Str.replace "010" " " c)
    | None => Raise (KeyError "content")
    end.
Proof.
  unfold head_meta, meta_content.
  destruct (Soup.find (Soup.is_tag "head") spec) as [head|]; [|discriminate].
  cbn [attribute_of mbind result_bind bind]. now intros ->.
Qed.

Lemma get_meta_skip (spec : node) (skipped names : list string) :
  (forall n, n ∈ skipped -> head_meta spec n = None) ->
  get_meta spec (skipped ++ names) = get_meta spec names.
Proof.
  induction skipped as [|n skipped IH]; intros Hall; [reflexivity|].
  cbn [app get_meta].
  destruct (meta_content_absent spec n) as [-> | ->].
  - apply Hall. now left.
  - apply IH. intros m Hm. apply Hall. now right.
  - apply IH. intros m Hm. apply Hall. now right.
Qed.

Lemma get_replace (a b : ascii) (s : string) (i : nat) :
  String.get i (Str.replace a b s)
  = (fun c => if Ascii.eqb c a then b else c) <$> String.get i s.
Proof.
  revert i; induction s as [|c s IH]; intros i; [reflexivity|].
  destruct i as [|i]; [reflexivity | apply IH].
Qed.

Lemma length_replace (a b : ascii) (s : string) :
  String.length (Str.replace a b s) = String.length s.
Proof. induction s as [|c s IH]; cbn; [reflexivity | now rewrite IH]. Qed.

End MetaFacts.

(** C4 (as amended).  [get_meta] tries the names in order: the names whose
    meta tag the head does not have are passed over, [None] is returned
    when none is left, and the content of the first meta tag found is
    returned with each of its newlines replaced by one space and every
    other character, white space included, as it is. *)
Theorem get_meta_first_found (spec : node) (skipped : list string) :
  (forall n, n ∈ skipped -> head_meta spec n = None) ->
  get_meta spec skipped = Ok None
  /\ forall (name : string) (rest : list string) (tag : node) (content : string),
       head_meta spec name = Some tag ->
       Soup.attr "content" tag = Some content ->
       exists text : string,
         get_meta spec (skipped ++ name :: rest) = Ok (Some text)
         /\ String.length text = String.length content
         /\ forall i : nat,
              String.get i text
              = (fun c => if Ascii.eqb c newline then " "%char else c) <$> String.get i content.
Proof.
  intros Hskipped. split.
  - rewrite <- (app_nil_r skipped). now rewrite MetaFacts.get_meta_skip.
  - intros name rest tag content Htag Hcontent.
    exists (Str.replace newline " " content).
    rewrite (MetaFacts.get_meta_skip _ _ _ Hskipped). cbn [get_meta].
    rewrite (MetaFacts.meta_content_present _ _ _ Htag), Hcontent.
    split; [reflexivity|]. split.
    + apply MetaFacts.length_replace.
    + intros i. apply MetaFacts.get_replace.
Qed.

Definition meta_tag (name content : string) : node :=
  Elem "meta" {[ "name" := name; "content" := content ]} [].

Definition document (head body : list node) : node :=
  Elem "[document]" ∅ [Elem "html" ∅ [Elem "head" ∅ head; Elem "body" ∅ body]].

Lemma get_meta_first_found_witness :
  get_meta (document [meta_tag "dcterms.abstract" ("One" +:+ String newline "line")] [])
    ["description"] = Ok None
  /\ forall (name : string) (rest : list string) (tag : node) (content : string),
       head_meta (document [meta_tag "dcterms.abstract" ("One" +:+ String newline "line")] [])
         name = Some tag ->
       Soup.attr "content" tag = Some content ->
       exists text : string,
         get_meta (document [meta_tag "dcterms.abstract" ("One" +:+ String newline "line")] [])
           (["description"] ++ name :: rest) = Ok (Some text)
         /\ String.length text = String.length content
         /\ forall i : nat,
              String.get i text
              = (fun c => if Ascii.eqb c newline then " "%char else c) <$> String.get i content.
Proof.
  apply (get_meta_first_found
           (document [meta_tag "dcterms.abstract" ("One" +:+ String newline "line")] [])
           ["description"]).
  intros n Hn. apply list_elem_of_singleton in Hn as ->. reflexivity.
Defined.

(** C4 as stated does not hold: the returned content keeps its runs of
    spaces and its tabs, and two newlines become two spaces. *)
Lemma get_meta_does_not_collapse :
  get_meta
    (document [meta_tag "description"
                 ("a" +:+ String newline (String newline ("b  " +:+ String tab "c")))] [])
    ["description"]
  = Ok (Some ("a  b  " +:+ String tab "c"))
  /\ collapsed ("a  b  " +:+ String tab "c") = false
  /\ collapsed "a b c" = true.
Proof. repeat split; reflexivity. Qed.

(** C10.  On a tools.ietf.org URL whose first path segment is "html", a
    document whose head has no meta tag named DC.Identifier makes
    [get_meta] return [None], and the parser raises [AttributeError] when
    it asks that [None] for its lower case: no record is returned and no
    draft name is looked at. *)
Theorem IETF_parse_without_identifier
    (spec : node) (url_string : string) (url : SplitResult) :
  urlsplit url_string = Ok url ->
  Str.lower (netloc url) = "tools.ietf.org" ->
  path_components_of url !! 1%nat = Some "html" ->
  head_meta spec "DC.Identifier" = None ->
  get_meta spec ["DC.Identifier"] = Ok None
  /\ IETF_parse spec url_string = Raise AttributeError.
Proof.
  intros Hsplit Hhost Hhtml Hmeta.
  assert (Hget : get_meta spec ["DC.Identifier"] = Ok None).
  { apply (get_meta_first_found spec ["DC.Identifier"]).
    intros n Hn. now apply list_elem_of_singleton in Hn as ->. }
  split; [exact Hget|].
  unfold IETF_parse. rewrite Hsplit. cbn [mbind result_bind bind].
  unfold IETF_redirect. cbn [mbind result_bind bind].
  rewrite Hhost, String.eqb_refl.
  assert (Hfirst : index (path_components_of url) 1 = Ok "html")
    by (unfold index; now rewrite Hhtml).
  rewrite Hfirst.
  cbn [mbind result_bind bind]. rewrite bool_decide_eq_true_2 by apply list_elem_of_here.
  rewrite Hget. reflexivity.
Qed.

Lemma IETF_parse_without_identifier_witness :
  get_meta (document [Elem "title" ∅ [Text "A draft"]] []) ["DC.Identifier"] = Ok None
  /\ IETF_parse (document [Elem "title" ∅ [Text "A draft"]] [])
       "https://tools.ietf.org/html/draft-ietf-foo" = Raise AttributeError.
Proof.
  apply (IETF_parse_without_identifier _ _
           (mkSplit "https" "tools.ietf.org" "/html/draft-ietf-foo" "" ""));
    reflexivity.
Defined.

(** ** IETFParser.parse *)

(** A text that can be one segment of a path: no slash, and neither of the
    marks that end the path of a URL. *)
Definition segment (s : string) : bool :=
  negb (Str.mem "/" s) && negb (Str.mem "?" s) && negb (Str.mem "#" s).

Module IETFFacts.
Import Str StrFacts UrlFacts CleanUrlFacts.

Lemma split_fresh (c : ascii) (s : string) : mem c s = false -> split c s = [s].
Proof.
  induction s as [|d s IH]; cbn [mem split]; [reflexivity|].
  destruct (Ascii.eqb c d); [discriminate|]. intros H. now rewrite (IH H).
Qed.

Lemma split_app (c : ascii) (a b : string) :
  mem c a = false -> split c (a +:+ String c b) = a :: split c b.
Proof.
  induction a as [|d a IH]; cbn [mem split String.append].
  - intros _. now rewrite Ascii.eqb_refl.
  - destruct (Ascii.eqb c d); [discriminate|]. intros H. now rewrite (IH H).
Qed.

Lemma last_app (a b : string) : b <> "" -> last (a +:+ b) = last b.
Proof.
  intros Hb. induction a as [|d a IH]; [reflexivity|].
  cbn [String.append last]. rewrite IH.
  destruct (a +:+ b) eqn:E; [|reflexivity].
  destruct a; [contradiction | discriminate].
Qed.

Lemma last_mem (s : string) (c : ascii) : last s = Ok c -> mem c s = true.
Proof.
  induction s as [|d s IH]; cbn [last mem]; [discriminate|].
  destruct s as [|e s].
  - intros [= ->]. now rewrite Ascii.eqb_refl.
  - intros H. rewrite (IH H). now destruct (Ascii.eqb c d).
Qed.

Lemma endswith_fresh (a b : string) :
  b <> "" -> mem "/" b = false -> endswith "/" (a +:+ b) = false.
Proof.
  intros Hb Hfresh. destruct (last_defined b Hb) as [c Hc].
  rewrite (endswith_slash_last _ c) by now rewrite last_app.
  apply last_mem in Hc. apply Ascii.eqb_neq. intros ->. congruence.
Qed.

Lemma segment_app (a b : string) :
  segment (a +:+ b) = segment a && segment b.
Proof.
  unfold segment. rewrite !mem_app.
  destruct (mem "/" a), (mem "?" a), (mem "#" a), (mem "/" b), (mem "?" b); reflexivity.
Qed.

Lemma segment_slash (s : string) : segment s = true -> mem "/" s = false.
Proof. unfold segment. now destruct (mem "/" s). Qed.

Lemma digit_segment (c : ascii) : is_digit c = true -> segment (String c "") = true.
Proof. destruct c as [[] [] [] [] [] [] [] []]; intros H; try reflexivity; discriminate H. Qed.

Lemma two_digits_segment (s : string) : two_digits s = true -> segment s = true.
Proof.
  destruct s as [|a [|b [|c s]]]; try discriminate. cbn [two_digits].
  intros [Ha Hb]%andb_prop.
  change (String a (String b "")) with (String a "" +:+ String b "").
  now rewrite segment_app, (digit_segment _ Ha), (digit_segment _ Hb).
Qed.

Lemma startswith_app (p s : string) :
  startswith p s = true -> exists r, s = p +:+ r.
Proof.
  revert s; induction p as [|a p IH]; intros s; [now exists s|].
  destruct s as [|b s]; cbn [startswith]; [discriminate|].
  destruct (Ascii.eqb_spec a b) as [<-|]; [|discriminate].
  intros [r ->]%IH. now exists r.
Qed.

(** The URL of a document of tools.ietf.org, split *)
Lemma urlsplit_html (seg : string) :
  segment seg = true ->
  urlsplit ("https://tools.ietf.org/html/" +:+ seg)
  = Ok (mkSplit "https" "tools.ietf.org" ("/html/" +:+ seg) "" "").
Proof.
  intros Hseg.
  apply (urlsplit_rebuilt "https" "tools.ietf.org" ("/html/" +:+ seg));
    try reflexivity; [discriminate|].
  unfold valid_path. change ("/html/" +:+ seg) with ("/html" +:+ String "/" seg).
  unfold segment in Hseg. rewrite !mem_app. cbn [mem].
  destruct (mem "?" seg), (mem "#" seg), (mem "/" seg); try discriminate; reflexivity.
Qed.

Lemma path_components_html (seg : string) :
  seg <> "" -> segment seg = true ->
  path_components_of (mkSplit "https" "tools.ietf.org" ("/html/" +:+ seg) "" "")
  = [""; "html"; seg].
Proof.
  intros Hne Hseg. unfold path_components_of. cbn [path].
  change ("/html/" +:+ seg) with ("" +:+ String "/" ("html" +:+ String "/" seg)).
  rewrite !split_app by reflexivity. rewrite (split_fresh _ _ (segment_slash _ Hseg)).
  destruct seg; [contradiction | reflexivity].
Qed.

Lemma clean_url_html (seg : string) :
  seg <> "" -> segment seg = true ->
  clean_url ("https://tools.ietf.org/html/" +:+ seg)
  = Ok ("https://tools.ietf.org/html/" +:+ seg).
Proof.
  intros Hne Hseg.
  apply (clean_url_rebuilt "https" "tools.ietf.org" ("/html/" +:+ seg));
    try reflexivity; [discriminate | |].
  - pose proof (urlsplit_wf _ _ (urlsplit_html seg Hseg)) as (_ & _ & H). exact H.
  - apply endswith_fresh; [exact Hne | now apply segment_slash].
Qed.

(** A record that [IETF_parse] returns has the canonical URL. *)
Lemma IETF_parse_url (spec : node) (url_string : string) (data : gmap string pyval) :
  IETF_parse spec url_string = Ok data ->
  exists c, clean_url url_string = Ok c /\ data !! "url" = Some (PyUnicode c).
Proof.
  unfold IETF_parse. intros H.
  apply bind_Ok_inv in H as (url & _ & H).
  apply bind_Ok_inv in H as (_ & _ & H). unfold IETF_data in H.
  apply bind_Ok_inv in H as (dc_title & _ & H).
  apply bind_Ok_inv in H as (title & _ & H).
  apply bind_Ok_inv in H as (description & _ & H).
  apply bind_Ok_inv in H as (c & Hc & H).
  injection H as <-. exists c. split; [exact Hc | apply lookup_insert_eq].
Qed.

End IETFFacts.

(** C5.  For the URL https://tools.ietf.org/html/<name>-<NN> of a draft
    ([name] one path segment, [NN] two digits) and a document whose
    DC.Identifier is there and, when it is an urn:ietf:rfc identifier, is
    the one of this very URL, the parser raises [BetterUrl] with
    https://tools.ietf.org/html/<name>.  When both pages are served and
    the second one parses into a record, the entry built for the first URL
    has the second URL. *)
Theorem IETF_revision_redirect (spec : node) (name nn identifier : string) :
  segment name = true ->
  two_digits nn = true ->
  get_meta spec ["DC.Identifier"] = Ok (Some identifier) ->
  (Str.startswith "urn:ietf:rfc" (Str.lower identifier) = true ->
   forall a number : string,
     Str.rsplit1 ":" identifier = Some (a, number) ->
     clean_url (html_url ("rfc" +:+ number))
     = clean_url ("https://tools.ietf.org/html/" +:+ name +:+ "-" +:+ nn)) ->
  IETF_parse spec ("https://tools.ietf.org/html/" +:+ name +:+ "-" +:+ nn)
  = Raise (BetterUrl ("https://tools.ietf.org/html/" +:+ name))
  /\ forall (requests_get : string -> Z * node) (spec' : node)
            (data : gmap string pyval) (fuel : nat),
       name <> "" ->
       requests_get ("https://tools.ietf.org/html/" +:+ name +:+ "-" +:+ nn) = (200, spec) ->
       requests_get ("https://tools.ietf.org/html/" +:+ name) = (200, spec') ->
       IETF_parse spec' ("https://tools.ietf.org/html/" +:+ name) = Ok data ->
       exists record : gmap string pyval,
         SpecEntry requests_get (S (S fuel))
           ("https://tools.ietf.org/html/" +:+ name +:+ "-" +:+ nn) = Some (Ok record)
         /\ record !! "url" = Some (PyUnicode ("https://tools.ietf.org/html/" +:+ name)).
Proof.
  intros Hname Hnn Hid Hrfc.
  set (seg := name +:+ "-" +:+ nn).
  assert (Hseg : segment seg = true).
  { subst seg. rewrite !IETFFacts.segment_app, Hname.
    now rewrite (IETFFacts.two_digits_segment _ Hnn). }
  assert (Hne : seg <> "") by (subst seg; destruct name; discriminate).
  assert (Hsplit := IETFFacts.urlsplit_html seg Hseg).
  assert (Hredirect :
    IETF_redirect spec ("https://tools.ietf.org/html/" +:+ seg)
      (mkSplit "https" "tools.ietf.org" ("/html/" +:+ seg) "" "")
    = Raise (BetterUrl ("https://tools.ietf.org/html/" +:+ name))).
  { unfold IETF_redirect. rewrite (IETFFacts.path_components_html seg Hne Hseg).
    cbn [netloc]. change (Str.lower "tools.ietf.org") with "tools.ietf.org".
    rewrite String.eqb_refl. change (index [""; "html"; seg] 1) with (Ok "html").
    cbn [mbind result_bind bind].
    rewrite bool_decide_eq_true_2 by apply list_elem_of_here.
    rewrite Hid. cbn [attribute_of mbind result_bind bind].
    assert (Hurn : rfc_redirect ("https://tools.ietf.org/html/" +:+ seg) identifier = Ok ()).
    { unfold rfc_redirect.
      destruct (Str.startswith "urn:ietf:rfc" (Str.lower identifier)) eqn:Eurn;
        [|reflexivity].
      destruct (Str.rsplit1 ":" identifier) as [[a number]|] eqn:Ersplit.
      - change (index [a; number] 1) with (Ok number).
        cbn [mbind result_bind bind]. cbv zeta.
        rewrite (Hrfc eq_refl a number eq_refl). fold seg.
        rewrite (IETFFacts.clean_url_html seg Hne Hseg).
        cbn [mbind result_bind bind]. now rewrite String.eqb_refl.
      - exfalso. apply DraftFacts.rsplit1_None_mem in Ersplit.
        assert (Hcolon : Str.mem ":" (Str.lower identifier) = true).
        { apply IETFFacts.startswith_app in Eurn as [r ->].
          now rewrite StrFacts.mem_app. }
        rewrite (StrFacts.mem_lower ":" identifier StrFacts.caseless_colon) in Hcolon.
        congruence. }
    rewrite Hurn.
    change (index [""; "html"; seg] (length [""; "html"; seg] - 1)) with (Ok seg).
    cbn [mbind result_bind bind].
    subst seg. rewrite (DraftFacts.parse_revision _ _ Hnn).
    destruct nn; [discriminate | reflexivity]. }
  assert (Hparse :
    IETF_parse spec ("https://tools.ietf.org/html/" +:+ seg)
    = Raise (BetterUrl ("https://tools.ietf.org/html/" +:+ name))).
  { unfold IETF_parse. rewrite Hsplit. cbn [mbind result_bind bind].
    now rewrite Hredirect. }
  split; [exact Hparse|].
  intros requests_get spec' data fuel Hnonempty Hget1 Hget2 Hdata.
  destruct (IETFFacts.IETF_parse_url _ _ _ Hdata) as (c & Hc & Hurl).
  rewrite (IETFFacts.clean_url_html name Hnonempty Hname) in Hc. injection Hc as <-.
  exists (data ∪ SpecEntry_data). split.
  - unfold SpecEntry, figure_out_org. fold seg. rewrite Hsplit.
    cbn [mbind result_bind bind netloc].
    change (URL2ORG !! Str.lower "tools.ietf.org") with (Some IETFParser).
    cbn [fetch_spec_data]. rewrite Hget1. cbn [Z.eqb Pos.eqb negb parse].
    rewrite Hparse, Hget2. cbn [Z.eqb Pos.eqb negb parse]. now rewrite Hdata.
  - apply lookup_union_Some_l. exact Hurl.
Qed.

Definition draft_page (identifier title : string) : node :=
  document [meta_tag "DC.Identifier" identifier; Elem "title" ∅ [Text title]] [].

Definition ietf_web (url : string) : Z * node :=
  if String.eqb url "https://tools.ietf.org/html/draft-ietf-foo-03"
  then (200, draft_page "draft-ietf-foo-03" "Foo, revision 3")
  else if String.eqb url "https://tools.ietf.org/html/draft-ietf-foo"
  then (200, draft_page "draft-ietf-foo" "Foo")
  else (404, document [] []).

Lemma IETF_revision_redirect_witness :
  IETF_parse (draft_page "draft-ietf-foo-03" "Foo, revision 3")
    "https://tools.ietf.org/html/draft-ietf-foo-03"
  = Raise (BetterUrl "https://tools.ietf.org/html/draft-ietf-foo")
  /\ exists record : gmap string pyval,
       SpecEntry ietf_web 2 "https://tools.ietf.org/html/draft-ietf-foo-03"
       = Some (Ok record)
       /\ record !! "url" = Some (PyUnicode "https://tools.ietf.org/html/draft-ietf-foo").
Proof.
  destruct (IETF_revision_redirect (draft_page "draft-ietf-foo-03" "Foo, revision 3")
              "draft-ietf-foo" "03" "draft-ietf-foo-03") as [Hredirect Hentry].
  - reflexivity.
  - reflexivity.
  - reflexivity.
  - discriminate.
  - split; [exact Hredirect|].
    destruct (IETF_parse (draft_page "draft-ietf-foo" "Foo")
                "https://tools.ietf.org/html/draft-ietf-foo") as [data|e] eqn:Hdata.
    + apply (Hentry ietf_web (draft_page "draft-ietf-foo" "Foo") data 0%nat).
      * discriminate.
      * reflexivity.
      * reflexivity.
      * exact Hdata.
    + vm_compute in Hdata. discriminate Hdata.
Defined.

(** ** W3CParser.parse *)

Module W3CFacts.

Lemma clean_url_nonempty (url c : string) : clean_url url = Ok c -> c <> "".
Proof.
  unfold clean_url. intros H.
  apply bind_Ok_inv in H as (link & _ & H).
  apply bind_Ok_inv in H as (x & _ & H). injection H as <-.
  destruct (scheme link); discriminate.
Qed.

Lemma get_link_present (spec : node) (title : string) (link : option string) :
  get_link spec title = Ok link -> present link = is_Some_bool link.
Proof.
  destruct link as [u|]; [|reflexivity]. unfold get_link.
  destruct (_ ≫= _) as [[l|]|[]]; try discriminate.
  intros H. apply bind_Ok_inv in H as (c & Hc & H). injection H as <-.
  apply clean_url_nonempty in Hc. cbn. now destruct c.
Qed.

End W3CFacts.

(** C6.  In a document without a refresh instruction, with the links of
    "This version", "Latest version" and "Editor's draft" that [get_link]
    returns: the parser raises [BetterUrl] with the editor's draft when
    there is one and it is not the link of this version; failing that,
    with the latest version when there is one and it is not the link of
    this version; failing that, the record has the link of this version
    for its url when there is one, and the canonical form of the URL of
    the document otherwise. *)
Theorem W3C_parse_preference
    (org : string) (spec : node) (url_string : string)
    (this_url latest_url ed_url : option string) :
  Soup.select refresh_meta spec = [] ->
  get_link spec "^This version" = Ok this_url ->
  get_link spec "^Latest version" = Ok latest_url ->
  get_link spec "^Editor's draft" = Ok ed_url ->
  (forall ed : string,
     ed_url = Some ed -> ed_url <> this_url ->
     W3C_parse org spec url_string = Raise (BetterUrl ed))
  /\ (forall latest : string,
        ed_url = None \/ ed_url = this_url ->
        latest_url = Some latest -> latest_url <> this_url ->
        W3C_parse org spec url_string = Raise (BetterUrl latest))
  /\ (forall this : string,
        ed_url = None \/ ed_url = this_url ->
        latest_url = None \/ latest_url = this_url ->
        this_url = Some this ->
        W3C_parse org spec url_string
        = (title ← W3C_title spec;
           description ← W3C_description spec;
           Ok (W3C_data this org title description)))
  /\ (ed_url = None -> latest_url = None -> this_url = None ->
      W3C_parse org spec url_string
      = (url ← clean_url url_string;
         title ← W3C_title spec;
         description ← W3C_description spec;
         Ok (W3C_data url org title description)))
  /\ (forall (url : string) (title : option string) (description : string),
        W3C_data url org title description !! "url" = Some (PyUnicode url)).
Proof.
  intros Hrefresh Hthis Hlatest Hed.
  pose proof (W3CFacts.get_link_present _ _ _ Hthis) as Pthis.
  pose proof (W3CFacts.get_link_present _ _ _ Hlatest) as Platest.
  pose proof (W3CFacts.get_link_present _ _ _ Hed) as Ped.
  assert (Hparse :
    W3C_parse org spec url_string
    = (url ← (if present ed_url && negb (bool_decide (ed_url = this_url))
              then Raise (BetterUrl (default "" ed_url))
              else if present latest_url && negb (bool_decide (latest_url = this_url))
              then Raise (BetterUrl (default "" latest_url))
              else if present this_url then Ok (default "" this_url)
              else clean_url url_string);
       title ← W3C_title spec;
       description ← W3C_description spec;
       Ok (W3C_data url org title description))).
  { unfold W3C_parse. rewrite Hrefresh, Hthis, Hlatest, Hed. reflexivity. }
  rewrite Hparse, Pthis, Platest, Ped. clear Hparse Pthis Platest Ped.
  split; [|split; [|split; [|split]]].
  - intros ed -> Hne. now rewrite bool_decide_eq_false_2.
  - intros latest Hedcase -> Hne.
    assert (Hfirst : is_Some_bool ed_url && negb (bool_decide (ed_url = this_url)) = false).
    { destruct Hedcase as [-> | ->]; [reflexivity|].
      rewrite bool_decide_eq_true_2 by reflexivity. apply andb_false_r. }
    rewrite Hfirst. now rewrite bool_decide_eq_false_2.
  - intros this Hedcase Hlatestcase ->.
    assert (Hfirst : is_Some_bool ed_url && negb (bool_decide (ed_url = Some this)) = false).
    { destruct Hedcase as [-> | ->]; [reflexivity|].
      rewrite bool_decide_eq_true_2 by reflexivity. apply andb_false_r. }
    assert (Hsecond :
      is_Some_bool latest_url && negb (bool_decide (latest_url = Some this)) = false).
    { destruct Hlatestcase as [-> | ->]; [reflexivity|].
      rewrite bool_decide_eq_true_2 by reflexivity. apply andb_false_r. }
    now rewrite Hfirst, Hsecond.
  - now intros -> -> ->.
  - intros url title description. unfold W3C_data.
    rewrite !lookup_insert_ne by discriminate. apply lookup_insert_eq.
Qed.

Definition link_entry (label href : string) : list node :=
  [Elem "dt" ∅ [Text label]; Elem "dd" ∅ [Elem "a" {[ "href" := href ]} [Text href]]].

Definition w3c_page (links : list node) : node :=
  document [Elem "title" ∅ [Text "Foo"]]
    [Elem "h1" ∅ [Text "Foo"];
     Elem "dl" ∅ links;
     Elem "h2" {[ "id" := "abstract" ]} [Text "Abstract"];
     Elem "p" ∅ [Text "A specification of foo."]].

Definition dated_page : node :=
  w3c_page (link_entry "This version:" "https://www.w3.org/TR/2017/WD-foo-20170101/"
            ++ link_entry "Latest version:" "https://www.w3.org/TR/foo/"
            ++ link_entry "Editor's Draft:" "https://w3c.github.io/foo/").

Lemma W3C_parse_preference_witness :
  W3C_parse "W3C" dated_page "https://www.w3.org/TR/2017/WD-foo-20170101/"
  = Raise (BetterUrl "https://w3c.github.io/foo").
Proof.
  apply (proj1 (W3C_parse_preference "W3C" dated_page
                  "https://www.w3.org/TR/2017/WD-foo-20170101/"
                  (Some "https://www.w3.org/TR/2017/WD-foo-20170101")
                  (Some "https://www.w3.org/TR/foo")
                  (Some "https://w3c.github.io/foo")
                  eq_refl eq_refl eq_refl eq_refl)).
  - reflexivity.
  - discriminate.
Defined.

Example W3C_parse_this_version :
  match W3C_parse "W3C"
          (w3c_page (link_entry "This version:" "https://www.w3.org/TR/foo/"
                     ++ link_entry "Latest version:" "https://www.w3.org/TR/foo/"))
          "https://www.w3.org/TR/foo/#abstract" with
  | Ok data => data !! "url"
  | Raise _ => None
  end = Some (PyUnicode "https://www.w3.org/TR/foo").
Proof. reflexivity. Qed.

(** ** ActivitiesJson.entry_unique *)

(** The text held by a field of an entry, when the entry is a dictionary
    and the field is text *)
Definition text_field (key : string) (e : pyval) : option string :=
  match e with
  | PyDict d =>
      match d !! key with
      | Some (PyUnicode s) => Some s
      | _ => None
      end
  | _ => None
  end.

(** A title in lower case, without the white space around it *)
Definition normalized (title : string) : string := Str.strip (Str.lower title).

Module UniqueFacts.

Lemma comprehension_map {A B : Type} (f : A -> result B) (g : A -> B) (l : list A) :
  (forall e, e ∈ l -> f e = Ok (g e)) -> comprehension f l = Ok (g <$> l).
Proof.
  induction l as [|e l IH]; intros Hall; [reflexivity|].
  cbn [comprehension]. rewrite (Hall e) by apply list_elem_of_here.
  cbn [mbind result_bind bind]. rewrite IH; [reflexivity|].
  intros x Hx. apply Hall. now apply list_elem_of_further.
Qed.

Lemma title_of_entry (e : pyval) (t : string) :
  text_field "title" e = Some t ->
  (v ← py_getitem e "title"; l ← py_lower v; Ok (Str.strip l)) = Ok (normalized t).
Proof.
  unfold text_field, py_getitem. destruct e as [| | | | | |l|d]; try discriminate.
  destruct (d !! "title") as [[| | | | |s| |]|]; try discriminate.
  now intros [= ->].
Qed.

Lemma url_of_entry (e : pyval) (u : string) :
  text_field "url" e = Some u -> py_getitem e "url" = Ok (PyUnicode u).
Proof.
  unfold text_field, py_getitem. destruct e as [| | | | | |l|d]; try discriminate.
  destruct (d !! "url") as [[| | | | |s| |]|]; try discriminate.
  now intros [= ->].
Qed.

Lemma py_in_text (u : string) (l : list string) :
  py_in (PyUnicode u) (PyUnicode <$> l) = true <-> u ∈ l.
Proof.
  unfold py_in. induction l as [|x l IH]; cbn [fmap list_fmap existsb].
  - split; [discriminate | intros H; inversion H].
  - rewrite orb_true_iff, IH, elem_of_cons. cbn [py_eq].
    rewrite String.eqb_eq. tauto.
Qed.

End UniqueFacts.

(** C7.  On a store whose entries are dictionaries with a text title and a
    text url, and for a candidate with a text title and a text url:
    [entry_unique] raises a [ValueError] that carries one message exactly
    when the normalized title of the candidate is the normalized title of
    an entry, or its url is the url of an entry; otherwise it returns and
    the store is as it was. *)
Theorem entry_unique_exact
    (py_str : pyval -> string) (self : ActivitiesJson) (entries : list pyval)
    (candidate : gmap string pyval) (title url : string) :
  data self = PyList entries ->
  (forall e, e ∈ entries ->
     is_Some (text_field "title" e) /\ is_Some (text_field "url" e)) ->
  candidate !! "title" = Some (PyUnicode title) ->
  candidate !! "url" = Some (PyUnicode url) ->
  let duplicate :=
    (exists e t, e ∈ entries /\ text_field "title" e = Some t
                 /\ normalized t = normalized title)
    \/ (exists e, e ∈ entries /\ text_field "url" e = Some url) in
  ((exists message : string,
      entry_unique py_str self candidate = Raise (ValueError (inr [message])))
   <-> duplicate)
  /\ (~ duplicate -> entry_unique py_str self candidate = Ok self).
Proof.
  intros Hdata Hentries Htitle Hurl duplicate.
  set (titles := (fun e => normalized (default "" (text_field "title" e))) <$> entries).
  set (urls := (fun e => default "" (text_field "url" e)) <$> entries).
  assert (Hrun :
    entry_unique py_str self candidate
    = if bool_decide (normalized title ∈ titles)
      then Raise (ValueError (inr [filename self +:+ " already contains " +:+ title]))
      else if py_in (PyUnicode url) (PyUnicode <$> urls)
      then Raise (ValueError (inr [filename self +:+ " already contains " +:+ url]))
      else Ok self).
  { unfold entry_unique, py_getitem. rewrite Htitle, Hurl, Hdata.
    cbn [mbind result_bind bind py_lower py_iter].
    rewrite (UniqueFacts.comprehension_map _
               (fun e => normalized (default "" (text_field "title" e)))).
    2:{ intros e He. destruct (Hentries e He) as [[t Ht] _].
        rewrite Ht. now apply UniqueFacts.title_of_entry. }
    cbn [mbind result_bind bind].
    fold (normalized title). fold titles.
    destruct (bool_decide (normalized title ∈ titles)); [reflexivity|].
    rewrite (UniqueFacts.comprehension_map _
               (fun e => PyUnicode (default "" (text_field "url" e)))).
    2:{ intros e He. destruct (Hentries e He) as [_ [u Hu]].
        rewrite Hu. now apply UniqueFacts.url_of_entry. }
    cbn [mbind result_bind bind]. unfold urls. rewrite <- list_fmap_compose.
    reflexivity. }
  assert (Htitles : normalized title ∈ titles
                    <-> exists e t, e ∈ entries /\ text_field "title" e = Some t
                                    /\ normalized t = normalized title).
  { unfold titles. rewrite list_elem_of_fmap. split.
    - intros (e & Heq & He). destruct (Hentries e He) as [[t Ht] _].
      exists e, t. rewrite Ht in Heq. now repeat split.
    - intros (e & t & He & Ht & Heq). exists e. rewrite Ht. now split. }
  assert (Hurls : py_in (PyUnicode url) (PyUnicode <$> urls) = true
                  <-> exists e, e ∈ entries /\ text_field "url" e = Some url).
  { rewrite UniqueFacts.py_in_text. unfold urls. rewrite list_elem_of_fmap. split.
    - intros (e & Heq & He). destruct (Hentries e He) as [_ [u Hu]].
      exists e. rewrite Hu in Heq. cbn in Heq. subst u. now split.
    - intros (e & He & Hu). exists e. rewrite Hu. now split. }
  rewrite Hrun. unfold duplicate. rewrite <- Htitles, <- Hurls.
  destruct (bool_decide_reflect (normalized title ∈ titles)) as [Hin|Hnotin].
  - split; [|tauto]. split; [now left | eauto].
  - destruct (py_in (PyUnicode url) (PyUnicode <$> urls)).
    + split; [|tauto]. split; [now right | eauto].
    + split.
      * split; [intros [m Hm]; discriminate | intros [?|?]; [tauto | discriminate]].
      * reflexivity.
Qed.

Definition stored_entry (title url : string) : pyval :=
  PyDict {[ "title" := PyUnicode title; "url" := PyUnicode url ]}.

Definition small_store : ActivitiesJson :=
  mkActivities "activities.json"
    (PyList [stored_entry "Web Foo" "https://www.w3.org/TR/foo";
             stored_entry "Bar Protocol" "https://tools.ietf.org/html/draft-ietf-bar"]).

Lemma entry_unique_exact_witness :
  exists message : string,
    entry_unique (fun _ => "") small_store
      {[ "title" := PyUnicode "  WEB foo "; "url" := PyUnicode "https://example.org/foo" ]}
    = Raise (ValueError (inr [message])).
Proof.
  apply (proj1 (entry_unique_exact (fun _ => "") small_store
                  [stored_entry "Web Foo" "https://www.w3.org/TR/foo";
                   stored_entry "Bar Protocol" "https://tools.ietf.org/html/draft-ietf-bar"]
                  {[ "title" := PyUnicode "  WEB foo ";
                     "url" := PyUnicode "https://example.org/foo" ]}
                  "  WEB foo " "https://example.org/foo" eq_refl
                  ltac:(intros e He;
                        repeat (apply elem_of_cons in He as [-> | He];
                                [split; eexists; reflexivity|]);
                        inversion He)
                  eq_refl eq_refl)).
  left. exists (stored_entry "Web Foo" "https://www.w3.org/TR/foo"), "Web Foo".
  split; [apply list_elem_of_here | split; reflexivity].
Defined.

Example entry_unique_same_url :
  entry_unique (fun _ => "") small_store
    {[ "title" := PyUnicode "Another title"; "url" := PyUnicode "https://www.w3.org/TR/foo" ]}
  = Raise (ValueError (inr ["activities.json already contains https://www.w3.org/TR/foo"])).
Proof. reflexivity. Qed.

Example entry_unique_new :
  entry_unique (fun _ => "") small_store
    {[ "title" := PyUnicode "Baz"; "url" := PyUnicode "https://www.w3.org/TR/baz" ]}
  = Ok small_store.
Proof. reflexivity. Qed.

(** ** ActivitiesJson.validate_entry and validate *)

(** A value of the kind a row of the table asks for *)
Definition well_typed (t : value_type) (v : pyval) : Prop :=
  match t, v with
  | (StringType | UrlType), PyUnicode _ => True
  | IntType, PyInt _ => True
  | OneOf values, PyUnicode s => s ∈ values
  | _, _ => False
  end.

(** A field the table names *)
Definition recognized (name : string) : Prop :=
  name ∈ item_name <$> expected_entry_items.

(** A field the table requires *)
Definition required_field (name : string) : Prop :=
  exists t : value_type, (name, true, t) ∈ expected_entry_items.

(** A record with every required field, a well-typed value in each field
    it has, and no field the table does not name *)
Definition valid_record (r : gmap string pyval) : Prop :=
  (forall name, is_Some (r !! name) -> recognized name)
  /\ (forall name required t,
        (name, required, t) ∈ expected_entry_items ->
        match r !! name with
        | Some v => well_typed t v
        | None => required = false
        end).

(** The title the messages carry: the one given, or "Entry" *)
Definition shown_title (title : pyval) : pyval :=
  if truthy title then title else PyUnicode "Entry".

Section ValidationFacts.

Variable py_str : pyval -> string.

Lemma validate_item_app (entry : gmap string pyval) (title : pyval)
    (errors : list string) (item : string * bool * value_type) :
  validate_item py_str entry title errors item
  = errors ++ validate_item py_str entry title [] item.
Proof.
  destruct item as [[name required] t]. unfold validate_item.
  repeat case_match; rewrite ?app_nil_r, ?app_nil_l, <- ?app_assoc; reflexivity.
Qed.

Lemma validate_entry_concat (entry : gmap string pyval) (title : pyval) :
  validate_entry py_str entry title
  = concat (validate_item py_str entry (shown_title title) [] <$> expected_entry_items).
Proof.
  unfold validate_entry. fold (shown_title title).
  generalize (shown_title title) as t. intros t.
  generalize expected_entry_items as items.
  assert (Hgen : forall items errors,
             fold_left (validate_item py_str entry t) items errors
             = errors ++ concat (validate_item py_str entry t [] <$> items)).
  { induction items as [|item items IH]; intros errors; cbn [fold_left fmap list_fmap concat].
    - now rewrite app_nil_r.
    - rewrite IH, validate_item_app. now rewrite <- app_assoc. }
  intros items. apply Hgen.
Qed.

Lemma no_extra_items (r : gmap string pyval) :
  (forall name, is_Some (r !! name) -> recognized name) ->
  dom r ∖ list_to_set (item_name <$> expected_entry_items) = (∅ : gset string).
Proof.
  intros Hrec. apply set_eq. intros name.
  rewrite elem_of_difference, elem_of_dom, elem_of_list_to_set.
  split; [|intros H; now apply not_elem_of_empty in H].
  intros [Hin Hout]. destruct Hout. now apply Hrec.
Qed.

(** A row finds nothing to report in a field that is as the table asks. *)
Lemma validate_item_clean (r : gmap string pyval) (title : pyval)
    (name : string) (required : bool) (t : value_type) :
  (forall name, is_Some (r !! name) -> recognized name) ->
  match r !! name with
  | Some v => well_typed t v
  | None => required = false
  end ->
  validate_item py_str r title [] (name, required, t) = [].
Proof.
  intros Hrec Hfield. unfold validate_item. rewrite (no_extra_items r Hrec).
  rewrite bool_decide_eq_false_2 by (intros H; now apply H).
  unfold dict_get. destruct (r !! name) as [v|].
  - destruct required, t, v; cbn in Hfield; try contradiction;
      cbn [is_none andb isinstance negb]; try reflexivity;
      apply UniqueFacts.py_in_text in Hfield; now rewrite Hfield.
  - subst required. reflexivity.
Qed.

(** A row reports the required field that is not there, once. *)
Lemma validate_item_missing (r : gmap string pyval) (title : pyval)
    (name : string) (t : value_type) :
  (forall name, is_Some (r !! name) -> recognized name) ->
  r !! name = None ->
  validate_item py_str r title [] (name, true, t)
  = [format_s py_str title +:+ " doesn't have required member " +:+ name].
Proof.
  intros Hrec Hnone. unfold validate_item. rewrite (no_extra_items r Hrec).
  rewrite bool_decide_eq_false_2 by (intros H; now apply H).
  unfold dict_get. now rewrite Hnone.
Qed.

Lemma names_NoDup : NoDup (item_name <$> expected_entry_items).
Proof. refine (bool_decide_unpack _ _). vm_compute. exact I. Qed.

End ValidationFacts.

(** C3.  [validate_entry] finds no error in a valid record, and in a
    valid record from which one required field has been taken away it
    finds one error: that the record does not have the required member of
    that name. *)
Theorem validate_entry_valid_record
    (py_str : pyval -> string) (r : gmap string pyval) (title : pyval) :
  valid_record r ->
  validate_entry py_str r title = []
  /\ forall name : string,
       required_field name ->
       validate_entry py_str (delete name r) title
       = [format_s py_str (shown_title title)
            +:+ " doesn't have required member " +:+ name].
Proof.
  intros [Hrec Hfields]. split.
  - rewrite validate_entry_concat.
    assert (Hall : forall items,
               (forall item, item ∈ items -> item ∈ expected_entry_items) ->
               concat (validate_item py_str r (shown_title title) [] <$> items) = []).
    { induction items as [|[[n req] t] items IH]; intros Hsub; [reflexivity|].
      cbn [fmap list_fmap concat].
      rewrite (validate_item_clean py_str r _ n req t Hrec).
      - apply IH. intros item Hitem. apply Hsub. now apply list_elem_of_further.
      - apply Hfields, Hsub, list_elem_of_here. }
    apply Hall. auto.
  - intros name [t Hrequired].
    assert (Hrec' : forall n, is_Some (delete name r !! n) -> recognized n).
    { intros n [v Hv]. apply Hrec. exists v.
      apply lookup_delete_Some in Hv as [_ Hv]. exact Hv. }
    rewrite validate_entry_concat.
    set (message := format_s py_str (shown_title title)
                      +:+ " doesn't have required member " +:+ name).
    assert (Hitem : forall item, item ∈ expected_entry_items ->
               validate_item py_str (delete name r) (shown_title title) [] item
               = if decide (item_name item = name) then [message] else []).
    { intros [[n req] t'] Hin. cbn [item_name fst]. destruct (decide (n = name)) as [->|Hne].
      - assert (req = true /\ t' = t) as [-> ->].
        { pose proof (names_NoDup) as Hnodup.
          apply list_elem_of_lookup in Hin as [i Hi].
          apply list_elem_of_lookup in Hrequired as [j Hj].
          assert (i = j).
          { apply (NoDup_lookup _ i j name Hnodup);
              rewrite list_lookup_fmap; [rewrite Hi | rewrite Hj]; reflexivity. }
          subst j. rewrite Hi in Hj. now injection Hj as -> ->. }
        apply validate_item_missing; [exact Hrec' | apply lookup_delete_eq].
      - apply validate_item_clean; [exact Hrec'|].
        rewrite lookup_delete_ne by congruence. now apply Hfields. }
    rewrite (list_fmap_ext _ (fun item => if decide (item_name item = name)
                                          then [message] else []) expected_entry_items)
      by (intros i item Hi; apply Hitem; now apply list_elem_of_lookup_2 in Hi).
    clear Hitem. unfold expected_entry_items in Hrequired.
    repeat (apply elem_of_cons in Hrequired as [Heq | Hrequired];
            [injection Heq as -> _ || discriminate Heq; reflexivity|]).
    now apply elem_of_nil in Hrequired.
Qed.

Definition position_record : gmap string pyval :=
  list_to_map
    [ ("title", PyUnicode "Web Foo");
      ("description", PyUnicode "A specification of foo.");
      ("org", PyUnicode "W3C");
      ("url", PyUnicode "https://www.w3.org/TR/foo");
      ("mozPositionIssue", PyInt 12);
      ("mozPosition", PyUnicode "under consideration") ].

Lemma position_record_valid : valid_record position_record.
Proof.
  split.
  - intros name [v Hv]. unfold position_record in Hv.
    apply elem_of_list_to_map_2 in Hv. unfold recognized.
    repeat (apply elem_of_cons in Hv as [Heq | Hv];
            [injection Heq as -> _; refine (bool_decide_unpack _ _); vm_compute; exact I|]).
    now apply elem_of_nil in Hv.
  - intros name required t Hin. unfold expected_entry_items in Hin.
    repeat (apply elem_of_cons in Hin as [Heq | Hin];
            [injection Heq as -> -> ->; vm_compute;
             first [exact I | reflexivity | now repeat constructor]|]).
    now apply elem_of_nil in Hin.
Qed.

Lemma validate_entry_valid_record_witness :
  validate_entry (fun _ => "") position_record PyNone = []
  /\ forall name : string,
       required_field name ->
       validate_entry (fun _ => "") (delete name position_record) PyNone
       = [format_s (fun _ => "") (shown_title PyNone)
            +:+ " doesn't have required member " +:+ name].
Proof.
  apply (validate_entry_valid_record (fun _ => "") position_record PyNone).
  exact position_record_valid.
Defined.

Example validate_entry_without_url :
  validate_entry (fun _ => "") (delete "url" position_record) PyNone
  = ["Entry doesn't have required member url"].
Proof. reflexivity. Qed.

Lemma first_place (i : Z) : i + 1 + Z.of_nat 0 = i + 1.
Proof. lia. Qed.

Lemma next_place (i : Z) (k : nat) : i + 1 + 1 + Z.of_nat k = i + 1 + Z.of_nat (S k).
Proof. lia. Qed.

Section ValidateFacts.

Variable py_str : pyval -> string.

(** On dictionaries the loop adds, for the entry in place [k] after [i],
    the errors [validate_entry] finds under the title of the entry or, when
    it has none, under "entry" and the number of its place. *)
Lemma validate_entries_dicts (ds : list (gmap string pyval)) (i : Z) (errors : list string) :
  validate_entries py_str (PyDict <$> ds) i errors
  = Ok (errors
        ++ concat (imap (fun k d =>
                           validate_entry py_str d
                             (dict_get d "title"
                                (PyUnicode ("entry " +:+ pretty (i + 1 + Z.of_nat k)))))
                     ds)).
Proof.
  revert i errors. induction ds as [|d ds IH]; intros i errors.
  - cbn [fmap list_fmap validate_entries imap concat]. rewrite app_nil_r. reflexivity.
  - cbn [fmap list_fmap validate_entries].
    rewrite IH, imap_cons. cbn [concat].
    rewrite <- app_assoc, first_place.
    apply (f_equal Ok). apply (f_equal (app errors)).
    apply (f_equal (app _)). apply (f_equal (@concat string)).
    apply imap_ext. intros k x _. unfold compose. rewrite next_place. reflexivity.
Qed.

Lemma validate_entries_non_dict (ds : list (gmap string pyval)) (entry : pyval)
    (rest : list pyval) (i : Z) (errors : list string) :
  (forall d, entry <> PyDict d) ->
  validate_entries py_str ((PyDict <$> ds) ++ entry :: rest) i errors = Raise AttributeError.
Proof.
  intros Hentry. revert i errors. induction ds as [|d ds IH]; intros i errors.
  - cbn [fmap list_fmap app validate_entries].
    destruct entry; try reflexivity. now destruct (Hentry d).
  - cbn [fmap list_fmap app validate_entries]. apply IH.
Qed.

End ValidateFacts.

(** C2.  What [validate] does: data that is not a list gives the one
    message about the top-level structure; a list of dictionaries gives the
    errors of its entries, all of them, in order; a list with an entry that
    is not a dictionary raises [AttributeError] at that entry, the message
    written for it and the errors found before it being lost, as on the
    list whose one entry is the number 1. *)
Theorem validate_outcomes (py_str : pyval -> string) (filename : string) :
  (forall d : pyval,
     (forall l, d <> PyList l) ->
     validate py_str (mkActivities filename d)
     = Ok ["Top-level data structure is not a list."])
  /\ (forall ds : list (gmap string pyval),
        validate py_str (mkActivities filename (PyList (PyDict <$> ds)))
        = Ok (concat (imap (fun k d =>
                              validate_entry py_str d
                                (dict_get d "title"
                                   (PyUnicode ("entry " +:+ pretty (0 + 1 + Z.of_nat k)))))
                        ds)))
  /\ (forall (ds : list (gmap string pyval)) (entry : pyval) (rest : list pyval),
        (forall d, entry <> PyDict d) ->
        validate py_str (mkActivities filename (PyList ((PyDict <$> ds) ++ entry :: rest)))
        = Raise AttributeError)
  /\ validate py_str (mkActivities filename (PyList [PyInt 1])) = Raise AttributeError.
Proof.
  split; [|split; [|split]].
  - intros d Hd. unfold validate. cbn [data].
    destruct d; try reflexivity. now destruct (Hd l).
  - intros ds. unfold validate. cbn [data]. rewrite validate_entries_dicts. reflexivity.
  - intros ds entry rest Hentry. now apply validate_entries_non_dict.
  - reflexivity.
Qed.

(** * Further properties *)

(** ** More on validate_entry *)

(** A value that a row of the table lets through: text for a text or a URL,
    an [int] (a [bool] is one) for an integer, one of the listed texts for
    an enumeration. *)
Definition accepted_value (t : value_type) (v : pyval) : Prop :=
  match t, v with
  | (StringType | UrlType), PyUnicode _ => True
  | IntType, (PyInt _ | PyBool _) => True
  | OneOf values, PyUnicode s => s ∈ values
  | _, _ => False
  end.

(** A field as its row wants it: absent or [None] when the row does not
    require it, an accepted value otherwise. *)
Definition accepted_field (required : bool) (t : value_type) (v : option pyval) : Prop :=
  match v with
  | None | Some PyNone => required = false
  | Some v => accepted_value t v
  end.

(** A record in which [validate_entry] finds nothing *)
Definition accepted_record (r : gmap string pyval) : Prop :=
  (forall name, is_Some (r !! name) -> recognized name)
  /\ (forall name required t,
        (name, required, t) ∈ expected_entry_items ->
        accepted_field required t (r !! name)).

(** What a row says of a field it does not accept *)
Definition row_message (title name : string) (t : value_type) (v : option pyval) : string :=
  match v with
  | None | Some PyNone => title +:+ " doesn't have required member " +:+ name
  | Some _ =>
      match t with
      | UrlType => title +:+ "'s " +:+ name +:+ " isn't a URL string."
      | StringType | IntType => title +:+ "'s " +:+ name +:+ " isn't a " +:+ type_str t
      | OneOf values =>
          title +:+ "'s " +:+ name +:+ " isn't one of [" +:+ Str.join ", " values +:+ "]"
      end
  end.

Section RowFacts.

Variable py_str : pyval -> string.

Lemma py_in_other (v : pyval) (l : list string) :
  (forall s, v <> PyUnicode s) -> py_in v (PyUnicode <$> l) = false.
Proof.
  intros Hv. unfold py_in. induction l as [|x l IH]; [reflexivity|].
  cbn [fmap list_fmap existsb]. rewrite IH, orb_false_r.
  destruct v; try reflexivity. now destruct (Hv s).
Qed.

Lemma py_in_texts (v : pyval) (l : list string) :
  py_in v (PyUnicode <$> l) = true <-> exists s, v = PyUnicode s /\ s ∈ l.
Proof.
  destruct v as [| | | | |s| |];
    try (rewrite py_in_other by discriminate;
         split; [discriminate | intros (s & Hs & _); discriminate Hs]).
  rewrite UniqueFacts.py_in_text. split.
  - intros H. now exists s.
  - now intros (s' & [= ->] & H).
Qed.

Lemma accepted_value_dec (t : value_type) (v : pyval) :
  v <> PyNone ->
  (match t with
   | UrlType => isinstance v StringType
   | StringType | IntType => isinstance v t
   | OneOf values => py_in v (PyUnicode <$> values)
   end = true) <-> accepted_value t v.
Proof.
  intros Hv. destruct t as [| | |values].
  1-3: destruct v; cbn; split; try tauto; try discriminate.
  rewrite py_in_texts. destruct v; cbn; split; try tauto;
    try (intros (s & Hs & _); discriminate Hs).
  - now intros (s' & [= ->] & H).
  - intros H. now exists s.
Qed.

(** The errors of one row, on a record without unrecognized members *)
Lemma validate_item_row (r : gmap string pyval) (title : pyval)
    (name : string) (required : bool) (t : value_type) :
  (forall name, is_Some (r !! name) -> recognized name) ->
  (accepted_field required t (r !! name)
   /\ validate_item py_str r title [] (name, required, t) = [])
  \/ (~ accepted_field required t (r !! name)
      /\ validate_item py_str r title [] (name, required, t)
         = [row_message (format_s py_str title) name t (r !! name)]).
Proof.
  intros Hrec. unfold validate_item. rewrite (no_extra_items r Hrec).
  rewrite bool_decide_eq_false_2 by (intros H; now apply H).
  unfold dict_get.
  destruct (r !! name) as [v|].
  2:{ destruct required; cbn [andb is_none]; [right | left]; split;
        try reflexivity; discriminate. }
  destruct (is_none v) eqn:Hnone.
  { assert (v = PyNone) as -> by (destruct v; try discriminate; reflexivity).
    destruct required; cbn [andb]; [right | left]; split;
      try reflexivity; discriminate. }
  assert (Hv : v <> PyNone) by (intros ->; discriminate).
  rewrite andb_false_r.
  assert (Hfield : accepted_field required t (Some v) <-> accepted_value t v).
  { unfold accepted_field. destruct v; try reflexivity. now destruct Hv. }
  assert (Hmessage :
    row_message (format_s py_str title) name t (Some v)
    = match t with
      | UrlType => format_s py_str title +:+ "'s " +:+ name +:+ " isn't a URL string."
      | OneOf values =>
          format_s py_str title +:+ "'s " +:+ name +:+ " isn't one of ["
            +:+ Str.join ", " values +:+ "]"
      | _ => format_s py_str title +:+ "'s " +:+ name +:+ " isn't a " +:+ type_str t
      end).
  { unfold row_message. destruct v; try reflexivity. now destruct Hv. }
  rewrite Hfield, Hmessage. clear Hfield Hmessage.
  pose proof (accepted_value_dec t v Hv) as Hdec.
  destruct t as [| | |values];
    match type of Hdec with
    | ?b = true <-> _ => destruct b eqn:Eb; cbn [negb]
    end;
    [left | right | left | right | left | right | left | right];
    (split; [|reflexivity]);
    first [ apply Hdec; reflexivity | intros H; apply Hdec in H; discriminate H ].
Qed.

(** A row reports the unrecognized members after the errors of its field. *)
Lemma validate_item_stages (r r' : gmap string pyval) (title : pyval)
    (name : string) (required : bool) (t : value_type) :
  r' !! name = r !! name ->
  (forall name, is_Some (r !! name) -> recognized name) ->
  validate_item py_str r' title [] (name, required, t)
  = validate_item py_str r title [] (name, required, t)
    ++ (if bool_decide (dom r' ∖ list_to_set (item_name <$> expected_entry_items)
                        ≠ (∅ : gset string))
        then [format_s py_str title +:+ " includes unrecoginsed members: "
                +:+ Str.join " "
                      (elements (dom r' ∖ list_to_set (item_name <$> expected_entry_items)
                                 : gset string))]
        else []).
Proof.
  intros Hlookup Hrec. unfold validate_item at 2. rewrite (no_extra_items r Hrec).
  rewrite (bool_decide_eq_false_2 (∅ ≠ ∅)) by (intros H; now apply H).
  unfold validate_item, dict_get. rewrite Hlookup.
  repeat case_match; rewrite ?app_nil_r, ?app_nil_l; reflexivity.
Qed.

Lemma validate_item_no_extras (r : gmap string pyval) (title : pyval)
    (item : string * bool * value_type) :
  validate_item py_str r title [] item = [] ->
  forall name, is_Some (r !! name) -> recognized name.
Proof.
  destruct item as [[n required] t]. unfold validate_item.
  destruct (bool_decide_reflect
              (dom r ∖ list_to_set (item_name <$> expected_entry_items) ≠ (∅ : gset string)))
    as [Hextra|Hnone].
  - intros H. now apply app_nil in H as [_ H].
  - intros _ name Hname. unfold recognized.
    destruct (decide (name ∈ item_name <$> expected_entry_items)) as [Hin|Hout];
      [exact Hin|].
    destruct Hnone. intros Hempty.
    assert (Hname' : name ∈ dom r ∖ list_to_set (item_name <$> expected_entry_items))
      by (rewrite elem_of_difference, elem_of_dom, elem_of_list_to_set; now split).
    rewrite Hempty in Hname'. now apply not_elem_of_empty in Hname'.
Qed.

(** One row of the table bears the name, so that one list of messages is
    all there is when the other rows have none. *)
Lemma concat_single_row (name : string) (messages : list string)
    (items : list (string * bool * value_type)) :
  NoDup (item_name <$> items) ->
  name ∈ item_name <$> items ->
  concat ((fun item => if decide (item_name item = name) then messages else []) <$> items)
  = messages.
Proof.
  induction items as [|item items IH]; intros Hnodup Hin.
  - now apply elem_of_nil in Hin.
  - cbn [fmap list_fmap concat] in *. apply NoDup_cons in Hnodup as [Hfresh Hnodup].
    destruct (decide (item_name item = name)) as [Heq|Hne].
    + rewrite Heq in Hfresh.
      assert (Hrest : concat ((fun item => if decide (item_name item = name)
                                           then messages else []) <$> items) = []).
      { clear -Hfresh. induction items as [|x items IH]; [reflexivity|].
        cbn [fmap list_fmap concat] in *. apply not_elem_of_cons in Hfresh as [Hx Hfresh].
        destruct (decide (item_name x = name)); [congruence|]. now apply IH. }
      rewrite Hrest. apply app_nil_r.
    + apply elem_of_cons in Hin as [Hin|Hin]; [congruence|]. now apply IH.
Qed.

Lemma row_unique (name : string) (required required' : bool) (t t' : value_type) :
  (name, required, t) ∈ expected_entry_items ->
  (name, required', t') ∈ expected_entry_items ->
  required = required' /\ t = t'.
Proof.
  intros Hin Hin'.
  apply list_elem_of_lookup in Hin as [i Hi].
  apply list_elem_of_lookup in Hin' as [j Hj].
  assert (i = j).
  { apply (NoDup_lookup _ i j name names_NoDup);
      rewrite list_lookup_fmap; [rewrite Hi | rewrite Hj]; reflexivity. }
  subst j. rewrite Hi in Hj. now injection Hj as -> ->.
Qed.

End RowFacts.

Lemma validate_entry_nil
    (py_str : pyval -> string) (r : gmap string pyval) (title : pyval) :
  validate_entry py_str r title = [] <-> accepted_record r.
Proof.
  rewrite validate_entry_concat. split.
  - intros Hnil.
    assert (Hrows : forall item, item ∈ expected_entry_items ->
               validate_item py_str r (shown_title title) [] item = []).
    { intros item Hitem. apply list_elem_of_fmap_2 with (f := validate_item py_str r (shown_title title) []) in Hitem.
      revert Hitem. generalize (validate_item py_str r (shown_title title) [] item).
      revert Hnil.
      generalize (validate_item py_str r (shown_title title) [] <$> expected_entry_items).
      intros ls. induction ls as [|x ls IH]; intros Hnil l Hl.
      - now apply elem_of_nil in Hl.
      - cbn [concat] in Hnil. apply app_nil in Hnil as [Hx Hls].
        apply elem_of_cons in Hl as [->|Hl]; [exact Hx | now apply IH]. }
    assert (Hrec : forall name, is_Some (r !! name) -> recognized name).
    { apply (validate_item_no_extras py_str r (shown_title title)
               ("cui_name", false, StringType)).
      apply Hrows. apply list_elem_of_here. }
    split; [exact Hrec|].
    intros name required t Hin.
    destruct (validate_item_row py_str r (shown_title title) name required t Hrec)
      as [[Hok _]|[_ Hbad]]; [exact Hok|].
    rewrite (Hrows _ Hin) in Hbad. discriminate Hbad.
  - intros [Hrec Hfields].
    assert (Hall : forall items,
               (forall item, item ∈ items -> item ∈ expected_entry_items) ->
               concat (validate_item py_str r (shown_title title) [] <$> items) = []).
    { induction items as [|[[n req] t] items IH]; intros Hsub; [reflexivity|].
      cbn [fmap list_fmap concat].
      destruct (validate_item_row py_str r (shown_title title) n req t Hrec)
        as [[_ ->]|[Hbad _]].
      - apply IH. intros item Hitem. apply Hsub. now apply list_elem_of_further.
      - destruct Hbad. apply Hfields, Hsub, list_elem_of_here. }
    apply Hall. auto.
Qed.

Lemma valid_accepted (r : gmap string pyval) : valid_record r -> accepted_record r.
Proof.
  intros [Hrec Hfields]. split; [exact Hrec|].
  intros name required t Hin. specialize (Hfields name required t Hin).
  unfold accepted_field. destruct (r !! name) as [x|]; [|exact Hfields].
  destruct t, x; cbn in Hfields |- *; try contradiction; exact Hfields.
Qed.

(** X1.  [validate_entry] returns the empty list exactly for the records
    that have no member outside the table and, in every row, a field that
    is absent or [None] when the row does not require it and an accepted
    value otherwise; the title given for the messages plays no part. *)
Theorem validate_entry_accepts
    (py_str : pyval -> string) (r : gmap string pyval) (title : pyval) :
  validate_entry py_str r title = [] <-> accepted_record r.
Proof. apply validate_entry_nil. Qed.

(** X2.  With one value that its row does not accept put in a field of an
    accepted record, [validate_entry] returns one message, the one of that
    row: the field is a required member that the record does not have when
    the value is [None], and is not of the kind of the row otherwise. *)
Theorem validate_entry_one_field
    (py_str : pyval -> string) (r : gmap string pyval) (title : pyval)
    (name : string) (required : bool) (t : value_type) (v : pyval) :
  accepted_record r ->
  (name, required, t) ∈ expected_entry_items ->
  ~ accepted_field required t (Some v) ->
  validate_entry py_str (<[name := v]> r) title
  = [row_message (format_s py_str (shown_title title)) name t (Some v)].
Proof.
  intros [Hrec Hfields] Hrow Hbad.
  assert (Hname : recognized name).
  { unfold recognized. apply list_elem_of_fmap. now exists (name, required, t). }
  assert (Hrec' : forall n, is_Some (<[name := v]> r !! n) -> recognized n).
  { intros n [x Hx]. apply lookup_insert_Some in Hx as [[<- _]|[_ Hx]]; [exact Hname|].
    apply Hrec. now exists x. }
  rewrite validate_entry_concat.
  set (message := row_message (format_s py_str (shown_title title)) name t (Some v)).
  rewrite (list_fmap_ext _ (fun item => if decide (item_name item = name)
                                        then [message] else []) expected_entry_items).
  - apply concat_single_row; [apply names_NoDup | exact Hname].
  - intros i [[n req] t'] Hi. apply list_elem_of_lookup_2 in Hi.
    cbn [item_name fst]. destruct (decide (n = name)) as [->|Hne].
    + destruct (row_unique _ _ _ _ _ Hi Hrow) as [-> ->].
      destruct (validate_item_row py_str (<[name := v]> r) (shown_title title)
                  name required t Hrec') as [[Hok _]|[_ Hmessage]].
      * rewrite lookup_insert_eq in Hok. contradiction.
      * rewrite lookup_insert_eq in Hmessage. exact Hmessage.
    + destruct (validate_item_row py_str (<[name := v]> r) (shown_title title)
                  n req t' Hrec') as [[_ Hnil]|[Hno _]]; [exact Hnil|].
      destruct Hno. rewrite lookup_insert_ne by congruence. now apply Hfields.
Qed.

Lemma validate_entry_one_field_witness :
  validate_entry (fun _ => "") (<["mozPositionIssue" := PyLong 18446744073709551616]> position_record)
    (PyUnicode "Web Foo")
  = ["Web Foo's mozPositionIssue isn't a <type 'int'>"].
Proof.
  apply (validate_entry_one_field (fun _ => "") position_record (PyUnicode "Web Foo")
           "mozPositionIssue" false IntType (PyLong 18446744073709551616)).
  - exact (valid_accepted _ position_record_valid).
  - now repeat constructor.
  - intros H. exact H.
Defined.

(** X3.  A member that the table does not name is reported once for every
    row of the table: put in an accepted record, whatever its value, it
    makes [validate_entry] return eleven times the message that names it. *)
Theorem validate_entry_unrecognized
    (py_str : pyval -> string) (r : gmap string pyval) (title : pyval)
    (key : string) (v : pyval) :
  accepted_record r ->
  ~ recognized key ->
  validate_entry py_str (<[key := v]> r) title
  = replicate 11 (format_s py_str (shown_title title)
                    +:+ " includes unrecoginsed members: " +:+ key).
Proof.
  intros [Hrec Hfields] Hkey.
  assert (Hextra : dom (<[key := v]> r) ∖ list_to_set (item_name <$> expected_entry_items)
                   = ({[key]} : gset string)).
  { apply set_eq. intros n.
    rewrite elem_of_difference, dom_insert, elem_of_union, !elem_of_singleton,
      elem_of_dom, elem_of_list_to_set.
    split.
    - intros [[->|Hn] Hout]; [reflexivity|]. destruct Hout. now apply Hrec.
    - intros ->. split; [now left | exact Hkey]. }
  rewrite validate_entry_concat.
  set (message := format_s py_str (shown_title title)
                    +:+ " includes unrecoginsed members: " +:+ key).
  rewrite (list_fmap_ext _ (fun _ => [message]) expected_entry_items); [reflexivity|].
  intros i [[n req] t] Hi. apply list_elem_of_lookup_2 in Hi.
  assert (Hn : n <> key).
  { intros ->. apply Hkey. unfold recognized. apply list_elem_of_fmap.
    now exists (key, req, t). }
  rewrite (validate_item_stages py_str r (<[key := v]> r) _ n req t
             ltac:(rewrite lookup_insert_ne by congruence; reflexivity) Hrec).
  destruct (validate_item_row py_str r (shown_title title) n req t Hrec)
    as [[_ ->]|[Hbad _]]; [|destruct Hbad; now apply Hfields].
  rewrite Hextra. rewrite bool_decide_eq_true_2.
  - rewrite elements_singleton. reflexivity.
  - intros H. apply (not_elem_of_empty (C:=gset string) key). rewrite <- H.
    now apply elem_of_singleton.
Qed.

Lemma validate_entry_unrecognized_witness :
  validate_entry (fun _ => "") (<["cuiName" := PyNone]> position_record) PyNone
  = replicate 11 "Entry includes unrecoginsed members: cuiName".
Proof.
  apply (validate_entry_unrecognized (fun _ => "") position_record PyNone "cuiName" PyNone).
  - exact (valid_accepted _ position_record_valid).
  - unfold recognized. intros H.
    repeat (apply elem_of_cons in H as [H|H]; [discriminate H|]).
    now apply elem_of_nil in H.
Defined.

(** ** More on validate, append and entry_unique *)

Module StoreFacts.

Lemma dicts_or_not (l : list pyval) :
  (exists ds : list (gmap string pyval), l = PyDict <$> ds)
  \/ (exists (ds : list (gmap string pyval)) (entry : pyval) (rest : list pyval),
        l = (PyDict <$> ds) ++ entry :: rest /\ forall d, entry <> PyDict d).
Proof.
  induction l as [|x l IH].
  - left. now exists [].
  - destruct x as [|b|n|n|f|s|l0|d];
      try (right; exists []; eexists; exists l; split; [reflexivity | discriminate]).
    destruct IH as [[ds ->]|(ds & entry & rest & -> & Hentry)].
    + left. now exists (d :: ds).
    + right. exists (d :: ds), entry, rest. now split.
Qed.

Lemma concat_imap_nil {A B : Type} (f : nat -> A -> list B) (l : list A) :
  concat (imap f l) = [] <-> forall k x, l !! k = Some x -> f k x = [].
Proof.
  revert f. induction l as [|a l IH]; intros f.
  - split; [intros _ k x Hk; discriminate Hk | reflexivity].
  - rewrite imap_cons. cbn [concat]. split.
    + intros [Ha Hl]%app_nil k x Hk. destruct k as [|k].
      * now injection Hk as <-.
      * apply (proj1 (IH (f ∘ S)) Hl k x Hk).
    + intros Hall. rewrite (Hall 0%nat a eq_refl). cbn [app].
      apply IH. intros k x Hk. apply (Hall (S k) x Hk).
Qed.

Section Store.

Variable py_str : pyval -> string.

(** [validate] finds nothing exactly in a list of accepted dictionaries. *)
Lemma validate_nil (self : ActivitiesJson) :
  validate py_str self = Ok []
  <-> exists ds : list (gmap string pyval),
        data self = PyList (PyDict <$> ds) /\ Forall accepted_record ds.
Proof.
  unfold validate. split.
  - destruct (data self) as [| | | | | |l|]; try discriminate.
    destruct (dicts_or_not l) as [[ds ->]|(ds & entry & rest & -> & Hentry)].
    + rewrite validate_entries_dicts. intros [= Hnil]. exists ds. split; [reflexivity|].
      apply Forall_lookup. intros k d Hk.
      apply (proj1 (concat_imap_nil _ ds)) with (k := k) (x := d) in Hnil; [|exact Hk].
      now apply validate_entry_nil in Hnil.
    + now rewrite validate_entries_non_dict.
  - intros (ds & -> & Hall). rewrite validate_entries_dicts. f_equal.
    apply concat_imap_nil. intros k d Hk.
    apply validate_entry_nil. now apply (proj1 (Forall_lookup _ ds) Hall k d).
Qed.

(** [append] adds the entry at the end of the list exactly when
    [validate_entry] accepts it. *)
Lemma append_Ok (self self' : ActivitiesJson) (entry : gmap string pyval) :
  append py_str self entry = Ok self'
  <-> accepted_record entry
      /\ exists l, data self = PyList l
                   /\ self' = mkActivities (filename self) (PyList (l ++ [PyDict entry])).
Proof.
  unfold append. split.
  - destruct (validate_entry py_str entry PyNone) eqn:Hvalid; [|discriminate].
    apply validate_entry_nil in Hvalid.
    destruct (data self) as [| | | | | |l|]; try discriminate.
    intros [= <-]. split; [exact Hvalid|]. now exists l.
  - intros [Haccepted (l & Hdata & ->)].
    apply (validate_entry_nil py_str entry PyNone) in Haccepted.
    now rewrite Haccepted, Hdata.
Qed.

(** An accepted record has a text title and a text url. *)
Lemma accepted_text_fields (r : gmap string pyval) :
  accepted_record r ->
  is_Some (text_field "title" (PyDict r)) /\ is_Some (text_field "url" (PyDict r)).
Proof.
  intros [_ Hfields]. unfold text_field. split.
  - assert (Hrow : ("title", true, StringType) ∈ expected_entry_items)
      by now repeat constructor.
    specialize (Hfields _ _ _ Hrow). unfold accepted_field in Hfields.
    destruct (r !! "title") as [[]|]; cbn in Hfields; try contradiction;
      try discriminate. now eexists.
  - assert (Hrow : ("url", true, UrlType) ∈ expected_entry_items)
      by now repeat constructor.
    specialize (Hfields _ _ _ Hrow). unfold accepted_field in Hfields.
    destruct (r !! "url") as [[]|]; cbn in Hfields; try contradiction;
      try discriminate. now eexists.
Qed.

(** What [entry_unique] does on a store of entries with a text title and
    a text url, for a candidate with a text title and a text url *)
Lemma entry_unique_run (self : ActivitiesJson) (entries : list pyval)
    (candidate : gmap string pyval) (title url : string) :
  data self = PyList entries ->
  (forall e, e ∈ entries ->
     is_Some (text_field "title" e) /\ is_Some (text_field "url" e)) ->
  candidate !! "title" = Some (PyUnicode title) ->
  candidate !! "url" = Some (PyUnicode url) ->
  entry_unique py_str self candidate
  = if bool_decide (Some (normalized title)
                    ∈ (fun e => normalized <$> text_field "title" e) <$> entries)
    then Raise (ValueError (inr [filename self +:+ " already contains " +:+ title]))
    else if bool_decide (Some url ∈ text_field "url" <$> entries)
    then Raise (ValueError (inr [filename self +:+ " already contains " +:+ url]))
    else Ok self.
Proof.
  intros Hdata Hentries Htitle Hurl.
  unfold entry_unique, py_getitem. rewrite Htitle, Hurl, Hdata.
  cbn [mbind result_bind bind py_lower py_iter].
  rewrite (UniqueFacts.comprehension_map _
             (fun e => normalized (default "" (text_field "title" e)))).
  2:{ intros e He. destruct (Hentries e He) as [[t Ht] _].
      rewrite Ht. now apply UniqueFacts.title_of_entry. }
  cbn [mbind result_bind bind]. fold (normalized title).
  assert (Htitles :
    normalized title ∈ (fun e => normalized (default "" (text_field "title" e))) <$> entries
    <-> Some (normalized title)
        ∈ (fun e => normalized <$> text_field "title" e) <$> entries).
  { rewrite !list_elem_of_fmap. split; intros (e & Heq & He); exists e; (split; [|exact He]);
      destruct (Hentries e He) as [[t Ht] _]; rewrite Ht in Heq |- *;
      change (default "" (Some t)) with t in *;
      change (normalized <$> Some t) with (Some (normalized t)) in *; congruence. }
  rewrite (bool_decide_ext _ _ Htitles).
  destruct (bool_decide (Some (normalized title) ∈ _)); [reflexivity|].
  rewrite (UniqueFacts.comprehension_map _
             (fun e => PyUnicode (default "" (text_field "url" e)))).
  2:{ intros e He. destruct (Hentries e He) as [_ [u Hu]].
      rewrite Hu. now apply UniqueFacts.url_of_entry. }
  cbn [mbind result_bind bind].
  assert (Hurls :
    py_in (PyUnicode url)
      ((fun e => PyUnicode (default "" (text_field "url" e))) <$> entries)
    = bool_decide (Some url ∈ text_field "url" <$> entries)).
  { change ((fun e => PyUnicode (default "" (text_field "url" e))) <$> entries)
      with ((PyUnicode ∘ (fun e => default "" (text_field "url" e))) <$> entries).
    rewrite list_fmap_compose.
    apply eq_true_iff_eq. rewrite UniqueFacts.py_in_text, bool_decide_eq_true.
    rewrite !list_elem_of_fmap. split; intros (e & Heq & He); exists e; (split; [|exact He]);
      destruct (Hentries e He) as [_ [u Hu]]; rewrite Hu in Heq |- *;
      change (default "" (Some u)) with u in *; congruence. }
  now rewrite Hurls.
Qed.

End Store.

End StoreFacts.

(** X4.  [validate] returns the empty list exactly when the data is a list
    of dictionaries each of which [validate_entry] accepts. *)
Theorem validate_accepts (py_str : pyval -> string) (self : ActivitiesJson) :
  validate py_str self = Ok []
  <-> exists ds : list (gmap string pyval),
        data self = PyList (PyDict <$> ds) /\ Forall accepted_record ds.
Proof. apply StoreFacts.validate_nil. Qed.

(** X5.  [append] stores an entry exactly when [validate_entry] accepts it
    and the data is a list: the entry then comes last and the entries
    before it are as they were.  An entry that is not accepted raises
    [ValueError] with the messages of [validate_entry], whatever the store
    is. *)
Theorem append_accepts
    (py_str : pyval -> string) (self : ActivitiesJson) (entry : gmap string pyval) :
  (forall self' : ActivitiesJson,
     append py_str self entry = Ok self'
     <-> accepted_record entry
         /\ exists l, data self = PyList l
                      /\ self' = mkActivities (filename self) (PyList (l ++ [PyDict entry])))
  /\ (~ accepted_record entry ->
      append py_str self entry
      = Raise (ValueError (inr (validate_entry py_str entry PyNone)))).
Proof.
  split; [intros self'; apply StoreFacts.append_Ok|].
  intros Hbad. unfold append.
  destruct (validate_entry py_str entry PyNone) eqn:Hvalid; [|reflexivity].
  destruct Hbad. now apply (validate_entry_nil py_str entry PyNone).
Qed.

(** X6.  [append] keeps a store valid: when [validate] finds nothing in the
    store and [append] returns, [validate] finds nothing in the new
    store. *)
Theorem append_keeps_valid
    (py_str : pyval -> string) (self self' : ActivitiesJson) (entry : gmap string pyval) :
  validate py_str self = Ok [] ->
  append py_str self entry = Ok self' ->
  validate py_str self' = Ok [].
Proof.
  intros Hvalid Happend.
  apply StoreFacts.validate_nil in Hvalid as (ds & Hdata & Hall).
  apply StoreFacts.append_Ok in Happend as [Hentry (l & Hdata' & ->)].
  rewrite Hdata in Hdata'. injection Hdata' as <-.
  apply StoreFacts.validate_nil. exists (ds ++ [entry]). split.
  - cbn [data]. now rewrite fmap_app.
  - apply Forall_app. split; [exact Hall | now constructor].
Qed.

Lemma append_keeps_valid_witness :
  validate (fun _ => "")
    (mkActivities "activities.json" (PyList [PyDict position_record; PyDict position_record]))
  = Ok [].
Proof.
  apply (append_keeps_valid (fun _ => "")
           (mkActivities "activities.json" (PyList [PyDict position_record]))
           _ position_record); reflexivity.
Defined.

(** The urls of the entries, and their normalized titles *)
Definition urls_of (entries : list pyval) : list (option string) :=
  text_field "url" <$> entries.

Definition titles_of (entries : list pyval) : list (option string) :=
  (fun e => normalized <$> text_field "title" e) <$> entries.

(** X7.  The check and the addition together keep the entries apart: in a
    store in which [validate] finds nothing and no two entries have the
    same url or the same normalized title, an entry that passes
    [entry_unique] and is then stored by [append] leaves a store in which
    still no two entries have the same url or the same normalized title. *)
Theorem unique_append_keeps_distinct
    (py_str : pyval -> string) (self checked self' : ActivitiesJson)
    (entry : gmap string pyval) (entries : list pyval) :
  validate py_str self = Ok [] ->
  data self = PyList entries ->
  NoDup (urls_of entries) ->
  NoDup (titles_of entries) ->
  entry_unique py_str self entry = Ok checked ->
  append py_str self entry = Ok self' ->
  checked = self
  /\ data self' = PyList (entries ++ [PyDict entry])
  /\ NoDup (urls_of (entries ++ [PyDict entry]))
  /\ NoDup (titles_of (entries ++ [PyDict entry])).
Proof.
  intros Hvalid Hdata Hurls Htitles Hunique Happend.
  apply StoreFacts.validate_nil in Hvalid as (ds & Hds & Hall).
  rewrite Hdata in Hds. injection Hds as ->.
  apply StoreFacts.append_Ok in Happend as [Hentry (l & Hdata' & ->)].
  rewrite Hdata in Hdata'. injection Hdata' as <-.
  destruct (StoreFacts.accepted_text_fields entry Hentry) as [[t Ht] [u Hu]].
  assert (Htitle : entry !! "title" = Some (PyUnicode t)).
  { unfold text_field in Ht. destruct (entry !! "title") as [[]|]; congruence. }
  assert (Hurl : entry !! "url" = Some (PyUnicode u)).
  { unfold text_field in Hu. destruct (entry !! "url") as [[]|]; congruence. }
  rewrite (StoreFacts.entry_unique_run py_str self (PyDict <$> ds) entry t u
             Hdata) in Hunique; [| |exact Htitle|exact Hurl].
  2:{ intros e He. apply list_elem_of_fmap in He as (d & -> & Hd).
      apply StoreFacts.accepted_text_fields.
      now apply (proj1 (Forall_forall _ ds) Hall). }
  destruct (bool_decide_reflect
              (Some (normalized t)
               ∈ (fun e => normalized <$> text_field "title" e) <$> (PyDict <$> ds)))
    as [|Hfresh_title]; [discriminate|].
  destruct (bool_decide_reflect (Some u ∈ text_field "url" <$> (PyDict <$> ds)))
    as [|Hfresh_url]; [discriminate|].
  injection Hunique as <-.
  split; [reflexivity|]. split; [reflexivity|].
  unfold urls_of, titles_of in *. rewrite !fmap_app. cbn [fmap list_fmap].
  rewrite Ht, Hu. cbn [fmap option_fmap option_map].
  split; apply NoDup_app; (split; [assumption|]);
    (split; [|apply NoDup_singleton]);
    intros x Hx Hx'; apply list_elem_of_singleton in Hx'; subst x; contradiction.
Qed.

Lemma unique_append_keeps_distinct_witness :
  NoDup (urls_of ([PyDict position_record]
                  ++ [PyDict (<["url" := PyUnicode "https://www.w3.org/TR/bar"]>
                                (<["title" := PyUnicode "Web Bar"]> position_record))]))
  /\ NoDup (titles_of ([PyDict position_record]
                       ++ [PyDict (<["url" := PyUnicode "https://www.w3.org/TR/bar"]>
                                     (<["title" := PyUnicode "Web Bar"]> position_record))])).
Proof.
  apply (unique_append_keeps_distinct (fun _ => "")
           (mkActivities "activities.json" (PyList [PyDict position_record]))
           (mkActivities "activities.json" (PyList [PyDict position_record]))
           (mkActivities "activities.json"
              (PyList ([PyDict position_record]
                       ++ [PyDict (<["url" := PyUnicode "https://www.w3.org/TR/bar"]>
                                     (<["title" := PyUnicode "Web Bar"]> position_record))])))
           (<["url" := PyUnicode "https://www.w3.org/TR/bar"]>
              (<["title" := PyUnicode "Web Bar"]> position_record))
           [PyDict position_record]);
    first [reflexivity | now repeat constructor].
Defined.

(** ** The entry of a parsed specification *)

Module EntryFacts.

Lemma W3C_parse_Ok (org : string) (spec : node) (url_string : string)
    (data : gmap string pyval) :
  W3C_parse org spec url_string = Ok data ->
  exists url title description, data = W3C_data url org title description.
Proof.
  unfold W3C_parse. destruct (Soup.select refresh_meta spec) as [|r refresh].
  - intros H.
    apply bind_Ok_inv in H as (this_url & _ & H).
    apply bind_Ok_inv in H as (latest_url & _ & H).
    apply bind_Ok_inv in H as (ed_url & _ & H).
    apply bind_Ok_inv in H as (url & _ & H).
    apply bind_Ok_inv in H as (title & _ & H).
    apply bind_Ok_inv in H as (description & _ & H).
    injection H as <-. now exists url, title, description.
  - intros H.
    apply bind_Ok_inv in H as (content & _ & H).
    apply bind_Ok_inv in H as (after & _ & H).
    apply bind_Ok_inv in H as (target & _ & H).
    discriminate H.
Qed.


(** The members of the entry that [SpecEntry] builds from what a parser
    returns *)
Lemma entry_members (url org : string) (title : option string) (description : string)
    (name : string) :
  is_Some ((W3C_data url org title description ∪ SpecEntry_data) !! name) ->
  name ∈ ["title"; "description"; "ciuName"; "org"; "url"; "mozBugUrl";
          "mozPositionIssue"; "mozPosition"; "mozPositionDetail"].
Proof.
  intros H. apply elem_of_dom in H. revert H.
  unfold W3C_data, SpecEntry_data.
  rewrite dom_union_L, !dom_insert_L, dom_empty_L, dom_list_to_map_L.
  cbn [fmap list_fmap fst list_to_set].
  rewrite !elem_of_union, !elem_of_singleton, !elem_of_cons, elem_of_nil.
  intros H. repeat destruct H as [H|H]; subst; tauto || (now apply not_elem_of_empty in H).
Qed.

Lemma entry_accepted (url org : string) (title : option string) (description : string) :
  accepted_record (W3C_data url org title description ∪ SpecEntry_data)
  <-> org ∈ ["W3C"; "IETF"; "Ecma"; "Other"] /\ is_Some title.
Proof.
  split.
  - intros [_ Hfields]. split.
    + assert (Hrow : ("org", true, OneOf ["W3C"; "IETF"; "Ecma"; "Other"])
                     ∈ expected_entry_items) by now repeat constructor.
      exact (Hfields _ _ _ Hrow).
    + assert (Hrow : ("title", true, StringType) ∈ expected_entry_items)
        by now repeat constructor.
      specialize (Hfields _ _ _ Hrow).
      destruct title; [now eexists | discriminate Hfields].
  - intros [Horg [t ->]]. split.
    + intros name Hname. apply entry_members in Hname. unfold recognized.
      repeat (apply elem_of_cons in Hname as [->|Hname]; [now repeat constructor|]).
      now apply elem_of_nil in Hname.
    + intros name required t' Hin. unfold expected_entry_items in Hin.
      repeat (apply elem_of_cons in Hin as [Heq|Hin];
              [injection Heq as -> -> ->;
               match goal with
               | |- accepted_field _ _ (?m !! ?k) =>
                   let v := eval vm_compute in (m !! k) in change (m !! k) with v
               end;
               first [exact I | exact Horg | exact eq_refl | now repeat constructor]|]).
      now apply elem_of_nil in Hin.
Qed.

Lemma elem_of_concat {A : Type} (x : A) (l : list A) (ls : list (list A)) :
  x ∈ l -> l ∈ ls -> x ∈ concat ls.
Proof.
  intros Hx. induction ls as [|l' ls IH]; intros Hl.
  - now apply elem_of_nil in Hl.
  - cbn [concat]. apply elem_of_app. apply elem_of_cons in Hl as [<-|Hl]; [now left|].
    right. now apply IH.
Qed.

End EntryFacts.



(** X9.  An entry of the WHATWG cannot be stored: the parser marks what it
    returns with the organisation "WHATWG", which the table does not list,
    so that [append] raises [ValueError] for the entry [SpecEntry] builds,
    with the message about the organisation among its messages, whatever
    the store is. *)
Theorem WHATWG_entry_rejected
    (py_str : pyval -> string) (spec : node) (url_string : string)
    (data : gmap string pyval) (self : ActivitiesJson) :
  parse WHATWGParser spec url_string = Ok data ->
  exists errors : list string,
    append py_str self (data ∪ SpecEntry_data) = Raise (ValueError (inr errors))
    /\ "Entry's org isn't one of [W3C, IETF, Ecma, Other]" ∈ errors.
Proof.
  cbn [parse]. intros Hparse.
  apply EntryFacts.W3C_parse_Ok in Hparse as (url & title & description & ->).
  set (entry := W3C_data url "WHATWG" title description ∪ SpecEntry_data).
  assert (Hbad : ~ accepted_record entry).
  { intros [Horg _]%EntryFacts.entry_accepted.
    repeat (apply elem_of_cons in Horg as [Horg|Horg]; [discriminate Horg|]).
    now apply elem_of_nil in Horg. }
  exists (validate_entry py_str entry PyNone). split.
  - unfold append.
    destruct (validate_entry py_str entry PyNone) eqn:Hvalid; [|reflexivity].
    destruct Hbad. now apply (validate_entry_nil py_str entry PyNone).
  - rewrite validate_entry_concat.
    assert (Hrec : forall name, is_Some (entry !! name) -> recognized name).
    { intros name Hname. apply EntryFacts.entry_members in Hname. unfold recognized.
      repeat (apply elem_of_cons in Hname as [->|Hname]; [now repeat constructor|]).
      now apply elem_of_nil in Hname. }
    apply (EntryFacts.elem_of_concat _
             (validate_item py_str entry (shown_title PyNone) []
                ("org", true, OneOf ["W3C"; "IETF"; "Ecma"; "Other"]))).
    + destruct (validate_item_row py_str entry (shown_title PyNone) "org" true
                  (OneOf ["W3C"; "IETF"; "Ecma"; "Other"]) Hrec) as [[Hok _]|[_ ->]].
      * exfalso.
        change (entry !! "org") with (Some (PyUnicode "WHATWG")) in Hok.
        cbn in Hok.
        repeat (apply elem_of_cons in Hok as [Hok|Hok]; [discriminate Hok|]).
        now apply elem_of_nil in Hok.
      * change (entry !! "org") with (Some (PyUnicode "WHATWG")).
        apply list_elem_of_singleton. reflexivity.
    + apply list_elem_of_fmap_2. now repeat constructor.
Qed.

Lemma WHATWG_entry_rejected_witness :
  exists errors : list string,
    append (fun _ => "") small_store
      (W3C_data "https://dom.spec.whatwg.org" "WHATWG" (Some "Foo")
         "A specification of foo." ∪ SpecEntry_data)
    = Raise (ValueError (inr errors))
    /\ "Entry's org isn't one of [W3C, IETF, Ecma, Other]" ∈ errors.
Proof.
  apply (WHATWG_entry_rejected (fun _ => "") (w3c_page [])
           "https://dom.spec.whatwg.org/").
  vm_compute. reflexivity.
Defined.

(** ** The fetch loop *)

(** X10.  Two pages that send the parser to each other are fetched without
    end: when the page of [a] makes the parser raise [BetterUrl] for [b]
    and the page of [b] makes it raise [BetterUrl] for [a], no number of
    fetches lets [fetch_spec_data] return, and [SpecEntry] builds no
    entry. *)
Theorem fetch_cycle_never_returns
    (requests_get : string -> Z * node) (p : parser) (a b : string) (page_a page_b : node) :
  requests_get a = (200, page_a) ->
  requests_get b = (200, page_b) ->
  parse p page_a a = Raise (BetterUrl b) ->
  parse p page_b b = Raise (BetterUrl a) ->
  forall fuel : nat,
    fetch_spec_data requests_get fuel p a = None
    /\ (figure_out_org a = Ok p -> SpecEntry requests_get fuel a = None).
Proof.
  intros Hget_a Hget_b Hparse_a Hparse_b.
  assert (Hboth : forall fuel,
             fetch_spec_data requests_get fuel p a = None
             /\ fetch_spec_data requests_get fuel p b = None).
  { induction fuel as [|fuel [IHa IHb]]; [now split|].
    cbn [fetch_spec_data]. rewrite Hget_a, Hget_b, Hparse_a, Hparse_b.
    cbn [Z.eqb Pos.eqb negb]. now split. }
  intros fuel. split; [apply Hboth|].
  intros Horg. unfold SpecEntry. rewrite Horg. now rewrite (proj1 (Hboth fuel)).
Qed.

Definition draft_of_published_page : node :=
  w3c_page (link_entry "This version:" "https://w3c.github.io/foo/"
            ++ link_entry "Latest version:" "https://www.w3.org/TR/foo/"
            ++ link_entry "Editor's Draft:" "https://w3c.github.io/foo/").

Definition w3c_web (url : string) : Z * node :=
  if String.eqb url "https://www.w3.org/TR/foo" then (200, dated_page)
  else if String.eqb url "https://w3c.github.io/foo" then (200, draft_of_published_page)
  else (404, document [] []).

Lemma fetch_cycle_never_returns_witness :
  fetch_spec_data w3c_web 1000 W3CParser "https://www.w3.org/TR/foo" = None
  /\ (figure_out_org "https://www.w3.org/TR/foo" = Ok W3CParser ->
      SpecEntry w3c_web 1000 "https://www.w3.org/TR/foo" = None).
Proof.
  apply (fetch_cycle_never_returns w3c_web W3CParser
           "https://www.w3.org/TR/foo" "https://w3c.github.io/foo"
           dated_page draft_of_published_page); reflexivity.
Defined.

(** X11.  A page of tools.ietf.org that is not under html, id or pdf makes
    the parser raise [FetchError], which [fetch_spec_data] catches without
    having a record to return: the call ends in [UnboundLocalError], and
    [SpecEntry], which exits on [FetchError] only, lets it through. *)
Theorem not_a_specification
    (requests_get : string -> Z * node) (url_string : string) (url : SplitResult)
    (first : string) (page : node) (fuel : nat) :
  urlsplit url_string = Ok url ->
  Str.lower (netloc url) = "tools.ietf.org" ->
  path_components_of url !! 1%nat = Some first ->
  first ∉ ["html"; "id"; "pdf"] ->
  requests_get url_string = (200, page) ->
  IETF_parse page url_string = Raise FetchError
  /\ SpecEntry requests_get (S fuel) url_string = Some (Raise UnboundLocalError).
Proof.
  intros Hsplit Hhost Hfirst Hother Hget.
  assert (Hparse : IETF_parse page url_string = Raise FetchError).
  { unfold IETF_parse. rewrite Hsplit. cbn [mbind result_bind bind].
    unfold IETF_redirect. rewrite Hhost, String.eqb_refl.
    assert (Hindex : index (path_components_of url) 1 = Ok first)
      by (unfold index; now rewrite Hfirst).
    rewrite Hindex. cbn [mbind result_bind bind].
    rewrite bool_decide_eq_false_2.
    2:{ intros Hin. apply Hother. apply list_elem_of_singleton in Hin as ->.
        apply list_elem_of_here. }
    rewrite bool_decide_eq_false_2; [reflexivity|].
    intros Hin. apply Hother. now apply list_elem_of_further. }
  split; [exact Hparse|].
  unfold SpecEntry, figure_out_org. rewrite Hsplit. cbn [mbind result_bind bind].
  rewrite Hhost. change (URL2ORG !! "tools.ietf.org") with (Some IETFParser).
  cbn [fetch_spec_data]. rewrite Hget. cbn [Z.eqb Pos.eqb negb parse].
  now rewrite Hparse.
Qed.

Lemma not_a_specification_witness :
  IETF_parse (document [] []) "https://tools.ietf.org/wg/httpbis/" = Raise FetchError
  /\ SpecEntry (fun _ => (200, document [] [])) 1 "https://tools.ietf.org/wg/httpbis/"
     = Some (Raise UnboundLocalError).
Proof.
  apply (not_a_specification (fun _ => (200, document [] []))
           "https://tools.ietf.org/wg/httpbis/"
           (mkSplit "https" "tools.ietf.org" "/wg/httpbis/" "" "") "wg"
           (document [] []) 0%nat); try reflexivity.
  intros H. repeat (apply elem_of_cons in H as [H|H]; [discriminate H|]).
  now apply elem_of_nil in H.
Defined.

(** ** What the parsers raise *)

Lemma bind_Raise_inv {A B : Type} (r : result A) (k : A -> result B) (e : exn) :
  r ≫= k = Raise e -> r = Raise e \/ exists a, r = Ok a /\ k a = Raise e.
Proof.
  destruct r as [a|e']; cbn [mbind result_bind bind].
  - intros H. right. now exists a.
  - intros [= ->]. now left.
Qed.

Module RaiseFacts.
Import Str StrFacts UrlFacts.

Lemma split_after_scheme_Raise (s url : string) (e : exn) :
  split_after_scheme s url = Raise e -> e = ValueError (inl "Invalid IPv6 URL").
Proof.
  unfold split_after_scheme. destruct (String.eqb _ _).
  - destruct (_splitnetloc url 2) as [n r]. destruct (_ || _).
    + cbn [mbind result_bind bind]. now intros [= <-].
    + cbn [mbind result_bind bind].
      destruct (split1 "#" r) as [[u f]|]; [destruct (split1 "?" u) as [[]|]
                                           | destruct (split1 "?" r) as [[]|]];
        discriminate.
  - cbn [mbind result_bind bind].
    destruct (split1 "#" url) as [[u f]|]; [destruct (split1 "?" u) as [[]|]
                                           | destruct (split1 "?" url) as [[]|]];
      discriminate.
Qed.

Lemma urlsplit_Raise (url : string) (e : exn) :
  urlsplit url = Raise e -> e = ValueError (inl "Invalid IPv6 URL").
Proof.
  unfold urlsplit. destruct (find ":" url) as [[|i]|];
    try apply split_after_scheme_Raise.
  destruct (String.eqb _ _); [apply split_after_scheme_Raise|].
  destruct (all _ _); [|apply split_after_scheme_Raise].
  destruct (_ || _); apply split_after_scheme_Raise.
Qed.

Lemma last_Raise (s : string) (e : exn) : last s = Raise e -> e = IndexError.
Proof.
  induction s as [|c s IH]; cbn [last]; [now intros [= <-]|].
  destruct s; [discriminate | exact IH].
Qed.

Lemma clean_url_Raise (url : string) (e : exn) :
  clean_url url = Raise e ->
  e = IndexError \/ e = ValueError (inl "Invalid IPv6 URL").
Proof.
  unfold clean_url. intros H.
  apply bind_Raise_inv in H as [H|(link & _ & H)].
  { right. exact (urlsplit_Raise _ _ H). }
  apply bind_Raise_inv in H as [H|(c & _ & H)]; [|discriminate H].
  left. exact (last_Raise _ _ H).
Qed.

Lemma index_Raise {A : Type} (l : list A) (i : nat) (e : exn) :
  index l i = Raise e -> e = IndexError.
Proof. unfold index. destruct (l !! i); [discriminate | now intros [= <-]]. Qed.

Lemma attribute_of_Raise {A : Type} (o : option A) (e : exn) :
  attribute_of o = Raise e -> e = AttributeError.
Proof. destruct o; [discriminate | now intros [= <-]]. Qed.

Lemma meta_content_Raise (spec : node) (name : string) (e : exn) :
  meta_content spec name = Raise e ->
  e = AttributeError \/ e = TypeError \/ e = KeyError "content".
Proof.
  unfold meta_content. intros H.
  apply bind_Raise_inv in H as [H|(head & _ & H)].
  { left. exact (attribute_of_Raise _ _ H). }
  apply bind_Raise_inv in H as [H|(meta & _ & H)].
  { right; left. destruct (Soup.find _ _); [discriminate H | now injection H as <-]. }
  destruct (Soup.attr "content" meta); [discriminate H|].
  right; right. now injection H as <-.
Qed.

Lemma get_meta_Raise (spec : node) (names : list string) (e : exn) :
  get_meta spec names = Raise e -> e = KeyError "content".
Proof.
  induction names as [|name names IH]; cbn [get_meta]; [discriminate|].
  destruct (meta_content spec name) as [c|e'] eqn:E; [discriminate|].
  apply meta_content_Raise in E as [->| [->| ->]]; [exact IH | exact IH |].
  now intros [= <-].
Qed.

(** The record of the second part of [parse] is built without a redirect. *)
Lemma IETF_data_Raise (spec : node) (url_string : string) (e : exn) :
  IETF_data spec url_string = Raise e ->
  e = KeyError "content" \/ e = AttributeError \/ e = IndexError
  \/ e = ValueError (inl "Invalid IPv6 URL").
Proof.
  unfold IETF_data. intros H.
  apply bind_Raise_inv in H as [H|(dc_title & _ & H)].
  { left. exact (get_meta_Raise _ _ _ H). }
  apply bind_Raise_inv in H as [H|(title & _ & H)].
  { right; left. destruct (present dc_title); [discriminate H|].
    apply bind_Raise_inv in H as [H|(head & _ & H)]; [exact (attribute_of_Raise _ _ H)|].
    apply bind_Raise_inv in H as [H|(t & _ & H)]; [exact (attribute_of_Raise _ _ H)|].
    discriminate H. }
  apply bind_Raise_inv in H as [H|(description & _ & H)].
  { left. exact (get_meta_Raise _ _ _ H). }
  apply bind_Raise_inv in H as [H|(c & _ & H)]; [|discriminate H].
  right; right. exact (clean_url_Raise _ _ H).
Qed.

Definition canonical (t : string) : Prop :=
  exists name : string, t = html_url name.

Lemma rfc_redirect_target (url_string identifier t : string) :
  rfc_redirect url_string identifier = Raise (BetterUrl t) -> canonical t.
Proof.
  unfold rfc_redirect. destruct (startswith _ _); [|discriminate].
  intros H.
  apply bind_Raise_inv in H as [H|(number & _ & H)].
  { apply index_Raise in H. discriminate H. }
  apply bind_Raise_inv in H as [H|(here & _ & H)].
  { apply clean_url_Raise in H as [H|H]; discriminate H. }
  apply bind_Raise_inv in H as [H|(there & _ & H)].
  { apply clean_url_Raise in H as [H|H]; discriminate H. }
  destruct (negb _); [|discriminate H].
  injection H as <-. now exists ("rfc" +:+ number).
Qed.

Lemma IETF_redirect_target (spec : node) (url_string : string) (url : SplitResult)
    (t : string) :
  IETF_redirect spec url_string url = Raise (BetterUrl t) -> canonical t.
Proof.
  unfold IETF_redirect. destruct (String.eqb _ "tools.ietf.org").
  - intros H. apply bind_Raise_inv in H as [H|(first & _ & H)].
    { apply index_Raise in H. discriminate H. }
    destruct (bool_decide (first ∈ ["html"])).
    + apply bind_Raise_inv in H as [H|(identifier & _ & H)].
      { apply get_meta_Raise in H. discriminate H. }
      apply bind_Raise_inv in H as [H|(identifier' & _ & H)].
      { apply attribute_of_Raise in H. discriminate H. }
      apply bind_Raise_inv in H as [H|(u & _ & H)].
      { exact (rfc_redirect_target _ _ _ H). }
      apply bind_Raise_inv in H as [H|(last & _ & H)].
      { apply index_Raise in H. discriminate H. }
      destruct (parse_draft_name last) as [draft_name draft_number].
      destruct (present draft_number); [|discriminate H].
      injection H as <-. now exists draft_name.
    + destruct (bool_decide _); [|discriminate H].
      apply bind_Raise_inv in H as [H|(doc & _ & H)].
      { apply index_Raise in H. discriminate H. }
      injection H as <-. now exists doc.
  - intros H. apply bind_Raise_inv in H as [H|(www_id & _ & H)].
    { destruct (String.eqb _ "www.ietf.org"); [|discriminate H].
      apply bind_Raise_inv in H as [H|(first & _ & H)]; [|discriminate H].
      apply index_Raise in H. discriminate H. }
    destruct www_id.
    + apply bind_Raise_inv in H as [H|(first & _ & H)].
      { apply index_Raise in H. discriminate H. }
      destruct (bool_decide _); [|discriminate H].
      apply bind_Raise_inv in H as [H|(doc & _ & H)].
      { apply index_Raise in H. discriminate H. }
      injection H as <-. eexists. reflexivity.
    + destruct (String.eqb _ "datatracker.ietf.org"); [|discriminate H].
      apply bind_Raise_inv in H as [H|(first & _ & H)].
      { apply index_Raise in H. discriminate H. }
      destruct (String.eqb first "doc"); [|discriminate H].
      apply bind_Raise_inv in H as [H|(doc & _ & H)].
      { apply index_Raise in H. discriminate H. }
      injection H as <-. now exists doc.
Qed.

End RaiseFacts.

(** X12.  Every address the IETF parser redirects to is a document of
    tools.ietf.org in its html form: a [BetterUrl] raised by [IETF_parse]
    carries [html_url name] for some document name, that is, the text
    "https://tools.ietf.org/html/" followed by the name. *)
Theorem IETF_redirects_to_html (spec : node) (url_string target : string) :
  IETF_parse spec url_string = Raise (BetterUrl target) ->
  exists name : string,
    target = html_url name
    /\ target = "https://tools.ietf.org/html/" +:+ name.
Proof.
  unfold IETF_parse. intros H.
  apply bind_Raise_inv in H as [H|(url & _ & H)].
  { apply RaiseFacts.urlsplit_Raise in H. discriminate H. }
  apply bind_Raise_inv in H as [H|(u & _ & H)].
  - apply RaiseFacts.IETF_redirect_target in H as [name ->]. now exists name.
  - apply RaiseFacts.IETF_data_Raise in H as [H|[H|[H|H]]]; discriminate H.
Qed.

Lemma IETF_redirects_to_html_witness :
  exists name : string,
    "https://tools.ietf.org/html/draft-ietf-foo" = html_url name
    /\ "https://tools.ietf.org/html/draft-ietf-foo" = "https://tools.ietf.org/html/" +:+ name.
Proof.
  apply (IETF_redirects_to_html (document [] [])
           "https://www.ietf.org/id/draft-ietf-foo-03.txt").
  reflexivity.
Defined.

(** ** The other addresses of an IETF document *)

Module DocumentFacts.
Import Str StrFacts UrlFacts IETFFacts.

Lemma segment_path (s : string) : segment s = true -> valid_path s = true.
Proof.
  unfold segment, valid_path.
  destruct (mem "/" s), (mem "?" s), (mem "#" s); try discriminate; reflexivity.
Qed.

Lemma valid_path_app (a b : string) :
  valid_path (a +:+ b) = valid_path a && valid_path b.
Proof.
  unfold valid_path. rewrite !mem_app.
  destruct (mem "#" a), (mem "?" a), (mem "#" b), (mem "?" b); reflexivity.
Qed.

(** The address of a document under a directory of a host, split; [tail]
    is the empty text or the slash that may follow the name. *)
Lemma urlsplit_document (host dir name tail : string) :
  valid_netloc host = true -> valid_path dir = true ->
  segment name = true -> valid_path tail = true ->
  urlsplit ("https://" +:+ host +:+ "/" +:+ dir +:+ "/" +:+ name +:+ tail)
  = Ok (mkSplit "https" host ("/" +:+ dir +:+ "/" +:+ name +:+ tail) "" "").
Proof.
  intros Hhost Hdir Hname Htail.
  apply (urlsplit_rebuilt "https" host ("/" +:+ dir +:+ "/" +:+ name +:+ tail));
    try reflexivity; [discriminate | exact Hhost |].
  change ("/" +:+ dir +:+ "/" +:+ name +:+ tail)
    with ("/" +:+ (dir +:+ ("/" +:+ (name +:+ tail)))).
  rewrite !valid_path_app, Hdir, (segment_path _ Hname), Htail. reflexivity.
Qed.

Lemma path_components_document (s host dir name q f : string) :
  segment dir = true -> name <> "" -> segment name = true ->
  path_components_of (mkSplit s host ("/" +:+ dir +:+ "/" +:+ name) q f) = [""; dir; name]
  /\ path_components_of (mkSplit s host ("/" +:+ dir +:+ "/" +:+ name +:+ "/") q f)
     = [""; dir; name].
Proof.
  intros Hdir Hne Hname. unfold path_components_of. cbn [path].
  apply segment_slash in Hdir. apply segment_slash in Hname. split.
  - change ("/" +:+ dir +:+ "/" +:+ name) with ("" +:+ String "/" (dir +:+ String "/" name)).
    rewrite (split_app "/" "" _ eq_refl), (split_app "/" dir _ Hdir), (split_fresh _ _ Hname).
    destruct name; [contradiction | reflexivity].
  - change ("/" +:+ dir +:+ "/" +:+ name +:+ "/")
      with ("" +:+ String "/" (dir +:+ String "/" (name +:+ String "/" ""))).
    rewrite (split_app "/" "" _ eq_refl), (split_app "/" dir _ Hdir), (split_app "/" name _ Hname).
    reflexivity.
Qed.

End DocumentFacts.

(** X13.  The other addresses of a document lead to its html form: for a
    document name that is one path segment, the parser raises
    [BetterUrl (html_url name)] at datatracker.ietf.org/doc/<name>, with or
    without a closing slash, and at tools.ietf.org/id/<name> and
    tools.ietf.org/pdf/<name>, whatever the page holds. *)
Theorem IETF_document_redirect (spec : node) (name : string) :
  segment name = true ->
  name <> "" ->
  IETF_parse spec ("https://datatracker.ietf.org/doc/" +:+ name)
  = Raise (BetterUrl (html_url name))
  /\ IETF_parse spec ("https://datatracker.ietf.org/doc/" +:+ name +:+ "/")
     = Raise (BetterUrl (html_url name))
  /\ IETF_parse spec ("https://tools.ietf.org/id/" +:+ name)
     = Raise (BetterUrl (html_url name))
  /\ IETF_parse spec ("https://tools.ietf.org/pdf/" +:+ name)
     = Raise (BetterUrl (html_url name)).
Proof.
  intros Hname Hne.
  assert (Hplain : forall host dir,
            UrlFacts.valid_netloc host = true -> segment dir = true ->
            urlsplit ("https://" +:+ host +:+ "/" +:+ dir +:+ "/" +:+ name)
            = Ok (mkSplit "https" host ("/" +:+ dir +:+ "/" +:+ name) "" "")).
  { intros host dir Hhost Hdir.
    pose proof (DocumentFacts.urlsplit_document host dir name ""
                  Hhost (DocumentFacts.segment_path _ Hdir) Hname eq_refl) as H.
    rewrite !StrFacts.app_nil_r in H. exact H. }
  repeat split.
  - unfold IETF_parse.
    change ("https://datatracker.ietf.org/doc/" +:+ name)
      with ("https://" +:+ "datatracker.ietf.org" +:+ "/" +:+ "doc" +:+ "/" +:+ name).
    rewrite (Hplain "datatracker.ietf.org" "doc" eq_refl eq_refl). cbn [mbind result_bind bind].
    unfold IETF_redirect.
    rewrite (proj1 (DocumentFacts.path_components_document
                      "https" "datatracker.ietf.org" "doc" name "" "" eq_refl Hne Hname)).
    reflexivity.
  - unfold IETF_parse.
    change ("https://datatracker.ietf.org/doc/" +:+ name +:+ "/")
      with ("https://" +:+ "datatracker.ietf.org" +:+ "/" +:+ "doc" +:+ "/" +:+ name +:+ "/").
    rewrite (DocumentFacts.urlsplit_document "datatracker.ietf.org" "doc" name "/"
               eq_refl eq_refl Hname eq_refl).
    cbn [mbind result_bind bind]. unfold IETF_redirect.
    rewrite (proj2 (DocumentFacts.path_components_document
                      "https" "datatracker.ietf.org" "doc" name "" "" eq_refl Hne Hname)).
    reflexivity.
  - unfold IETF_parse.
    change ("https://tools.ietf.org/id/" +:+ name)
      with ("https://" +:+ "tools.ietf.org" +:+ "/" +:+ "id" +:+ "/" +:+ name).
    rewrite (Hplain "tools.ietf.org" "id" eq_refl eq_refl). cbn [mbind result_bind bind].
    unfold IETF_redirect.
    rewrite (proj1 (DocumentFacts.path_components_document
                      "https" "tools.ietf.org" "id" name "" "" eq_refl Hne Hname)).
    reflexivity.
  - unfold IETF_parse.
    change ("https://tools.ietf.org/pdf/" +:+ name)
      with ("https://" +:+ "tools.ietf.org" +:+ "/" +:+ "pdf" +:+ "/" +:+ name).
    rewrite (Hplain "tools.ietf.org" "pdf" eq_refl eq_refl). cbn [mbind result_bind bind].
    unfold IETF_redirect.
    rewrite (proj1 (DocumentFacts.path_components_document
                      "https" "tools.ietf.org" "pdf" name "" "" eq_refl Hne Hname)).
    reflexivity.
Qed.

Lemma IETF_document_redirect_witness :
  IETF_parse (document [] []) ("https://datatracker.ietf.org/doc/" +:+ "draft-ietf-foo")
  = Raise (BetterUrl (html_url "draft-ietf-foo"))
  /\ IETF_parse (document [] []) ("https://datatracker.ietf.org/doc/" +:+ "draft-ietf-foo" +:+ "/")
     = Raise (BetterUrl (html_url "draft-ietf-foo"))
  /\ IETF_parse (document [] []) ("https://tools.ietf.org/id/" +:+ "draft-ietf-foo")
     = Raise (BetterUrl (html_url "draft-ietf-foo"))
  /\ IETF_parse (document [] []) ("https://tools.ietf.org/pdf/" +:+ "draft-ietf-foo")
     = Raise (BetterUrl (html_url "draft-ietf-foo")).
Proof.
  apply (IETF_document_redirect (document [] []) "draft-ietf-foo");
    [reflexivity | discriminate].
Defined.

(** X14.  A file of the drafts directory leads to the html form of the
    draft, without revision and extension: at
    www.ietf.org/id/<name>-<nn>.<ext>, with two digits [nn] and an
    extension without a dot, the parser raises [BetterUrl (html_url name)],
    whatever the page holds. *)
Theorem IETF_draft_file_redirect (spec : node) (name nn ext : string) :
  segment name = true ->
  two_digits nn = true ->
  segment ext = true ->
  Str.mem "." ext = false ->
  IETF_parse spec ("https://www.ietf.org/id/" +:+ name +:+ "-" +:+ nn +:+ "." +:+ ext)
  = Raise (BetterUrl (html_url name)).
Proof.
  intros Hname Hnn Hext Hdot.
  set (doc := name +:+ "-" +:+ nn +:+ "." +:+ ext).
  assert (Hdoc : segment doc = true).
  { subst doc. rewrite !IETFFacts.segment_app, Hname, Hext.
    now rewrite (IETFFacts.two_digits_segment _ Hnn). }
  assert (Hne : doc <> "") by (subst doc; destruct name; discriminate).
  unfold IETF_parse.
  change ("https://www.ietf.org/id/" +:+ doc)
    with ("https://" +:+ "www.ietf.org" +:+ "/" +:+ "id" +:+ "/" +:+ doc).
  pose proof (DocumentFacts.urlsplit_document "www.ietf.org" "id" doc ""
                eq_refl eq_refl Hdoc eq_refl) as Hsplit.
  rewrite !StrFacts.app_nil_r in Hsplit. rewrite Hsplit.
  cbn [mbind result_bind bind]. unfold IETF_redirect.
  rewrite (proj1 (DocumentFacts.path_components_document
                    "https" "www.ietf.org" "id" doc "" "" eq_refl Hne Hdoc)).
  cbn [netloc]. change (Str.lower "www.ietf.org") with "www.ietf.org".
  change (String.eqb "www.ietf.org" "tools.ietf.org") with false.
  change (String.eqb "www.ietf.org" "www.ietf.org") with true.
  change (index [""; "id"; doc] 1) with (Ok "id").
  change (index [""; "id"; doc] 2) with (Ok doc).
  cbn [mbind result_bind bind].
  change (String.eqb "id" "id") with true. cbv iota.
  rewrite bool_decide_eq_true_2 by apply list_elem_of_here.
  cbn [mbind result_bind bind].
  assert (Hrsplit : Str.rsplit1 "." doc = Some (name +:+ "-" +:+ nn, ext)).
  { subst doc.
    change (name +:+ "-" +:+ nn +:+ "." +:+ ext) with (name +:+ "-" +:+ nn +:+ String "." ext).
    rewrite <- !StrFacts.app_assoc.
    rewrite (DraftFacts.rsplit1_app "." _ ext Hdot).
    now rewrite !StrFacts.app_assoc. }
  rewrite Hrsplit, (DraftFacts.parse_revision _ _ Hnn). reflexivity.
Qed.

Lemma IETF_draft_file_redirect_witness :
  IETF_parse (document [] [])
    ("https://www.ietf.org/id/" +:+ "draft-ietf-foo" +:+ "-" +:+ "03" +:+ "." +:+ "txt")
  = Raise (BetterUrl (html_url "draft-ietf-foo")).
Proof.
  apply (IETF_draft_file_redirect (document [] []) "draft-ietf-foo" "03" "txt");
    reflexivity.
Defined.

(** ** The refresh of a W3C page *)

Module RefreshFacts.
Import Str StrFacts.

Lemma split1_app (c : ascii) (a b : string) :
  mem c a = false -> split1 c (a +:+ String c b) = Some (a, b).
Proof.
  induction a as [|d a IH]; cbn [mem split1 String.append].
  - intros _. now rewrite Ascii.eqb_refl.
  - destruct (Ascii.eqb c d); [discriminate|]. intros H. now rewrite (IH H).
Qed.

End RefreshFacts.

(** X15.  A refresh comes before everything else in a W3C page: when the
    page has a meta tag with http-equiv "Refresh", the parser looks at the
    content of the first one only.  It raises [BetterUrl] with what follows
    the first "=" after the first ";", stripped; a content without ";", or
    without "=" after the first ";", makes it raise [IndexError]. *)
Theorem W3C_refresh_first
    (org : string) (spec : node) (url_string : string)
    (r : node) (others : list node) (content : string) :
  Soup.select refresh_meta spec = r :: others ->
  Soup.attr "content" r = Some content ->
  (forall delay key target : string,
     content = delay +:+ ";" +:+ key +:+ "=" +:+ target ->
     Str.mem ";" delay = false -> Str.mem "=" key = false ->
     W3C_parse org spec url_string = Raise (BetterUrl (Str.strip target)))
  /\ (Str.mem ";" content = false ->
      W3C_parse org spec url_string = Raise IndexError)
  /\ (forall delay rest : string,
        content = delay +:+ ";" +:+ rest ->
        Str.mem ";" delay = false -> Str.mem "=" rest = false ->
        W3C_parse org spec url_string = Raise IndexError).
Proof.
  intros Hselect Hcontent. unfold W3C_parse. rewrite Hselect, Hcontent.
  cbn [attribute_of mbind result_bind bind]. repeat split.
  - intros delay key target -> Hdelay Hkey.
    change (delay +:+ ";" +:+ key +:+ "=" +:+ target)
      with (delay +:+ String ";" (key +:+ String "=" target)).
    rewrite (RefreshFacts.split1_app _ _ _ Hdelay).
    change (index [delay; key +:+ String "=" target] 1) with (Ok (key +:+ String "=" target)).
    cbn [mbind result_bind bind].
    rewrite (RefreshFacts.split1_app _ _ _ Hkey). reflexivity.
  - intros Hnone. apply StrFacts.split1_None_mem in Hnone. rewrite Hnone. reflexivity.
  - intros delay rest -> Hdelay Hrest.
    change (delay +:+ ";" +:+ rest) with (delay +:+ String ";" rest).
    rewrite (RefreshFacts.split1_app _ _ _ Hdelay).
    change (index [delay; rest] 1) with (Ok rest).
    cbn [mbind result_bind bind].
    apply StrFacts.split1_None_mem in Hrest. rewrite Hrest. reflexivity.
Qed.

Definition moved_page : node :=
  document
    [Elem "meta" {[ "http-equiv" := "Refresh";
                    "content" := "0; url=https://www.w3.org/TR/foo/ " ]} []]
    [Elem "dl" ∅ (link_entry "This version:" "https://www.w3.org/TR/old/")].

Lemma W3C_refresh_first_witness :
  W3C_parse "W3C" moved_page "https://www.w3.org/TR/old/"
  = Raise (BetterUrl (Str.strip "https://www.w3.org/TR/foo/ ")).
Proof.
  apply (proj1 (W3C_refresh_first "W3C" moved_page "https://www.w3.org/TR/old/"
                  (Elem "meta" {[ "http-equiv" := "Refresh";
                                  "content" := "0; url=https://www.w3.org/TR/foo/ " ]} [])
                  [] "0; url=https://www.w3.org/TR/foo/ " eq_refl eq_refl)
               "0" " url" "https://www.w3.org/TR/foo/ "); reflexivity.
Defined.

(** ** The canonical URL *)

Module CanonicalFacts.
Import Str StrFacts UrlFacts CleanUrlFacts.

Lemma all_fresh (p : ascii -> bool) (d : ascii) (s : string) :
  p d = false -> all p s = true -> mem d s = false.
Proof.
  intros Hd. induction s as [|c s IH]; cbn [all mem]; [reflexivity|].
  intros [Hc Hs]%andb_prop. rewrite (IH Hs).
  destruct (Ascii.eqb_spec d c) as [->|_]; [congruence | reflexivity].
Qed.

Lemma valid_scheme_fresh (d : ascii) (s : string) :
  mem d scheme_chars = false -> valid_scheme s = true -> mem d s = false.
Proof.
  intros Hd. apply all_fresh. now rewrite Hd.
Qed.

Lemma valid_netloc_fresh (d : ascii) (n : string) :
  is_delim d = true -> valid_netloc n = true -> mem d n = false.
Proof.
  intros Hd [H _]%andb_prop. revert H. apply all_fresh. now rewrite Hd.
Qed.

Lemma valid_path_fresh (p : string) :
  valid_path p = true -> mem "?" p = false /\ mem "#" p = false.
Proof. unfold valid_path. destruct (mem "#" p), (mem "?" p); intros H; now try discriminate H. Qed.

End CanonicalFacts.

(** X16.  What [clean_url] gives, for every text: either a URL without
    query and fragment, that is, without "?" and "#", or one of two
    exceptions, [IndexError] or the [ValueError] of [urlsplit] for
    unbalanced brackets. *)
Theorem clean_url_outcomes (url : string) :
  match clean_url url with
  | Ok c => Str.mem "?" c = false /\ Str.mem "#" c = false
  | Raise e => e = IndexError \/ e = ValueError (inl "Invalid IPv6 URL")
  end.
Proof.
  destruct (clean_url url) as [c|e] eqn:E.
  - unfold clean_url in E.
    apply bind_Ok_inv in E as (link & Hlink & E).
    apply bind_Ok_inv in E as (x & _ & E). injection E as <-.
    destruct (UrlFacts.urlsplit_wf _ _ Hlink) as (Hs & Hn & Hp).
    assert (Hpath : UrlFacts.valid_path
                      (if Ascii.eqb x "/" then Str.drop_last (path link) else path link) = true).
    { destruct (Ascii.eqb x "/"); [now apply CleanUrlFacts.valid_path_drop_last | exact Hp]. }
    apply CanonicalFacts.valid_path_fresh in Hpath as [Hq Hf].
    rewrite !StrFacts.mem_app. cbn [Str.mem]. rewrite !StrFacts.mem_app, Hq, Hf.
    rewrite (StrFacts.mem_lower _ _ StrFacts.caseless_question).
    rewrite (StrFacts.mem_lower _ _ StrFacts.caseless_hash).
    rewrite (CanonicalFacts.valid_scheme_fresh "?" _ eq_refl Hs).
    rewrite (CanonicalFacts.valid_scheme_fresh "#" _ eq_refl Hs).
    rewrite (CanonicalFacts.valid_netloc_fresh "?" _ eq_refl Hn).
    rewrite (CanonicalFacts.valid_netloc_fresh "#" _ eq_refl Hn).
    split; reflexivity.
  - exact (RaiseFacts.clean_url_Raise _ _ E).
Qed.

(** X17.  The spellings of one address have one canonical URL: for a
    scheme in lower case, a host and a path that begins, and does not end,
    with a slash, [clean_url] gives scheme://host/path with the host in
    lower case for the address as written, for the address followed by a
    slash, and for the address with the host in lower case. *)
Theorem clean_url_spellings (s n p : string) :
  s <> "" ->
  UrlFacts.valid_scheme s = true ->
  UrlFacts.valid_netloc n = true ->
  UrlFacts.valid_path p = true ->
  Str.startswith "/" p = true ->
  Str.endswith "/" p = false ->
  clean_url (s +:+ "://" +:+ n +:+ p) = Ok (s +:+ "://" +:+ Str.lower n +:+ p)
  /\ clean_url (s +:+ "://" +:+ n +:+ p +:+ "/") = Ok (s +:+ "://" +:+ Str.lower n +:+ p)
  /\ clean_url (s +:+ "://" +:+ Str.lower n +:+ p) = Ok (s +:+ "://" +:+ Str.lower n +:+ p).
Proof.
  intros Hne Hs Hn Hp Hstart Hend. repeat split.
  - unfold clean_url.
    rewrite (UrlFacts.urlsplit_rebuilt s n p Hne Hs Hn Hp Hstart).
    cbn [mbind result_bind bind path scheme netloc].
    destruct (StrFacts.last_defined p) as [c Hc].
    { apply (CleanUrlFacts.startswith_nonempty "/"); [discriminate | exact Hstart]. }
    rewrite Hc. cbn [mbind result_bind bind].
    rewrite (CleanUrlFacts.endswith_slash_last _ _ Hc) in Hend. now rewrite Hend.
  - unfold clean_url.
    assert (Hp' : UrlFacts.valid_path (p +:+ "/") = true).
    { unfold UrlFacts.valid_path in *. rewrite !StrFacts.mem_app.
      destruct (Str.mem "#" p), (Str.mem "?" p); try discriminate Hp; reflexivity. }
    assert (Hstart' : Str.startswith "/" (p +:+ "/") = true).
    { destruct p as [|c p]; [discriminate Hstart | exact Hstart]. }
    rewrite (UrlFacts.urlsplit_rebuilt s n (p +:+ "/") Hne Hs Hn Hp' Hstart').
    cbn [mbind result_bind bind path scheme netloc].
    rewrite (StrFacts.last_snoc p "/"). cbn [mbind result_bind bind].
    change (Ascii.eqb "/" "/") with true. cbv iota.
    now rewrite (StrFacts.drop_last_snoc p "/").
  - exact (CleanUrlFacts.clean_url_rebuilt s n p Hne Hs Hn Hp Hstart Hend).
Qed.

Lemma clean_url_spellings_witness :
  clean_url ("https" +:+ "://" +:+ "W3C.github.io" +:+ "/foo")
  = Ok ("https" +:+ "://" +:+ Str.lower "W3C.github.io" +:+ "/foo")
  /\ clean_url ("https" +:+ "://" +:+ "W3C.github.io" +:+ "/foo" +:+ "/")
     = Ok ("https" +:+ "://" +:+ Str.lower "W3C.github.io" +:+ "/foo")
  /\ clean_url ("https" +:+ "://" +:+ Str.lower "W3C.github.io" +:+ "/foo")
     = Ok ("https" +:+ "://" +:+ Str.lower "W3C.github.io" +:+ "/foo").
Proof.
  apply (clean_url_spellings "https" "W3C.github.io" "/foo");
    [discriminate | reflexivity..].
Defined.

(** ** The description of a parsed specification *)

Module LineFacts.
Import Str.

Lemma mem_replace (a b : ascii) (s : string) :
  a <> b -> mem a (replace a b s) = false.
Proof.
  intros Hab. induction s as [|c s IH]; cbn [replace mem]; [reflexivity|].
  rewrite IH. destruct (Ascii.eqb_spec c a) as [->|Hca].
  - now destruct (Ascii.eqb_spec a b).
  - destruct (Ascii.eqb_spec a c); [congruence | reflexivity].
Qed.

Lemma get_meta_one_line (spec : node) (names : list string) (text : string) :
  get_meta spec names = Ok (Some text) -> mem newline text = false.
Proof.
  induction names as [|name names IH]; cbn [get_meta]; [discriminate|].
  destruct (meta_content spec name) as [c|e] eqn:E.
  - intros [= <-]. unfold meta_content in E.
    apply bind_Ok_inv in E as (head & _ & E).
    apply bind_Ok_inv in E as (meta & _ & E).
    destruct (Soup.attr "content" meta); [|discriminate E].
    injection E as <-. now apply mem_replace.
  - destruct e; try discriminate; exact IH.
Qed.

Lemma clean_tag_one_line (tag : option node) (text : string) :
  clean_tag tag = Ok text -> mem newline text = false.
Proof.
  unfold clean_tag. intros H. apply bind_Ok_inv in H as (t & _ & H).
  injection H as <-. now apply mem_replace.
Qed.

Lemma exit_on_AttributeError_Ok {A : Type} (r : result A) (a : A) :
  exit_on_AttributeError r = Ok a -> r = Ok a.
Proof. destruct r as [|[]]; intros H; try discriminate H; exact H. Qed.

End LineFacts.

(** X18.  The description of a parsed specification is one line: in the
    record a parser returns, the description is a text without a newline,
    for the W3C and WHATWG parser (the text [clean_tag] gives for what
    follows the abstract) and for the IETF parser (a meta value, or the
    empty text). *)
Theorem parsed_description_one_line
    (p : parser) (spec : node) (url_string : string) (data : gmap string pyval) :
  parse p spec url_string = Ok data ->
  exists description : string,
    data !! "description" = Some (PyUnicode description)
    /\ Str.mem newline description = false.
Proof.
  assert (HW3C : forall org,
            W3C_parse org spec url_string = Ok data ->
            exists description : string,
              data !! "description" = Some (PyUnicode description)
              /\ Str.mem newline description = false).
  { intros org. unfold W3C_parse.
    destruct (Soup.select refresh_meta spec) as [|r refresh]; intros H.
    - apply bind_Ok_inv in H as (this_url & _ & H).
      apply bind_Ok_inv in H as (latest_url & _ & H).
      apply bind_Ok_inv in H as (ed_url & _ & H).
      apply bind_Ok_inv in H as (url & _ & H).
      apply bind_Ok_inv in H as (title & _ & H).
      apply bind_Ok_inv in H as (description & Hdescription & H).
      injection H as <-. exists description. split; [apply lookup_insert_eq|].
      unfold W3C_description in Hdescription.
      apply LineFacts.exit_on_AttributeError_Ok in Hdescription.
      apply bind_Ok_inv in Hdescription as (abstract & _ & Hdescription).
      exact (LineFacts.clean_tag_one_line _ _ Hdescription).
    - apply bind_Ok_inv in H as (content & _ & H).
      apply bind_Ok_inv in H as (after & _ & H).
      apply bind_Ok_inv in H as (target & _ & H).
      discriminate H. }
  destruct p; cbn [parse]; [apply HW3C | apply HW3C |].
  unfold IETF_parse. intros H.
  apply bind_Ok_inv in H as (url & _ & H).
  apply bind_Ok_inv in H as (_ & _ & H). unfold IETF_data in H.
  apply bind_Ok_inv in H as (dc_title & _ & H).
  apply bind_Ok_inv in H as (title & _ & H).
  apply bind_Ok_inv in H as (description & Hdescription & H).
  apply bind_Ok_inv in H as (c & _ & H).
  injection H as <-.
  exists (if present description then default "" description else ""). split.
  - rewrite lookup_insert_ne by discriminate. rewrite lookup_insert_ne by discriminate.
    apply lookup_insert_eq.
  - destruct description as [text|]; [|reflexivity].
    destruct (present (Some text)); [|reflexivity].
    exact (LineFacts.get_meta_one_line _ _ _ Hdescription).
Qed.

Definition abstract_page : node :=
  document
    [meta_tag "DC.Title" "Foo";
     meta_tag "description" (String "A" (String newline "specification of foo."))]
    [].

Lemma parsed_description_one_line_witness :
  exists description : string,
    W3C_data "https://httpwg.org/specs/foo" "IETF" (Some "Foo") "A specification of foo."
      !! "description" = Some (PyUnicode description)
    /\ Str.mem newline description = false.
Proof.
  apply (parsed_description_one_line IETFParser abstract_page "https://httpwg.org/specs/foo/").
  vm_compute. reflexivity.
Defined.

(** ** The page of a document in its html form *)

(** X19.  The html form of a document is where the redirects end: at
    [html_url name], for a name of one segment in which [parse_draft_name]
    finds no revision, and an identifier that is not the one of another
    RFC, the parser raises no [BetterUrl]; it goes on to build the record,
    and the record it returns has [html_url name] for its url. *)
Theorem html_page_stable (spec : node) (name identifier : string) :
  segment name = true ->
  name <> "" ->
  parse_draft_name name = (name, None) ->
  get_meta spec ["DC.Identifier"] = Ok (Some identifier) ->
  (Str.startswith "urn:ietf:rfc" (Str.lower identifier) = true ->
   forall a number : string,
     Str.rsplit1 ":" identifier = Some (a, number) -> name = "rfc" +:+ number) ->
  IETF_parse spec (html_url name) = IETF_data spec (html_url name)
  /\ forall data : gmap string pyval,
       IETF_parse spec (html_url name) = Ok data ->
       data !! "url" = Some (PyUnicode (html_url name)).
Proof.
  intros Hname Hne Hrevision Hid Hrfc.
  assert (Hredirect :
    IETF_redirect spec (html_url name)
      (mkSplit "https" "tools.ietf.org" ("/html/" +:+ name) "" "") = Ok ()).
  { unfold IETF_redirect. rewrite (IETFFacts.path_components_html name Hne Hname).
    cbn [netloc]. change (Str.lower "tools.ietf.org") with "tools.ietf.org".
    rewrite String.eqb_refl. change (index [""; "html"; name] 1) with (Ok "html").
    cbn [mbind result_bind bind].
    rewrite bool_decide_eq_true_2 by apply list_elem_of_here.
    rewrite Hid. cbn [attribute_of mbind result_bind bind].
    assert (Hurn : rfc_redirect (html_url name) identifier = Ok ()).
    { unfold rfc_redirect.
      destruct (Str.startswith "urn:ietf:rfc" (Str.lower identifier)) eqn:Eurn;
        [|reflexivity].
      destruct (Str.rsplit1 ":" identifier) as [[a number]|] eqn:Ersplit.
      - change (index [a; number] 1) with (Ok number).
        cbn [mbind result_bind bind]. cbv zeta.
        rewrite <- (Hrfc eq_refl a number eq_refl).
        change (html_url name) with ("https://tools.ietf.org/html/" +:+ name).
        rewrite (IETFFacts.clean_url_html name Hne Hname).
        cbn [mbind result_bind bind]. now rewrite String.eqb_refl.
      - exfalso. apply DraftFacts.rsplit1_None_mem in Ersplit.
        assert (Hcolon : Str.mem ":" (Str.lower identifier) = true).
        { apply IETFFacts.startswith_app in Eurn as [r ->].
          now rewrite StrFacts.mem_app. }
        rewrite (StrFacts.mem_lower ":" identifier StrFacts.caseless_colon) in Hcolon.
        congruence. }
    rewrite Hurn.
    change (index [""; "html"; name] (length [""; "html"; name] - 1)) with (Ok name).
    cbn [mbind result_bind bind]. rewrite Hrevision. reflexivity. }
  assert (Hparse : IETF_parse spec (html_url name) = IETF_data spec (html_url name)).
  { unfold IETF_parse.
    change (html_url name) with ("https://tools.ietf.org/html/" +:+ name).
    rewrite (IETFFacts.urlsplit_html name Hname). cbn [mbind result_bind bind].
    change ("https://tools.ietf.org/html/" +:+ name) with (html_url name).
    now rewrite Hredirect. }
  split; [exact Hparse|].
  intros data Hdata.
  destruct (IETFFacts.IETF_parse_url _ _ _ Hdata) as (c & Hc & Hurl).
  change (html_url name) with ("https://tools.ietf.org/html/" +:+ name) in Hc.
  rewrite (IETFFacts.clean_url_html name Hne Hname) in Hc. injection Hc as <-.
  exact Hurl.
Qed.

Lemma html_page_stable_witness :
  IETF_parse (draft_page "urn:ietf:rfc:7230" "Foo") (html_url "rfc7230")
  = IETF_data (draft_page "urn:ietf:rfc:7230" "Foo") (html_url "rfc7230")
  /\ forall data : gmap string pyval,
       IETF_parse (draft_page "urn:ietf:rfc:7230" "Foo") (html_url "rfc7230") = Ok data ->
       data !! "url" = Some (PyUnicode (html_url "rfc7230")).
Proof.
  apply (html_page_stable (draft_page "urn:ietf:rfc:7230" "Foo") "rfc7230" "urn:ietf:rfc:7230").
  - reflexivity.
  - discriminate.
  - reflexivity.
  - reflexivity.
  - intros _ a number [= <- <-]. reflexivity.
Defined.

(** ** The choice of the parser *)

Module OrgFacts.

Lemma table_host (host : string) (p : parser) :
  URL2ORG !! host = Some p ->
  p <> WHATWGParser /\ Str.endswith ".spec.whatwg.org" host = false.
Proof.
  intros H. apply elem_of_list_to_map_2 in H.
  repeat (apply elem_of_cons in H as [[= -> ->]|H]; [split; [discriminate | reflexivity]|]).
  now apply elem_of_nil in H.
Qed.

End OrgFacts.

(** X20.  The WHATWG parser is chosen for the hosts under spec.whatwg.org
    and for no other: [figure_out_org] gives [WHATWGParser] exactly when
    the host of the address, in lower case, ends with ".spec.whatwg.org";
    no host of the table does. *)
Theorem figure_out_org_WHATWG (orig_url : string) (link : SplitResult) :
  urlsplit orig_url = Ok link ->
  figure_out_org orig_url = Ok WHATWGParser
  <-> Str.endswith ".spec.whatwg.org" (Str.lower (netloc link)) = true.
Proof.
  intros Hsplit. unfold figure_out_org. rewrite Hsplit.
  cbn [mbind result_bind bind].
  destruct (URL2ORG !! Str.lower (netloc link)) as [p|] eqn:Etable.
  - apply OrgFacts.table_host in Etable as [Hp Hends]. rewrite Hends. split.
    + intros [= ->]. contradiction.
    + discriminate.
  - destruct (Str.endswith ".spec.whatwg.org" (Str.lower (netloc link))).
    + split; reflexivity.
    + split; discriminate.
Qed.

Lemma figure_out_org_WHATWG_witness :
  figure_out_org "https://DOM.spec.whatwg.org/" = Ok WHATWGParser
  <-> Str.endswith ".spec.whatwg.org" (Str.lower "DOM.spec.whatwg.org") = true.
Proof.
  apply (figure_out_org_WHATWG "https://DOM.spec.whatwg.org/"
           (mkSplit "https" "DOM.spec.whatwg.org" "/" "" "")).
  reflexivity.
Defined.

(** ** The issue of an entry *)

(** X21.  What [create_issue] does when it returns: either the user or the
    token is missing from the environment (absent or empty), nothing is
    sent and the entry is as it was; or one request has been sent, with the
    token in both parts of its authentication and an issue that has the
    title of the entry, and the entry differs in its mozPositionIssue
    only, which is the number GitHub answered. *)
Theorem create_issue_effect
    (py_str : pyval -> string) (environ : gmap string string)
    (requests_post : string * string -> gmap string pyval -> Z * result pyval)
    (data data' : gmap string pyval) (events : list event) :
  create_issue py_str environ requests_post data = (Ok data', events) ->
  (events = [] /\ data' = data
   /\ (env_missing (environ !! "GH_USER") = true
       \/ env_missing (environ !! "GH_TOKEN") = true))
  \/ (exists (token : string) (issue : gmap string pyval) (json issue_num : pyval),
        environ !! "GH_TOKEN" = Some token
        /\ env_missing (environ !! "GH_USER") = false
        /\ issue !! "title" = data !! "title"
        /\ requests_post (token, token) issue = (201, Ok json)
        /\ py_getitem json "number" = Ok issue_num
        /\ events = [Posted (token, token) issue]
        /\ data' = <["mozPositionIssue" := issue_num]> data).
Proof.
  unfold create_issue.
  destruct (issue_of py_str data) as [issue|e] eqn:Hissue; [|discriminate].
  assert (Htitle : issue !! "title" = data !! "title").
  { unfold issue_of in Hissue.
    apply bind_Ok_inv in Hissue as (issue_title & Hget & Hissue).
    apply bind_Ok_inv in Hissue as (title & _ & Hissue).
    apply bind_Ok_inv in Hissue as (url & _ & Hissue).
    apply bind_Ok_inv in Hissue as (ciuName & _ & Hissue).
    apply bind_Ok_inv in Hissue as (mozBugUrl & _ & Hissue).
    injection Hissue as <-. rewrite lookup_insert_eq.
    cbn [py_getitem] in Hget. destruct (data !! "title"); congruence. }
  destruct (env_missing (environ !! "GH_USER")) eqn:Huser.
  { intros [= <- <-]. left. auto. }
  destruct (env_missing (environ !! "GH_TOKEN")) eqn:Htoken.
  { intros [= <- <-]. left. auto. }
  cbn [orb]. destruct (environ !! "GH_TOKEN") as [token|]; [|discriminate Htoken].
  change (default "" (Some token)) with token.
  destruct (requests_post (token, token) issue) as [status_code json] eqn:Hpost.
  destruct (Z.eqb_spec status_code 201) as [->|_]; [|discriminate].
  cbn [negb]. destruct json as [j|e]; cbn [mbind result_bind bind]; [|discriminate].
  destruct (py_getitem j "number") as [issue_num|e] eqn:Hnumber; [|discriminate].
  intros [= <- <-]. right. exists token, issue, j, issue_num. auto 10.
Qed.

Definition github (auth : string * string) (issue : gmap string pyval) : Z * result pyval :=
  (201, Ok (PyDict {[ "number" := PyInt 7 ]})).

Definition credentials : gmap string string :=
  {[ "GH_USER" := "user"; "GH_TOKEN" := "token" ]}.

Definition foo_entry : gmap string pyval :=
  W3C_data "https://www.w3.org/TR/foo" "W3C" (Some "Foo") "A specification of foo."
  ∪ SpecEntry_data.

Definition foo_issue : gmap string pyval :=
  <["title" := PyUnicode "Foo"]>
    (<["body" := PyUnicode
         ("* Specification Title: Foo" +:+ String "010"
          ("* Specification URL: https://www.w3.org/TR/foo" +:+ String "010"
           ("* Caniuse.com URL (optional): None" +:+ String "010"
            ("* Bugzilla URL (optional): None" +:+ String "010" ""))))]> ∅).

Lemma create_issue_effect_witness :
  ([Posted ("token", "token") foo_issue] = []
   /\ <["mozPositionIssue" := PyInt 7]> foo_entry = foo_entry
   /\ (env_missing (credentials !! "GH_USER") = true
       \/ env_missing (credentials !! "GH_TOKEN") = true))
  \/ (exists (token : string) (issue : gmap string pyval) (json issue_num : pyval),
        credentials !! "GH_TOKEN" = Some token
        /\ env_missing (credentials !! "GH_USER") = false
        /\ issue !! "title" = foo_entry !! "title"
        /\ github (token, token) issue = (201, Ok json)
        /\ py_getitem json "number" = Ok issue_num
        /\ [Posted ("token", "token") foo_issue] = [Posted (token, token) issue]
        /\ <["mozPositionIssue" := PyInt 7]> foo_entry
           = <["mozPositionIssue" := issue_num]> foo_entry).
Proof.
  apply (create_issue_effect (fun _ => "None") credentials github foo_entry).
  vm_compute. exact eq_refl.
Defined.

(** ** The main program *)

Module MainFacts.

Section Run.

Variable py_str : pyval -> string.

Lemma checked_activities_Ok (w : world) (store : ActivitiesJson) :
  checked_activities py_str w = Ok store
  <-> exists ds : list (gmap string pyval),
        activities_json w = Some (PyList (PyDict <$> ds))
        /\ Forall accepted_record ds
        /\ store = mkActivities "activities.json" (PyList (PyDict <$> ds)).
Proof.
  unfold checked_activities, load. split.
  - destruct (activities_json w) as [file|]; [|discriminate].
    cbn [mbind result_bind bind].
    destruct (validate py_str (mkActivities "activities.json" file)) as [[|m errors]|e] eqn:Hvalid;
      cbn [mbind result_bind bind]; try discriminate.
    intros [= <-]. apply StoreFacts.validate_nil in Hvalid as (ds & Hdata & Hall).
    cbn [data] in Hdata. subst file. now exists ds.
  - intros (ds & -> & Hall & ->). cbn [mbind result_bind bind].
    assert (Hvalid : validate py_str (mkActivities "activities.json" (PyList (PyDict <$> ds)))
                     = Ok []).
    { apply StoreFacts.validate_nil. now exists ds. }
    rewrite Hvalid. reflexivity.
Qed.

Lemma entry_unique_Ok (self checked : ActivitiesJson) (entry : gmap string pyval) :
  entry_unique py_str self entry = Ok checked -> checked = self.
Proof.
  unfold entry_unique. intros H.
  apply bind_Ok_inv in H as (title & _ & H).
  apply bind_Ok_inv in H as (t & _ & H).
  apply bind_Ok_inv in H as (entries & _ & H).
  apply bind_Ok_inv in H as (titles & _ & H).
  destruct (bool_decide _); [discriminate H|].
  apply bind_Ok_inv in H as (url & _ & H).
  apply bind_Ok_inv in H as (urls & _ & H).
  destruct (py_in url urls); [discriminate H|]. now injection H as <-.
Qed.

(** What [create_issue] sends, and what it leaves of the entry *)
Lemma create_issue_run (environ : gmap string string)
    (requests_post : string * string -> gmap string pyval -> Z * result pyval)
    (entry : gmap string pyval) (r : result (gmap string pyval)) (events : list event) :
  create_issue py_str environ requests_post entry = (r, events) ->
  (events = [] \/ exists auth issue, events = [Posted auth issue])
  /\ forall entry', r = Ok entry' ->
       entry' = entry \/ exists issue_num, entry' = <["mozPositionIssue" := issue_num]> entry.
Proof.
  unfold create_issue.
  destruct (issue_of py_str entry) as [issue|e].
  2:{ intros [= <- <-]. split; [now left | discriminate]. }
  destruct (env_missing (environ !! "GH_USER") || env_missing (environ !! "GH_TOKEN")).
  { intros [= <- <-]. split; [now left|]. intros entry' [= <-]. now left. }
  destruct (requests_post _ issue) as [status_code json].
  destruct (negb (status_code =? 201)).
  { intros [= <- <-]. split; [right; eauto | discriminate]. }
  destruct (json ≫= _) as [issue_num|e].
  - intros [= <- <-]. split; [right; eauto|]. intros entry' [= <-]. right. eauto.
  - intros [= <- <-]. split; [right; eauto | discriminate].
Qed.

Lemma fetch_Ok (requests_get : string -> Z * node) (fuel : nat) (p : parser)
    (url : string) (data : gmap string pyval) :
  fetch_spec_data requests_get fuel p url = Some (Ok data) ->
  exists spec url', parse p spec url' = Ok data.
Proof.
  revert url. induction fuel as [|fuel IH]; intros url; cbn [fetch_spec_data]; [discriminate|].
  destruct (requests_get url) as [status_code soup].
  destruct (negb (status_code =? 200)); [discriminate|].
  destruct (parse p soup url) as [d|e] eqn:Hparse.
  - intros [= <-]. now exists soup, url.
  - destruct e; try discriminate. apply IH.
Qed.

(** The message of the row of the organisation *)
Lemma org_message (entry : gmap string pyval) :
  (forall name, is_Some (entry !! name) -> recognized name) ->
  entry !! "org" = Some (PyUnicode "WHATWG") ->
  "Entry's org isn't one of [W3C, IETF, Ecma, Other]" ∈ validate_entry py_str entry PyNone.
Proof.
  intros Hrec Horg. rewrite validate_entry_concat.
  apply (EntryFacts.elem_of_concat _
           (validate_item py_str entry (shown_title PyNone) []
              ("org", true, OneOf ["W3C"; "IETF"; "Ecma"; "Other"]))).
  - destruct (validate_item_row py_str entry (shown_title PyNone) "org" true
                (OneOf ["W3C"; "IETF"; "Ecma"; "Other"]) Hrec) as [[Hok _]|[_ ->]].
    + exfalso. rewrite Horg in Hok. cbn in Hok.
      repeat (apply elem_of_cons in Hok as [Hok|Hok]; [discriminate Hok|]).
      now apply elem_of_nil in Hok.
    + rewrite Horg. apply list_elem_of_singleton. reflexivity.
  - apply list_elem_of_fmap_2. now repeat constructor.
Qed.

End Run.

End MainFacts.

(** X22.  The verb validate touches nothing, whatever the rest of the
    command line is, and ends without an exception exactly when
    activities.json holds a list of dictionaries each of which
    [validate_entry] accepts; it never fetches anything. *)
Theorem main_validate (py_str : pyval -> string) (fuel : nat) (w : world) :
  argv w !! 1%nat = Some "validate" ->
  (exists e : ending, main py_str fuel w = Some (e, []))
  /\ (main py_str fuel w = Some (Returned, [])
      <-> exists ds : list (gmap string pyval),
            activities_json w = Some (PyList (PyDict <$> ds))
            /\ Forall accepted_record ds).
Proof.
  intros Hverb. unfold main. rewrite Hverb.
  change (String.eqb "validate" "validate") with true. cbv iota.
  destruct (checked_activities py_str w) as [store|e] eqn:Hchecked.
  - split; [now exists Returned|]. split; [|reflexivity]. intros _.
    apply MainFacts.checked_activities_Ok in Hchecked as (ds & Hfile & Hall & _).
    now exists ds.
  - split; [now exists (Raised e)|]. split; [discriminate|].
    intros (ds & Hfile & Hall).
    assert (Hok : checked_activities py_str w
                  = Ok (mkActivities "activities.json" (PyList (PyDict <$> ds)))).
    { apply MainFacts.checked_activities_Ok. now exists ds. }
    congruence.
Qed.

Definition validate_world : world :=
  mkWorld ["activities.py"; "validate"] (Some (PyList [PyDict position_record])) false ∅
    (fun _ => (404, document [] [])) (fun _ _ => (404, Raise (ValueError (inl "No JSON")))).

Lemma main_validate_witness :
  (exists e : ending, main (fun _ => "") 0 validate_world = Some (e, []))
  /\ (main (fun _ => "") 0 validate_world = Some (Returned, [])
      <-> exists ds : list (gmap string pyval),
            activities_json validate_world = Some (PyList (PyDict <$> ds))
            /\ Forall accepted_record ds).
Proof.
  apply (main_validate (fun _ => "") 0 validate_world). reflexivity.
Defined.

(** X23.  The verb add leaves a valid file: a run that ends without an
    exception has found in activities.json a list of accepted
    dictionaries, has sent at most one issue, and has then written the
    file once, with the list followed by one more accepted dictionary, so
    that [validate] finds nothing in what was written. *)
Theorem main_add_keeps_file_valid
    (py_str : pyval -> string) (fuel : nat) (w : world) (events : list event) :
  argv w !! 1%nat = Some "add" ->
  main py_str fuel w = Some (Returned, events) ->
  exists (ds : list (gmap string pyval)) (entry : gmap string pyval) (sent : list event),
    activities_json w = Some (PyList (PyDict <$> ds))
    /\ Forall accepted_record (ds ++ [entry])
    /\ (sent = [] \/ exists auth issue, sent = [Posted auth issue])
    /\ events = sent ++ [Saved "activities.json" (PyList (PyDict <$> ds ++ [entry]))]
    /\ validate py_str (mkActivities "activities.json" (PyList (PyDict <$> ds ++ [entry])))
       = Ok [].
Proof.
  intros Hverb. unfold main. rewrite Hverb.
  change (String.eqb "add" "validate") with false.
  change (String.eqb "add" "format") with false.
  change (String.eqb "add" "add") with true. cbv iota.
  destruct (checked_activities py_str w) as [store|e] eqn:Hchecked; [|discriminate].
  apply MainFacts.checked_activities_Ok in Hchecked as (ds & Hfile & Hall & ->).
  unfold with_entry. destruct (argv w !! 2%nat) as [arg|]; [|discriminate].
  destruct (negb (is_ascii arg)); [discriminate|].
  destruct (SpecEntry (requests_get w) fuel arg) as [[ENTRY|e]|]; try discriminate.
  unfold add_entry.
  destruct (entry_unique py_str _ ENTRY) as [checked|e] eqn:Hunique.
  2:{ destruct e as [| | | |[[|c s]|[|m l]]| | | | |]; discriminate. }
  apply MainFacts.entry_unique_Ok in Hunique as ->.
  destruct (create_issue py_str (environ w) (requests_post w) ENTRY) as [[entry|e] sent] eqn:Hissue;
    [|discriminate].
  destruct (MainFacts.create_issue_run _ _ _ _ _ _ Hissue) as [Hsent _].
  destruct (append py_str _ entry) as [store|e] eqn:Happend; [|discriminate].
  apply StoreFacts.append_Ok in Happend as [Hentry (l & Hdata & ->)].
  cbn [data] in Hdata. injection Hdata as <-.
  unfold save. destruct (writable w); [|discriminate].
  cbn [filename data]. intros [= <-].
  assert (Hnew : Forall accepted_record (ds ++ [entry])).
  { apply Forall_app. split; [exact Hall | now constructor]. }
  exists ds, entry, sent. rewrite fmap_app. cbn [fmap list_fmap].
  repeat split; try assumption.
  apply StoreFacts.validate_nil. exists (ds ++ [entry]).
  cbn [data]. rewrite fmap_app. now split.
Qed.

Definition draft_entry : gmap string pyval :=
  W3C_data "https://tools.ietf.org/html/draft-ietf-foo" "IETF" (Some "Foo") ""
  ∪ SpecEntry_data.

Definition draft_issue : gmap string pyval :=
  <["title" := PyUnicode "Foo"]>
    (<["body" := PyUnicode
         ("* Specification Title: Foo" +:+ String "010"
          ("* Specification URL: https://tools.ietf.org/html/draft-ietf-foo" +:+ String "010"
           ("* Caniuse.com URL (optional): None" +:+ String "010"
            ("* Bugzilla URL (optional): None" +:+ String "010" ""))))]> ∅).

Definition add_world : world :=
  mkWorld ["activities.py"; "add"; "https://tools.ietf.org/html/draft-ietf-foo"]
    (Some (PyList [PyDict position_record])) true credentials ietf_web github.

Lemma main_add_keeps_file_valid_witness :
  exists (ds : list (gmap string pyval)) (entry : gmap string pyval) (sent : list event),
    activities_json add_world = Some (PyList (PyDict <$> ds))
    /\ Forall accepted_record (ds ++ [entry])
    /\ (sent = [] \/ exists auth issue, sent = [Posted auth issue])
    /\ [Posted ("token", "token") draft_issue;
        Saved "activities.json"
          (PyList [PyDict position_record;
                   PyDict (<["mozPositionIssue" := PyInt 7]> draft_entry)])]
       = sent ++ [Saved "activities.json" (PyList (PyDict <$> ds ++ [entry]))]
    /\ validate (fun _ => "None")
         (mkActivities "activities.json" (PyList (PyDict <$> ds ++ [entry])))
       = Ok [].
Proof.
  apply (main_add_keeps_file_valid (fun _ => "None") 1 add_world).
  - reflexivity.
  - vm_compute. exact eq_refl.
Defined.

(** X24.  The verb add sends the issue before it checks the entry, and a
    specification of the WHATWG never passes the check: when the store is
    valid, the address is one of the WHATWG, its page parses, the entry is
    new and [create_issue] returns, the run ends in the [ValueError] of
    [append], with the message about the organisation; what
    [create_issue] has sent stays sent and nothing is written. *)
Theorem main_add_WHATWG
    (py_str : pyval -> string) (fuel : nat) (w : world) (url : string)
    (store : ActivitiesJson) (data entry : gmap string pyval) (sent : list event) :
  argv w !! 1%nat = Some "add" ->
  argv w !! 2%nat = Some url ->
  is_ascii url = true ->
  checked_activities py_str w = Ok store ->
  figure_out_org url = Ok WHATWGParser ->
  fetch_spec_data (requests_get w) fuel WHATWGParser url = Some (Ok data) ->
  entry_unique py_str store (data ∪ SpecEntry_data) = Ok store ->
  create_issue py_str (environ w) (requests_post w) (data ∪ SpecEntry_data) = (Ok entry, sent) ->
  exists errors : list string,
    main py_str fuel w = Some (Raised (ValueError (inr errors)), sent)
    /\ "Entry's org isn't one of [W3C, IETF, Ecma, Other]" ∈ errors.
Proof.
  intros Hverb Hurl Hascii Hchecked Horg Hfetch Hunique Hissue.
  apply MainFacts.fetch_Ok in Hfetch as Hparse. destruct Hparse as (spec & url' & Hparse).
  cbn [parse] in Hparse.
  apply EntryFacts.W3C_parse_Ok in Hparse as (u & title & description & ->).
  set (parsed := W3C_data u "WHATWG" title description ∪ SpecEntry_data) in *.
  assert (Hrec : forall name, is_Some (entry !! name) -> recognized name).
  { assert (Hparsed : forall name, is_Some (parsed !! name) -> recognized name).
    { intros name Hname. apply EntryFacts.entry_members in Hname. unfold recognized.
      repeat (apply elem_of_cons in Hname as [->|Hname]; [now repeat constructor|]).
      now apply elem_of_nil in Hname. }
    destruct (MainFacts.create_issue_run _ _ _ _ _ _ Hissue) as [_ Hentry].
    destruct (Hentry entry eq_refl) as [->|[issue_num ->]]; [exact Hparsed|].
    intros name [x Hx]. apply lookup_insert_Some in Hx as [[<- _]|[_ Hx]].
    - unfold recognized. now repeat constructor.
    - apply Hparsed. now exists x. }
  assert (Hwhatwg : entry !! "org" = Some (PyUnicode "WHATWG")).
  { destruct (MainFacts.create_issue_run _ _ _ _ _ _ Hissue) as [_ Hentry].
    destruct (Hentry entry eq_refl) as [->|[issue_num ->]]; [reflexivity|].
    rewrite lookup_insert_ne by discriminate. reflexivity. }
  pose proof (MainFacts.org_message py_str entry Hrec Hwhatwg) as Hmessage.
  exists (validate_entry py_str entry PyNone). split; [|exact Hmessage].
  unfold main. rewrite Hverb.
  change (String.eqb "add" "validate") with false.
  change (String.eqb "add" "format") with false.
  change (String.eqb "add" "add") with true. cbv iota.
  rewrite Hchecked. unfold with_entry. rewrite Hurl, Hascii. cbn [negb].
  unfold SpecEntry. rewrite Horg, Hfetch. fold parsed.
  unfold add_entry. rewrite Hunique, Hissue. unfold append.
  destruct (validate_entry py_str entry PyNone) as [|m errors]; [|reflexivity].
  now apply elem_of_nil in Hmessage.
Qed.

Definition whatwg_world : world :=
  mkWorld ["activities.py"; "add"; "https://dom.spec.whatwg.org/"]
    (Some (PyList [PyDict position_record])) true credentials
    (fun _ => (200, w3c_page [])) github.

Definition whatwg_data : gmap string pyval :=
  W3C_data "https://dom.spec.whatwg.org" "WHATWG" (Some "Foo") "A specification of foo.".

Definition whatwg_issue : gmap string pyval :=
  <["title" := PyUnicode "Foo"]>
    (<["body" := PyUnicode
         ("* Specification Title: Foo" +:+ String "010"
          ("* Specification URL: https://dom.spec.whatwg.org" +:+ String "010"
           ("* Caniuse.com URL (optional): None" +:+ String "010"
            ("* Bugzilla URL (optional): None" +:+ String "010" ""))))]> ∅).

Lemma main_add_WHATWG_witness :
  exists errors : list string,
    main (fun _ => "None") 1 whatwg_world
    = Some (Raised (ValueError (inr errors)), [Posted ("token", "token") whatwg_issue])
    /\ "Entry's org isn't one of [W3C, IETF, Ecma, Other]" ∈ errors.
Proof.
  apply (main_add_WHATWG (fun _ => "None") 1 whatwg_world "https://dom.spec.whatwg.org/"
           (mkActivities "activities.json" (PyList [PyDict position_record]))
           whatwg_data (<["mozPositionIssue" := PyInt 7]> (whatwg_data ∪ SpecEntry_data))).
  - reflexivity.
  - reflexivity.
  - reflexivity.
  - vm_compute. exact eq_refl.
  - reflexivity.
  - vm_compute. exact eq_refl.
  - vm_compute. exact eq_refl.
  - vm_compute. exact eq_refl.
Defined.





Module AddFacts.



End AddFacts.



(** X27.  An entry without a title stops the verb add before anything is
    sent or written: when the page parses with a title that is [None] (an
    h1 that is not one text), [entry_unique] asks [None] for its lower
    case and the run ends in [AttributeError], with no event. *)
Theorem main_add_untitled
    (py_str : pyval -> string) (fuel : nat) (w : world) (url : string)
    (store : ActivitiesJson) (entry : gmap string pyval) :
  argv w !! 1%nat = Some "add" ->
  argv w !! 2%nat = Some url ->
  is_ascii url = true ->
  checked_activities py_str w = Ok store ->
  SpecEntry (requests_get w) fuel url = Some (Ok entry) ->
  entry !! "title" = Some PyNone ->
  main py_str fuel w = Some (Raised AttributeError, []).
Proof.
  intros Hverb Hurl Hascii Hchecked Hentry Htitle.
  unfold main. rewrite Hverb.
  change (String.eqb "add" "validate") with false.
  change (String.eqb "add" "format") with false.
  change (String.eqb "add" "add") with true. cbv iota.
  rewrite Hchecked. unfold with_entry. rewrite Hurl, Hascii. cbn [negb].
  rewrite Hentry. unfold add_entry, entry_unique. cbn [py_getitem].
  rewrite Htitle. reflexivity.
Qed.

Definition untitled_page : node :=
  document [Elem "title" ∅ [Text "Foo"]]
    [Elem "h1" ∅ [Text "Foo "; Elem "em" ∅ [Text "Level 2"]];
     Elem "h2" {[ "id" := "abstract" ]} [Text "Abstract"];
     Elem "p" ∅ [Text "A specification of foo."]].

Definition untitled_world : world :=
  mkWorld ["activities.py"; "add"; "https://www.w3.org/TR/foo/"]
    (Some (PyList [PyDict position_record])) true credentials
    (fun _ => (200, untitled_page)) github.

Lemma main_add_untitled_witness :
  main (fun _ => "None") 1 untitled_world = Some (Raised AttributeError, []).
Proof.
  apply (main_add_untitled (fun _ => "None") 1 untitled_world "https://www.w3.org/TR/foo/"
           (mkActivities "activities.json" (PyList [PyDict position_record]))
           (W3C_data "https://www.w3.org/TR/foo" "W3C" None "A specification of foo."
            ∪ SpecEntry_data)).
  - reflexivity.
  - reflexivity.
  - reflexivity.
  - vm_compute. exact eq_refl.
  - vm_compute. exact eq_refl.
  - reflexivity.
Defined.



